(** * Repair-request tracker: persistence layer and analytics

    A shallow embedding of [src/database.py] (the [Database] repository over
    SQLite) and [src/algorithms.py] (the four statistics routines), together
    with the properties of the written specification that concern them.

    Modelling conventions.
    - TEXT values are byte strings ([string]); Python [str] values are stored
      by SQLite as UTF-8, so a Cyrillic literal is the sequence of its UTF-8
      bytes.
    - The tables are lists of records kept in rowid order; the SQL statements
      of the source are rendered with [filter], [map], a stable [order_by]
      and a grouping function.
    - A Python [float] is an IEEE 754 binary64 number.  The finite ones are
      rationals and are kept as such ([Q]); an operation on floats yields
      the exact result rounded to binary64 ([binary64]), and [round(x, 2)]
      the float nearest to the hundredth nearest to [x] ([float_round2]).
    - Request identifiers are SQLite rowids, integers of 64 bits; the
      counter of [AUTOINCREMENT] is taken to stay below the largest.
    - Exceptions are values of an error monad [Exc]; a [try/except Exception]
      block is [try_except].  What [get_database()] yields, a store or an
      exception, is the first argument of each analytics routine.
    - [datetime.now().strftime("%Y-%m-%d %H:%M:%S")] is an explicit argument
      [current_time] of the operations that read the clock. *)

From Stdlib Require Import String Ascii ZArith QArith Qround Qabs Qpower List Lia
  Lqa Bool.
From Stdlib Require Import Sorting.Sorted Sorting.Permutation DecimalString.
Import ListNotations.

Open Scope string_scope.
Open Scope Z_scope.

(** ** Exceptions *)

Inductive PyExc : Type :=
| ValueError
| TypeError
| ZeroDivisionError
| StatisticsError
| SqliteError.

Inductive Exc (A : Type) : Type :=
| Ok (a : A)
| Raise (e : PyExc).

Arguments Ok {A} a.
Arguments Raise {A} e.

Definition bind {A B : Type} (m : Exc A) (k : A -> Exc B) : Exc B :=
  match m with
  | Ok a => k a
  | Raise e => Raise e
  end.

Notation "x <- m ;; k" := (bind m (fun x => k))
  (at level 61, m at next level, right associativity).

(** [try: body / except Exception: return default]. *)
Definition try_except {A : Type} (body : Exc A) (default : A) : A :=
  match body with
  | Ok a => a
  | Raise _ => default
  end.

(** A [for] loop whose body may raise, threading an accumulator. *)
Fixpoint for_each {A S : Type} (body : S -> A -> Exc S) (l : list A) (acc : S)
  : Exc S :=
  match l with
  | [] => Ok acc
  | x :: l' => acc' <- body acc x ;; for_each body l' acc'
  end.

(** ** Characters *)

Definition code (c : ascii) : Z := Z.of_N (N_of_ascii c).

Definition is_digit (c : ascii) : bool := (48 <=? code c) && (code c <=? 57).

(** Python's [\s] on the ASCII range. *)
Definition is_space (c : ascii) : bool :=
  ((9 <=? code c) && (code c <=? 13)) || ((28 <=? code c) && (code c <=? 32)).

(** Texts of ASCII characters only, and texts without a NUL character. *)
Fixpoint ascii_only (s : string) : bool :=
  match s with
  | EmptyString => true
  | String c s' => (code c <? 128) && ascii_only s'
  end.

Fixpoint no_nul (s : string) : bool :=
  match s with
  | EmptyString => true
  | String c s' => negb (code c =? 0) && no_nul s'
  end.

(** ** [datetime] and [timedelta] *)

Record datetime : Type := mk_datetime {
  year : Z; month : Z; day : Z; hour : Z; minute : Z; second : Z
}.

Record timedelta : Type := mk_timedelta { days : Z; seconds : Z }.

Definition is_leap (y : Z) : bool :=
  (y mod 4 =? 0) && (negb (y mod 100 =? 0) || (y mod 400 =? 0)).

Definition days_in_month (y m : Z) : Z :=
  if m =? 2 then (if is_leap y then 29 else 28)
  else if (m =? 4) || (m =? 6) || (m =? 9) || (m =? 11) then 30
  else 31.

Definition days_before_year (y : Z) : Z :=
  let y1 := y - 1 in y1 * 365 + y1 / 4 - y1 / 100 + y1 / 400.

Definition days_before_month (y m : Z) : Z :=
  fold_left (fun acc k => acc + days_in_month y (Z.of_nat k))
            (seq 1 (Z.to_nat (m - 1))) 0.

Definition toordinal (d : datetime) : Z :=
  days_before_year (year d) + days_before_month (year d) (month d) + day d.

Definition day_seconds (d : datetime) : Z :=
  second d + minute d * 60 + hour d * 3600.

(** [timedelta(days, seconds)] normalises [seconds] into [0, 86400). *)
Definition make_timedelta (d s : Z) : timedelta :=
  mk_timedelta (d + s / 86400) (s mod 86400).

(** [a - b] on two [datetime] values. *)
Definition datetime_sub (a b : datetime) : timedelta :=
  make_timedelta (toordinal a - toordinal b) (day_seconds a - day_seconds b).

(** [timedelta.total_seconds()]: the microseconds divided by [10**6].  There
    are no fractions of a second here, and the number of seconds of a
    [timedelta] is below [2^53]: the quotient is that integer, exactly. *)
Definition total_seconds (t : timedelta) : Q :=
  inject_Z (days t * 86400 + seconds t).

(** ** [datetime.strptime]

    The two formats the source uses.  A directive matches the longest run of
    ASCII digits at its position: [%Y] needs exactly four digits, the other
    directives one or two digits within their range ([%m] 1-12, [%d] 1-31 or
    a blank and one digit, [%H] 0-23, [%M] 0-59, [%S] 0-61); the blank of the
    format matches one or more white-space characters; nothing may follow.
    The [datetime] constructor then rejects year 0, a day past the end of the
    month and seconds above 59.

    The model is exact on ASCII text.  The library also reads decimal digits
    and white space outside ASCII, which the model rejects: a text the model
    parses is parsed by the library to the same value, and a property that
    rests on a text being rejected is stated for ASCII text ([ascii_only]). *)

Inductive Format : Type :=
| Fmt_Ymd_HMS   (* "%Y-%m-%d %H:%M:%S" *)
| Fmt_Ymd.      (* "%Y-%m-%d" *)

Definition digit_val (c : ascii) : Z := code c - 48.

Fixpoint span_digits (s : string) : list Z * string :=
  match s with
  | String c s' =>
      if is_digit c
      then let (ds, r) := span_digits s' in (digit_val c :: ds, r)
      else ([], s)
  | EmptyString => ([], s)
  end.

Definition digits_value (ds : list Z) : Z :=
  fold_left (fun acc d => 10 * acc + d) ds 0.

Definition re_year (s : string) : option (Z * string) :=
  let (ds, r) := span_digits s in
  if (length ds =? 4)%nat then Some (digits_value ds, r) else None.

Definition re_field (lo hi : Z) (s : string) : option (Z * string) :=
  let (ds, r) := span_digits s in
  let v := digits_value ds in
  if ((length ds =? 1)%nat || (length ds =? 2)%nat) && (lo <=? v) && (v <=? hi)
  then Some (v, r) else None.

Definition re_day (s : string) : option (Z * string) :=
  match s with
  | String " " s' =>
      let (ds, r) := span_digits s' in
      let v := digits_value ds in
      if (length ds =? 1)%nat && (1 <=? v) then Some (v, r) else None
  | _ => re_field 1 31 s
  end.

Definition re_char (c : ascii) (s : string) : option string :=
  match s with
  | String c' s' => if Ascii.eqb c c' then Some s' else None
  | EmptyString => None
  end.

Fixpoint skip_spaces (s : string) : string :=
  match s with
  | String c s' => if is_space c then skip_spaces s' else s
  | EmptyString => s
  end.

Definition re_spaces (s : string) : option string :=
  match s with
  | String c s' => if is_space c then Some (skip_spaces s') else None
  | EmptyString => None
  end.

Definition obind {A B : Type} (m : option A) (k : A -> option B) : option B :=
  match m with
  | Some a => k a
  | None => None
  end.

Definition re_date (s : string) : option (Z * Z * Z * string) :=
  obind (re_year s) (fun '(y, s1) =>
  obind (re_char "-" s1) (fun s2 =>
  obind (re_field 1 12 s2) (fun '(m, s3) =>
  obind (re_char "-" s3) (fun s4 =>
  obind (re_day s4) (fun '(d, s5) => Some (y, m, d, s5)))))).

Definition re_time (s : string) : option (Z * Z * Z * string) :=
  obind (re_field 0 23 s) (fun '(h, s1) =>
  obind (re_char ":" s1) (fun s2 =>
  obind (re_field 0 59 s2) (fun '(mi, s3) =>
  obind (re_char ":" s3) (fun s4 =>
  obind (re_field 0 61 s4) (fun '(se, s5) => Some (h, mi, se, s5)))))).

Definition valid_datetime (d : datetime) : bool :=
  (1 <=? year d) && (year d <=? 9999) &&
  (1 <=? month d) && (month d <=? 12) &&
  (1 <=? day d) && (day d <=? days_in_month (year d) (month d)) &&
  (0 <=? hour d) && (hour d <=? 23) &&
  (0 <=? minute d) && (minute d <=? 59) &&
  (0 <=? second d) && (second d <=? 59).

Definition parse_datetime (fmt : Format) (s : string) : option datetime :=
  match fmt with
  | Fmt_Ymd =>
      obind (re_date s) (fun '(y, m, d, r) =>
      match r with
      | EmptyString => Some (mk_datetime y m d 0 0 0)
      | _ => None
      end)
  | Fmt_Ymd_HMS =>
      obind (re_date s) (fun '(y, m, d, s1) =>
      obind (re_spaces s1) (fun s2 =>
      obind (re_time s2) (fun '(h, mi, se, r) =>
      match r with
      | EmptyString => Some (mk_datetime y m d h mi se)
      | _ => None
      end)))
  end.

Definition strptime (s : string) (fmt : Format) : Exc datetime :=
  match parse_datetime fmt s with
  | Some d => if valid_datetime d then Ok d else Raise ValueError
  | None => Raise ValueError
  end.

(** ** Numbers *)

(** Nearest integer, ties to even. *)
Definition round_half_even (x : Q) : Z :=
  let f := Qfloor x in
  match Qcompare (x - inject_Z f) (1 # 2) with
  | Lt => f
  | Gt => f + 1
  | Eq => if Z.even f then f else f + 1
  end.

(** The nearest hundredth, ties to even: rounding to two decimals in exact
    arithmetic. *)
Definition round2 (x : Q) : Q := Qred (round_half_even (x * 100) # 100).

Definition Qsum (l : list Q) : Q := fold_right Qplus 0%Q l.

(** *** Floats

    The position of the leading bit of a positive rational:
    [2 ^ ilog2 a <= a < 2 ^ (ilog2 a + 1)]. *)
Definition ilog2 (a : Q) : Z :=
  let e := Z.log2 (Qnum a) - Z.log2 (Z.pos (Qden a)) in
  if Qle_bool (2 ^ e) a then e else e - 1.

(** Rounding to binary64, to nearest and ties to even: 53 significant bits,
    the last of them not below [2 ^ -1074].  Magnitudes from [2^1024] on
    have no finite float; they do not arise from the counts, seconds and
    hours of this program. *)
Definition binary64_pos (a : Q) : Q :=
  let e := Z.max (ilog2 a - 52) (-1074) in
  (inject_Z (round_half_even (a / 2 ^ e)) * 2 ^ e)%Q.

Definition binary64 (q : Q) : Q :=
  match Qcompare q 0 with
  | Eq => 0%Q
  | Gt => Qred (binary64_pos (Qred q))
  | Lt => Qred (- binary64_pos (Qred (- q)))
  end.

(** [a / b] on two [int] or [float] values with [b] not zero, and [a * b] on
    floats: the exact result, rounded. *)
Definition truediv (a b : Q) : Q := binary64 (a / b).

Definition float_mul (a b : Q) : Q := binary64 (a * b).

(** [round(x, 2)] on a float: the decimal expansion of [x], which is exact,
    is rounded to two places, ties to even, and the result is read back as a
    float. *)
Definition float_round2 (x : Q) : Q := binary64 (round2 x).

(** [statistics.mean] on floats: the sum is formed exactly and the quotient
    rounded once; [StatisticsError] on an empty sequence. *)
Definition statistics_mean (l : list Q) : Exc Q :=
  match l with
  | [] => Raise StatisticsError
  | _ => Ok (truediv (Qsum l) (inject_Z (Z.of_nat (length l))))
  end.

(** ** SQL values and generic query helpers *)

Inductive SqlVal : Type :=
| SNull
| SInt (n : Z)
| SText (s : string).

Definition SqlVal_eqb (a b : SqlVal) : bool :=
  match a, b with
  | SNull, SNull => true
  | SInt x, SInt y => x =? y
  | SText x, SText y => String.eqb x y
  | _, _ => false
  end.

(** Python truthiness of a fetched column: [None], [0] and [''] are false. *)
Definition truthy (v : SqlVal) : bool :=
  match v with
  | SNull => false
  | SInt n => negb (n =? 0)
  | SText s => negb (String.eqb s EmptyString)
  end.

Definition sql_opt (o : option string) : SqlVal :=
  match o with
  | Some s => SText s
  | None => SNull
  end.

(** Truthiness of an optional [str] argument ([if master_name:]). *)
Definition truthy_arg (o : option string) : bool := truthy (sql_opt o).

Definition is_some {A : Type} (o : option A) : bool :=
  match o with
  | Some _ => true
  | None => false
  end.

(** [time.strptime] on a fetched column: a non-string argument is a
    [TypeError]. *)
Definition strptime_val (v : SqlVal) (fmt : Format) : Exc datetime :=
  match v with
  | SText s => strptime s fmt
  | _ => Raise TypeError
  end.

(** [ORDER BY]: stable insertion sort; [le x y] says that [x] may precede
    [y].  Rows with equal keys keep their scan order. *)
Fixpoint insert_by {A : Type} (le : A -> A -> bool) (x : A) (l : list A)
  : list A :=
  match l with
  | [] => [x]
  | y :: l' => if le x y then x :: l else y :: insert_by le x l'
  end.

Definition order_by {A : Type} (le : A -> A -> bool) (l : list A) : list A :=
  fold_right (insert_by le) [] l.

(** [CAST(n AS TEXT)]. *)
Definition string_of_Z (n : Z) : string := NilZero.string_of_int (Z.to_int n).

(** [LENGTH(text)]: characters (not bytes) before the first NUL. *)
Definition is_continuation (c : ascii) : bool :=
  (128 <=? code c) && (code c <=? 191).

Fixpoint sql_length (s : string) : Z :=
  match s with
  | EmptyString => 0
  | String c s' =>
      if code c =? 0 then 0
      else if is_continuation c then sql_length s'
      else 1 + sql_length s'
  end.

(** *** [LIKE]

    SQLite's default [LIKE]: [%] matches any sequence of characters, [_]
    exactly one UTF-8 character, an ASCII letter matches either case, every
    other byte matches itself.  There is no escape character.  The engine
    reads both operands as C strings, that is up to their first NUL
    ([sql_like]), and refuses a pattern of more than 50000 bytes with an
    error ([SQLITE_MAX_LIKE_PATTERN_LENGTH]); statements about the patterns
    that [search_requests] builds are made for terms below that length
    ([within_like_limit]). *)

Definition to_lower (c : ascii) : ascii :=
  if (65 <=? code c) && (code c <=? 90)
  then ascii_of_N (N_of_ascii c + 32) else c.

Definition like_char (c c' : ascii) : bool :=
  Ascii.eqb (to_lower c) (to_lower c').

Fixpoint skip_continuation (s : string) : string :=
  match s with
  | String c s' => if is_continuation c then skip_continuation s' else s
  | EmptyString => s
  end.

Definition skip_utf8_char (s : string) : option string :=
  match s with
  | String c s' => Some (if 192 <=? code c then skip_continuation s' else s')
  | EmptyString => None
  end.

Fixpoint like (pattern : string) : string -> bool :=
  match pattern with
  | EmptyString => fun s => match s with EmptyString => true | _ => false end
  | String c p' =>
      if Ascii.eqb c "%" then
        fix star (s : string) : bool :=
          like p' s ||
          match s with
          | String _ s' => star s'
          | EmptyString => false
          end
      else if Ascii.eqb c "_" then
        fun s => match skip_utf8_char s with
                 | Some s' => like p' s'
                 | None => false
                 end
      else
        fun s => match s with
                 | String c' s' => like_char c c' && like p' s'
                 | EmptyString => false
                 end
  end.

(** The text before the first NUL. *)
Fixpoint c_text (s : string) : string :=
  match s with
  | EmptyString => EmptyString
  | String c s' => if code c =? 0 then EmptyString else String c (c_text s')
  end.

Definition sql_like (pattern text : string) : bool :=
  like (c_text pattern) (c_text text).

(** ** Schema ([Database._initialize_database]) *)

Record Request : Type := mk_request {
  id : Z;
  created_date : string;
  device_type : string;
  device_model : string;
  problem_description : string;
  client_name : string;
  client_phone : string;
  status : string;
  master_name : option string;
  deadline : option string;
  completion_date : option string;
  updated_date : option string
}.

Record Comment : Type := mk_comment {
  comment_id : Z;
  request_id : Z;
  comment_text : string;
  parts_ordered : option string;
  added_date : string;
  author : string
}.

(** The two tables the specified operations touch, each with the counter
    that [AUTOINCREMENT] keeps for it. *)
Record Database : Type := mk_database {
  requests : list Request;
  comments : list Comment;
  requests_seq : Z;
  comments_seq : Z
}.

Definition empty_database : Database := mk_database [] [] 0 0.

(** A row of [SELECT * FROM requests]: the columns in declaration order,
    addressed by position ([req[1]], [req[5]], ...). *)
Definition select_star (r : Request) : list SqlVal :=
  [ SInt (id r);                      (* 0 *)
    SText (created_date r);           (* 1 *)
    SText (device_type r);            (* 2 *)
    SText (device_model r);           (* 3 *)
    SText (problem_description r);    (* 4 *)
    SText (client_name r);            (* 5 *)
    SText (client_phone r);           (* 6 *)
    SText (status r);                 (* 7 *)
    sql_opt (master_name r);          (* 8 *)
    sql_opt (deadline r);             (* 9 *)
    sql_opt (completion_date r);      (* 10 *)
    sql_opt (updated_date r) ].       (* 11 *)

Definition col (row : list SqlVal) (i : nat) : SqlVal := nth i row SNull.

(** ** Repository ([class Database]) *)

Definition STATUS_NEW : string := "Новая".
Definition STATUS_READY : string := "Готова к выдаче".
Definition STATUS_COMPLETED : string := "Завершена".

(** [INSERT INTO requests (...)]: the unnamed columns [master_name] and
    [completion_date] are NULL.  The arguments are [str] values, so the
    NOT NULL constraints hold and the insertion commits, as long as the
    counter has not reached the largest rowid, [2^63 - 1]. *)
Definition add_request (current_time : string)
    (device_type device_model problem_description client_name client_phone
       : string)
    (deadline : option string) (db : Database) : Z * Database :=
  let request_id := requests_seq db + 1 in
  let row := mk_request request_id current_time device_type device_model
               problem_description client_name client_phone STATUS_NEW
               None deadline None (Some current_time) in
  (request_id,
   mk_database (requests db ++ [row]) (comments db) request_id
               (comments_seq db)).

(** [SELECT * FROM requests [WHERE status = ?] ORDER BY created_date DESC]. *)
Definition newest_first (a b : Request) : bool :=
  String.leb (created_date b) (created_date a).

Definition get_all_requests (status_filter : option string) (db : Database)
  : list Request :=
  let rows :=
    if truthy_arg status_filter
    then filter (fun r => SqlVal_eqb (SText (status r)) (sql_opt status_filter))
                (requests db)
    else requests db in
  order_by newest_first rows.

(** One [column = ?] item of an [UPDATE ... SET] list. *)
Inductive Assignment : Type :=
| Set_status (v : string)
| Set_updated_date (v : string)
| Set_completion_date (v : string)
| Set_master_name (v : string)
| Set_deadline (v : string).

Definition assign (r : Request) (a : Assignment) : Request :=
  match a with
  | Set_status v =>
      mk_request (id r) (created_date r) (device_type r) (device_model r)
        (problem_description r) (client_name r) (client_phone r) v
        (master_name r) (deadline r) (completion_date r) (updated_date r)
  | Set_updated_date v =>
      mk_request (id r) (created_date r) (device_type r) (device_model r)
        (problem_description r) (client_name r) (client_phone r) (status r)
        (master_name r) (deadline r) (completion_date r) (Some v)
  | Set_completion_date v =>
      mk_request (id r) (created_date r) (device_type r) (device_model r)
        (problem_description r) (client_name r) (client_phone r) (status r)
        (master_name r) (deadline r) (Some v) (updated_date r)
  | Set_master_name v =>
      mk_request (id r) (created_date r) (device_type r) (device_model r)
        (problem_description r) (client_name r) (client_phone r) (status r)
        (Some v) (deadline r) (completion_date r) (updated_date r)
  | Set_deadline v =>
      mk_request (id r) (created_date r) (device_type r) (device_model r)
        (problem_description r) (client_name r) (client_phone r) (status r)
        (master_name r) (Some v) (completion_date r) (updated_date r)
  end.

(** [UPDATE requests SET fields WHERE id = ?]; the first component is
    [cursor.rowcount]. *)
Definition sql_update (fields : list Assignment) (request_id : Z)
    (db : Database) : Z * Database :=
  let hit (r : Request) := id r =? request_id in
  (Z.of_nat (length (filter hit (requests db))),
   mk_database
     (map (fun r => if hit r then fold_left assign fields r else r)
          (requests db))
     (comments db) (requests_seq db) (comments_seq db)).

Definition is_closing_status (new_status : string) : bool :=
  String.eqb new_status STATUS_READY || String.eqb new_status STATUS_COMPLETED.

Definition update_request_status (current_time : string) (request_id : Z)
    (new_status : string) (master_name : option string) (db : Database)
  : bool * Database :=
  let fields := [Set_status new_status; Set_updated_date current_time] in
  let fields :=
    if is_closing_status new_status
    then (fields ++ [Set_completion_date current_time])%list else fields in
  let fields :=
    match master_name with
    | Some m => if truthy_arg master_name
                then (fields ++ [Set_master_name m])%list else fields
    | None => fields
    end in
  let (rowcount, db') := sql_update fields request_id db in
  (0 <? rowcount, db').

Definition extend_deadline (current_time : string) (request_id : Z)
    (new_deadline : string) (db : Database) : bool * Database :=
  let (rowcount, db') :=
    sql_update [Set_deadline new_deadline; Set_updated_date current_time]
               request_id db in
  (0 <? rowcount, db').

(** [INSERT INTO comments]: with [PRAGMA foreign_keys = ON] an unknown
    [request_id] is an [IntegrityError], which the method catches, rolls
    back and reports as [False]. *)
Definition add_comment (current_time : string) (request_id : Z)
    (comment_text : string) (parts_ordered : option string) (author : string)
    (db : Database) : bool * Database :=
  if existsb (fun r => id r =? request_id) (requests db) then
    let comment_id := comments_seq db + 1 in
    (true,
     mk_database (requests db)
       (comments db ++
          [mk_comment comment_id request_id comment_text parts_ordered
                      current_time author])
       (requests_seq db) comment_id)
  else (false, db).

(** The [WHERE] clause of [search_requests]. *)
Definition matches (search_term : string) (r : Request) : bool :=
  let pattern := "%" ++ search_term ++ "%" in
  sql_like pattern (string_of_Z (id r))
  || sql_like pattern (client_name r)
  || sql_like pattern (client_phone r)
  || sql_like pattern (device_model r).

Definition search_requests (search_term : string) (db : Database)
  : list Request :=
  order_by newest_first (filter (matches search_term) (requests db)).

(** ** Python dictionaries

    Insertion-ordered, as association lists: a key keeps the position of its
    first assignment. *)

Section Dict.
Context {K V : Type} (eqb : K -> K -> bool).

Fixpoint dict_get (k : K) (d : list (K * V)) : option V :=
  match d with
  | [] => None
  | (k', v) :: d' => if eqb k k' then Some v else dict_get k d'
  end.

Fixpoint dict_set (k : K) (v : V) (d : list (K * V)) : list (K * V) :=
  match d with
  | [] => [(k, v)]
  | (k', v') :: d' =>
      if eqb k k' then (k', v) :: d' else (k', v') :: dict_set k v d'
  end.

(** [d[k] = f(d[k])] for a key that is present; [d.setdefault(k, v0)]
    first when it is not. *)
Definition dict_upd (k : K) (v0 : V) (f : V -> V) (d : list (K * V))
  : list (K * V) :=
  match dict_get k d with
  | Some v => dict_set k (f v) d
  | None => dict_set k (f v0) d
  end.
End Dict.

(** ** Analytics ([algorithms.py]) *)

(** Hours elapsed from [created_str] to [completed_str], as each of the
    three loops computes them: two [strptime] calls, a subtraction and
    [total_seconds() / 3600]. *)
Definition elapsed_hours (created_str completed_str : SqlVal) : Exc Q :=
  created_date <- strptime_val created_str Fmt_Ymd_HMS ;;
  completed_date <- strptime_val completed_str Fmt_Ymd_HMS ;;
  let time_difference := datetime_sub completed_date created_date in
  Ok (truediv (total_seconds time_difference) 3600).

(** [SELECT created_date, completion_date FROM requests
     WHERE completion_date IS NOT NULL]. *)
Definition select_completed (db : Database) : list (SqlVal * SqlVal) :=
  map (fun r => (SText (created_date r), sql_opt (completion_date r)))
      (filter (fun r => is_some (completion_date r)) (requests db)).

(** The body of the [for created_str, completed_str in completed_requests]
    loop. *)
Definition repair_loop_body (repair_times : list Q) (row : SqlVal * SqlVal)
  : Exc (list Q) :=
  let '(created_str, completed_str) := row in
  hours <- elapsed_hours created_str completed_str ;;
  Ok (repair_times ++ [hours])%list.

Definition calculate_average_repair_time (get_database : Exc Database) : Q :=
  try_except
    (db <- get_database ;;
     let completed_requests := select_completed db in
     match completed_requests with
     | [] => Ok 0%Q
     | _ =>
         repair_times <- for_each repair_loop_body completed_requests [] ;;
         average_time <- statistics_mean repair_times ;;
         Ok (float_round2 average_time)
     end)
    0%Q.

(** *** Statistics by device *)

Record DeviceAcc : Type := mk_device_acc {
  acc_total : Z;
  acc_completed : Z;
  acc_repair_times : list Q;
  acc_problems : list (string * Z)
}.

Record DeviceStats : Type := mk_device_stats {
  total_requests : Z;
  completed_requests : Z;
  average_repair_time_hours : Q;
  most_common_problem : string;
  completion_rate : Q
}.

(** [max(items, key=lambda x: x[1])]: the first item with the largest
    count. *)
Fixpoint max_by_count (best : string * Z) (items : list (string * Z))
  : string * Z :=
  match items with
  | [] => best
  | x :: items' =>
      if snd best <? snd x then max_by_count x items'
      else max_by_count best items'
  end.

(** [SELECT device_type, status, problem_description, created_date,
     completion_date FROM requests ORDER BY device_type]. *)
Definition select_by_device (db : Database) : list Request :=
  order_by (fun a b => String.leb (device_type a) (device_type b))
           (requests db).

Definition device_step (device_stats : list (string * DeviceAcc))
    (request : Request) : Exc (list (string * DeviceAcc)) :=
  let device_type := device_type request in
  let status := status request in
  let problem := problem_description request in
  let created_str := SText (created_date request) in
  let completed_str := sql_opt (completion_date request) in
  let fresh := mk_device_acc 0 0 [] [] in
  let device_stats :=
    dict_upd String.eqb device_type fresh
      (fun a => mk_device_acc (acc_total a + 1) (acc_completed a)
                  (acc_repair_times a)
                  (dict_upd String.eqb problem 0 (fun n => n + 1)
                            (acc_problems a)))
      device_stats in
  if String.eqb status STATUS_COMPLETED && truthy completed_str then
    hours <- elapsed_hours created_str completed_str ;;
    Ok (dict_upd String.eqb device_type fresh
          (fun a => mk_device_acc (acc_total a) (acc_completed a + 1)
                      (acc_repair_times a ++ [hours]) (acc_problems a))
          device_stats)
  else Ok device_stats.

Definition device_result (stats : DeviceAcc) : DeviceStats :=
  let most_common_problem :=
    match acc_problems stats with
    | [] => "Нет данных"
    | first :: rest => fst (max_by_count first rest)
    end in
  let avg_time :=
    match statistics_mean (acc_repair_times stats) with
    | Ok m => float_round2 m
    | Raise _ => 0%Q
    end in
  mk_device_stats (acc_total stats) (acc_completed stats) avg_time
    most_common_problem
    (if 0 <? acc_total stats
     then float_round2
            (float_mul (truediv (inject_Z (acc_completed stats))
                                (inject_Z (acc_total stats))) 100)
     else 0%Q).

Definition calculate_request_statistics_by_device
    (get_database : Exc Database) : list (string * DeviceStats) :=
  try_except
    (db <- get_database ;;
     let all_requests := select_by_device db in
     device_stats <- for_each device_step all_requests [] ;;
     Ok (map (fun '(device_type, stats) => (device_type, device_result stats))
             device_stats))
    [].

(** *** Status distribution *)

(** Count one more row for the group of [k]. *)
Definition bump (g : list (string * Z)) (k : string) : list (string * Z) :=
  dict_upd String.eqb k 0 (fun n => n + 1) g.

(** [GROUP BY key] with [COUNT( * )]: one pair per distinct key, in key
    order. *)
Definition group_count (keys : list string) : list (string * Z) :=
  order_by (fun a b => String.leb (fst a) (fst b)) (fold_left bump keys []).

(** [SELECT status, COUNT( * ) FROM requests GROUP BY status
     ORDER BY COUNT( * ) DESC]. *)
Definition select_status_counts (db : Database) : list (string * Z) :=
  order_by (fun a b => snd b <=? snd a) (group_count (map status (requests db))).

Definition percentage (count total : Z) : Q :=
  float_round2 (float_mul (truediv (inject_Z count) (inject_Z total)) 100).

Definition calculate_status_distribution (get_database : Exc Database)
  : list (string * Z * Q) :=
  try_except
    (db <- get_database ;;
     let total := Z.of_nat (length (requests db)) in
     if total =? 0 then Ok []
     else
       let status_counts := select_status_counts db in
       Ok (map (fun '(status, count) =>
                  (status, count, percentage count total))
               status_counts))
    [].

(** *** Performance metrics *)

Record MasterStats : Type := mk_master_stats {
  ms_completed : Z;
  ms_total : Z;
  ms_efficiency : option Q     (* the key ['efficiency'], once added *)
}.

Inductive PyVal : Type :=
| VInt (n : Z)
| VFloat (x : Q)
| VMasters (d : list (SqlVal * MasterStats)).

(** The result dictionaries of [get_performance_metrics]. *)
Definition Metrics : Type := list (string * PyVal).

Definition metrics_get (key : string) (m : Metrics) : option PyVal :=
  dict_get String.eqb key m.

(** The string an optional [str] argument holds when it is truthy. *)
Definition arg_str (o : option string) : string :=
  match o with
  | Some s => s
  | None => EmptyString
  end.

(** The [WHERE] clause that [start_date] and [end_date] select; TEXT is
    compared byte-wise. *)
Definition date_filter (start_date end_date : option string)
    (created : string) : bool :=
  if truthy_arg start_date && truthy_arg end_date then
    String.leb (arg_str start_date ++ " 00:00:00") created
    && String.leb created (arg_str end_date ++ " 23:59:59")
  else if truthy_arg start_date then
    String.leb (arg_str start_date ++ " 00:00:00") created
  else if truthy_arg end_date then
    String.leb created (arg_str end_date ++ " 23:59:59")
  else true.

(** [SELECT * FROM requests [WHERE created_date ...]]. *)
Definition select_requests (start_date end_date : option string)
    (db : Database) : list (list SqlVal) :=
  map select_star
      (filter (fun r => date_filter start_date end_date (created_date r))
              (requests db)).

Definition requests_per_day (start_date end_date : option string)
    (total_requests : Z) : Exc PyVal :=
  if truthy_arg start_date && truthy_arg end_date then
    start <- strptime (arg_str start_date) Fmt_Ymd ;;
    end_ <- strptime (arg_str end_date) Fmt_Ymd ;;
    let days := days (datetime_sub end_ start) + 1 in
    if days =? 0 then Raise ZeroDivisionError
    else Ok (VFloat (float_round2 (truediv (inject_Z total_requests)
                                           (inject_Z days))))
  else Ok (VInt total_requests).

Definition processing_times (requests : list (list SqlVal)) : Exc (list Q) :=
  for_each (fun processing_times req =>
              if truthy (col req 9) then   (* completion_date *)
                hours <- elapsed_hours (col req 1) (col req 9) ;;
                Ok (processing_times ++ [hours])%list
              else Ok processing_times)
           requests [].

Definition avg_processing_time (processing_times : list Q) : Exc PyVal :=
  match processing_times with
  | [] => Ok (VInt 0)
  | _ => m <- statistics_mean processing_times ;; Ok (VFloat (float_round2 m))
  end.

Definition master_step (master_efficiency : list (SqlVal * MasterStats))
    (req : list SqlVal) : list (SqlVal * MasterStats) :=
  let master := col req 8 in   (* master_name *)
  if truthy master then
    let master_efficiency :=
      match dict_get SqlVal_eqb master master_efficiency with
      | Some _ => master_efficiency
      | None => dict_set SqlVal_eqb master (mk_master_stats 0 0 None)
                         master_efficiency
      end in
    let bump_total st :=
      mk_master_stats (ms_completed st) (ms_total st + 1) (ms_efficiency st) in
    let bump_completed st :=
      mk_master_stats (ms_completed st + 1) (ms_total st) (ms_efficiency st) in
    let master_efficiency :=
      dict_upd SqlVal_eqb master (mk_master_stats 0 0 None) bump_total
               master_efficiency in
    if SqlVal_eqb (col req 5) (SText STATUS_COMPLETED) then   (* status *)
      dict_upd SqlVal_eqb master (mk_master_stats 0 0 None) bump_completed
               master_efficiency
    else master_efficiency
  else master_efficiency.

Definition add_efficiency (stats : MasterStats) : MasterStats :=
  if 0 <? ms_total stats then
    mk_master_stats (ms_completed stats) (ms_total stats)
      (Some (float_round2
               (float_mul (truediv (inject_Z (ms_completed stats))
                                   (inject_Z (ms_total stats))) 100)))
  else stats.

Definition master_efficiency (requests : list (list SqlVal))
  : list (SqlVal * MasterStats) :=
  map (fun '(master, stats) => (master, add_efficiency stats))
      (fold_left master_step requests []).

(** [SELECT SUM(LENGTH(parts_ordered)) FROM comments]: NULL when no comment
    has a non-NULL [parts_ordered]. *)
Definition sum_parts_length (db : Database) : option Z :=
  fold_left (fun acc c =>
               match parts_ordered c, acc with
               | Some p, Some n => Some (n + sql_length p)
               | Some p, None => Some (sql_length p)
               | None, _ => acc
               end)
            (comments db) None.

Definition get_performance_metrics (get_database : Exc Database)
    (start_date end_date : option string) : Metrics :=
  try_except
    (db <- get_database ;;
     let requests := select_requests start_date end_date db in
     match requests with
     | [] =>
         Ok [ ("total_requests", VInt 0);
              ("requests_per_day", VInt 0);
              ("average_processing_time", VInt 0);
              ("master_efficiency", VMasters []);
              ("total_parts_cost", VInt 0) ]
     | _ =>
         let total_requests := Z.of_nat (length requests) in
         requests_per_day <-
           requests_per_day start_date end_date total_requests ;;
         processing_times <- processing_times requests ;;
         avg_processing_time <- avg_processing_time processing_times ;;
         let master_efficiency := master_efficiency requests in
         let total_parts_length :=
           match sum_parts_length db with
           | Some n => if n =? 0 then 0 else n
           | None => 0
           end in
         let total_parts_cost := total_parts_length * 10 in
         Ok [ ("total_requests", VInt total_requests);
              ("requests_per_day", requests_per_day);
              ("average_processing_time_hours", avg_processing_time);
              ("master_efficiency", VMasters master_efficiency);
              ("total_parts_cost", VInt total_parts_cost) ]
     end)
    [].

(** ** Histories of repository operations *)

Inductive Op : Type :=
| Add_request (current_time : string)
    (device_type device_model problem_description client_name client_phone
       : string)
    (deadline : option string)
| Update_request_status (current_time : string) (request_id : Z)
    (new_status : string) (master_name : option string)
| Extend_deadline (current_time : string) (request_id : Z)
    (new_deadline : string)
| Add_comment (current_time : string) (request_id : Z) (comment_text : string)
    (parts_ordered : option string) (author : string).

Definition step (db : Database) (op : Op) : Database :=
  match op with
  | Add_request t dt dm pd cn cp dl => snd (add_request t dt dm pd cn cp dl db)
  | Update_request_status t rid st m => snd (update_request_status t rid st m db)
  | Extend_deadline t rid dl => snd (extend_deadline t rid dl db)
  | Add_comment t rid txt parts au => snd (add_comment t rid txt parts au db)
  end.

Definition run (ops : list Op) (db : Database) : Database :=
  fold_left step ops db.

(** The clock reading an operation takes. *)
Definition clock (op : Op) : string :=
  match op with
  | Add_request t _ _ _ _ _ _ => t
  | Update_request_status t _ _ _ => t
  | Extend_deadline t _ _ => t
  | Add_comment t _ _ _ _ => t
  end.

(** Seconds since the start of the proleptic Gregorian calendar. *)
Definition epoch_seconds (d : datetime) : Z :=
  toordinal d * 86400 + day_seconds d.

Definition timestamp (s : string) : option Z :=
  match strptime s Fmt_Ymd_HMS with
  | Ok d => Some (epoch_seconds d)
  | Raise _ => None
  end.

(** [a <= b] as points in time. *)
Definition timestamp_le (a b : string) : bool :=
  match timestamp a, timestamp b with
  | Some x, Some y => x <=? y
  | _, _ => false
  end.

(** The clock never runs backwards over a history. *)
Fixpoint clock_monotone (prev : option Z) (readings : list string) : bool :=
  match readings with
  | [] => true
  | t :: readings' =>
      match timestamp t with
      | Some z =>
          match prev with
          | Some p => p <=? z
          | None => true
          end && clock_monotone (Some z) readings'
      | None => false
      end
  end.

Definition has_id (db : Database) (request_id : Z) : Prop :=
  exists r, In r (requests db) /\ id r = request_id.

(** ** Reference definitions, after the wording of the specification *)

(** Hours from one point in time to another. *)
Definition hours_between (created completed : datetime) : Q :=
  (inject_Z (epoch_seconds completed - epoch_seconds created) / 3600)%Q.

(** The term a request contributes to the mean: none without a completion
    date. *)
Definition repair_hours (r : Request) : list Q :=
  match completion_date r with
  | Some c =>
      match strptime (created_date r) Fmt_Ymd_HMS, strptime c Fmt_Ymd_HMS with
      | Ok d1, Ok d2 => [hours_between d1 d2]
      | _, _ => []
      end
  | None => []
  end.

(** Mean of (completion_date - created_date) in hours over the requests with
    a completion date, rounded to two decimals; zero when there is none.
    A request whose dates do not parse contributes no term. *)
Definition mean_repair_hours (rs : list Request) : Q :=
  let hours := flat_map repair_hours rs in
  match hours with
  | [] => 0%Q
  | _ => round2 (Qsum hours / inject_Z (Z.of_nat (length hours)))
  end.

(** The arithmetic mean, in exact arithmetic. *)
Definition Qmean (l : list Q) : Q :=
  (Qsum l / inject_Z (Z.of_nat (length l)))%Q.

(** What "[x] rounded to two decimals" is for a float [y]: [y] is the float
    nearest to a number [k / 100] that lies within half a hundredth of [x],
    give or take [slack] for the rounding of the float operations that led
    to the number rounded. *)
Definition rounded_to_2_decimals (slack x y : Q) : Prop :=
  exists k : Z,
    y = binary64 (k # 100)
    /\ (Qabs ((k # 100) - x) <= (1 # 200) + slack)%Q.

(** Every request that has a completion date carries two parsable
    timestamps. *)
Definition well_formed_request (r : Request) : bool :=
  match completion_date r with
  | Some c => is_some (timestamp (created_date r)) && is_some (timestamp c)
  | None => true
  end.

(** The creation and completion dates of a request are ASCII text. *)
Definition ascii_dates (r : Request) : bool :=
  ascii_only (created_date r)
  && match completion_date r with
     | Some c => ascii_only c
     | None => true
     end.

Definition well_formed_timestamps (db : Database) : bool :=
  forallb well_formed_request (requests db).

(** [term] occurs in [s] as a substring. *)
Definition occurs_in (term s : string) : Prop :=
  exists pre post, s = pre ++ term ++ post.






(** The fields [search_requests] looks at. *)
Definition search_fields (r : Request) : list string :=
  [string_of_Z (id r); client_name r; client_phone r; device_model r].



(** The pattern [%term%] has at most 50000 bytes. *)
Definition within_like_limit (term : string) : bool :=
  Z.of_nat (String.length term) + 2 <=? 50000.

(** Number of requests with a given status, and master statistics as the
    specification words them. *)
Definition count_status (st : string) (rs : list Request) : Z :=
  Z.of_nat (length (filter (fun r => String.eqb (status r) st) rs)).

Definition with_master (m : string) (rs : list Request) : list Request :=
  filter (fun r => SqlVal_eqb (sql_opt (master_name r)) (SText m)) rs.

Definition master_stats_spec (m : string) (rs : list Request) : MasterStats :=
  let mine := with_master m rs in
  let total := Z.of_nat (length mine) in
  let completed := count_status STATUS_COMPLETED mine in
  mk_master_stats completed total
    (Some (round2 (inject_Z completed / inject_Z total * 100))).

(** Ten units per character of [parts_ordered], NULL counting for none. *)
Definition parts_cost_spec (cs : list Comment) : Z :=
  10 * fold_right (fun c acc =>
                     match parts_ordered c with
                     | Some p => sql_length p + acc
                     | None => acc
                     end) 0 cs.

(** The row an [update_request_status] call leaves behind, in the words of
    the specification: status and [updated_date] always change,
    [completion_date] is stamped for the two closing states, [master_name]
    is overwritten by a non-empty argument only. *)
Definition updated_row (current_time new_status : string)
    (master : option string) (r : Request) : Request :=
  mk_request (id r) (created_date r) (device_type r) (device_model r)
    (problem_description r) (client_name r) (client_phone r)
    new_status
    (match master with
     | Some m => if String.eqb m EmptyString then master_name r else Some m
     | None => master_name r
     end)
    (deadline r)
    (if String.eqb new_status "Готова к выдаче"
        || String.eqb new_status "Завершена"
     then Some current_time
     else completion_date r)
    (Some current_time).

(** ** Auxiliary notions for the proofs *)

(** The error of one rounding to binary64: at most [unit_roundoff] times
    the magnitude, or [eta] below the normal range. *)
Definition unit_roundoff : Q := 1 # 9007199254740992.

Definition eta : Q := (2 ^ (-1075))%Q.

(** What the three loops of [algorithms.py] make of a list of exact hours:
    each is rounded once, and so are their mean and its hundredth. *)
Definition float_mean_rounded (hours : list Q) : Q :=
  match hours with
  | [] => 0%Q
  | _ => float_round2
           (truediv (Qsum (map binary64 hours))
                    (inject_Z (Z.of_nat (length hours))))
  end.

(** The count a grouping holds for a key (0 when absent) and the sum of
    all its counts. *)
Definition getz (k : string) (g : list (string * Z)) : Z :=
  match dict_get String.eqb k g with
  | Some n => n
  | None => 0
  end.

Definition sumz (g : list (string * Z)) : Z :=
  fold_right (fun p acc => snd p + acc) 0 g.

(** Row-level view of an operation: what it makes of an existing request,
    and the request it inserts. *)
Definition touch (op : Op) (r : Request) : Request :=
  match op with
  | Update_request_status t rid st m =>
      if id r =? rid then updated_row t st m r else r
  | Extend_deadline t rid dl =>
      if id r =? rid
      then mk_request (id r) (created_date r) (device_type r) (device_model r)
             (problem_description r) (client_name r) (client_phone r)
             (status r) (master_name r) (Some dl) (completion_date r) (Some t)
      else r
  | _ => r
  end.

Definition inserted (op : Op) (db : Database) : list Request :=
  match op with
  | Add_request t dt dm pd cn cp dl =>
      [mk_request (requests_seq db + 1) t dt dm pd cn cp STATUS_NEW None dl
                  None (Some t)]
  | _ => []
  end.

(** Identifiers handed out so far are distinct, positive and at most the
    counter. *)
Definition ids_consistent (db : Database) : Prop :=
  0 <= requests_seq db
  /\ (forall r, In r (requests db) -> 1 <= id r <= requests_seq db)
  /\ NoDup (map id (requests db)).

(** Under a clock that never runs backwards, every request was created no
    later than the last reading, and completed no earlier than created. *)
Definition time_ordered (db : Database) (prev : option Z) : Prop :=
  forall r, In r (requests db) ->
    (exists z p, timestamp (created_date r) = Some z /\ prev = Some p /\ z <= p)
    /\ (forall c, completion_date r = Some c ->
                  timestamp_le (created_date r) c = true).

(** The number an SQL aggregate yields, NULL read as zero. *)
Definition optz (o : option Z) : Z :=
  match o with
  | Some n => n
  | None => 0
  end.

(** The components of a tuple of the status distribution. *)
Definition status_of (x : string * Z * Q) : string := fst (fst x).
Definition count_of (x : string * Z * Q) : Z := snd (fst x).

(** ** Sample stores *)

(** One refrigerator request, created 2024-01-01 10:00:00 and completed
    2024-01-02 15:00:00 by the master "Мастер Иванов". *)
Definition fridge_history : list Op :=
  [ Add_request "2024-01-01 10:00:00" "Холодильник" "Samsung RB-100"
      "Не морозит" "Сидоров Сидор" "+79991234567" None;
    Update_request_status "2024-01-02 15:00:00" 1 STATUS_COMPLETED
      (Some "Мастер Иванов") ].

Definition fridge_db : Database := run fridge_history empty_database.

(** A request whose completion date is not a timestamp, and the store that
    holds it next to the refrigerator request. *)
Definition damaged_request : Request :=
  mk_request 2 "2024-01-03 00:00:00" "Плита" "Gefest" "Не греет"
    "Петров Петр" "+7 (000) 000-00-00" STATUS_COMPLETED None None
    (Some "15.01.2024 00:00:00") (Some "2024-01-20 12:00:00").

Definition damaged_db : Database :=
  mk_database (requests fridge_db ++ [damaged_request]) [] 2 0.

(** The refrigerator request after the manager has extended its deadline,
    in the format the entry dialog asks for. *)
Definition deadline_db : Database :=
  run (fridge_history
         ++ [Extend_deadline "2024-01-03 09:00:00" 1 "2024-01-10"])%list
      empty_database.

(** Two requests for the search scenario: one matches on the client name
    only, the other on the device model only. *)
Definition search_history : list Op :=
  [ Add_request "2024-03-01 09:00:00" "Холодильник" "Atlant" "Шумит"
      "Иванов Иван" "+79991234569" None;
    Add_request "2024-03-02 09:00:00" "Плита" "Иванов-3000" "Не греет"
      "Петров Петр" "+79991234570" None ].

Definition search_db : Database := run search_history empty_database.

(** Three requests in three different states. *)
Definition three_status_history : list Op :=
  [ Add_request "2024-04-01 09:00:00" "Плита" "A" "a" "K1" "1" None;
    Add_request "2024-04-01 10:00:00" "Плита" "B" "b" "K2" "2" None;
    Add_request "2024-04-01 11:00:00" "Плита" "C" "c" "K3" "3" None;
    Update_request_status "2024-04-02 09:00:00" 2 "В процессе" None;
    Update_request_status "2024-04-02 10:00:00" 3 STATUS_COMPLETED None;
    Add_comment "2024-04-02 11:00:00" 3 "замена" (Some "ТЭН, реле") "master_1";
    Add_comment "2024-04-02 12:00:00" 3 "готово" None "master_1" ].

Definition three_status_db : Database :=
  run three_status_history empty_database.

(** The third request of that store, as the history leaves it. *)
Definition closed_request : Request :=
  mk_request 3 "2024-04-01 11:00:00" "Плита" "C" "c" "K3" "3"
    STATUS_COMPLETED None None (Some "2024-04-02 10:00:00")
    (Some "2024-04-02 10:00:00").

(** A repair of ninety seconds: 0.025 hours, a tie between two
    hundredths in exact arithmetic. *)
Definition ninety_seconds_history : list Op :=
  [ Add_request "2024-01-01 10:00:00" "Плита" "Gefest" "Не греет"
      "Петров Петр" "+79991234570" None;
    Update_request_status "2024-01-01 10:01:30" 1 STATUS_COMPLETED None ].

Definition ninety_seconds_db : Database :=
  run ninety_seconds_history empty_database.

(** A request that is completed after the clock of the machine has been set
    back by a day. *)
Definition backward_clock_history : list Op :=
  [ Add_request "2024-01-02 10:00:00" "Плита" "Gefest" "Не греет"
      "Петров Петр" "+79991234570" None;
    Update_request_status "2024-01-01 10:00:00" 1 STATUS_COMPLETED None ].

Definition backward_clock_request : Request :=
  mk_request 1 "2024-01-02 10:00:00" "Плита" "Gefest" "Не греет"
    "Петров Петр" "+79991234570" STATUS_COMPLETED None None
    (Some "2024-01-01 10:00:00") (Some "2024-01-01 10:00:00").

(** * Further operations *)

(** ** Deletion ([ServiceCenterApp._delete_request])

    [DELETE FROM requests WHERE id = ?].  Foreign keys are enforced on the
    connection and [comments.request_id] is declared [ON DELETE CASCADE], so
    the comments of the request go with it.  [AUTOINCREMENT] keeps its
    counter. *)
Definition delete_request (rid : Z) (db : Database) : Database :=
  mk_database
    (filter (fun r => negb (id r =? rid)) (requests db))
    (filter (fun c => negb (request_id c =? rid)) (comments db))
    (requests_seq db) (comments_seq db).

(** Histories that also delete. *)
Inductive Action : Type :=
| Repo (op : Op)
| Delete_request (rid : Z).

Definition act (db : Database) (a : Action) : Database :=
  match a with
  | Repo op => step db op
  | Delete_request rid => delete_request rid db
  end.

Definition perform (acts : list Action) (db : Database) : Database :=
  fold_left act acts db.

Definition reading (a : Action) : list string :=
  match a with
  | Repo op => [clock op]
  | Delete_request _ => []
  end.

(** Every comment belongs to a stored request and carries an identifier of
    its own, handed out by the counter of the comments table. *)
Definition comments_consistent (db : Database) : Prop :=
  0 <= comments_seq db
  /\ (forall c, In c (comments db) ->
        has_id db (request_id c) /\ 1 <= comment_id c <= comments_seq db)
  /\ NoDup (map comment_id (comments db)).

(** The requests a status filter lets through: all of them when the filter
    is [None] or empty. *)
Definition passes_filter (status_filter : option string) (r : Request)
  : bool :=
  negb (truthy_arg status_filter)
  || String.eqb (status r) (arg_str status_filter).

(** The row an [extend_deadline] call leaves behind. *)
Definition extended_row (current_time new_deadline : string) (r : Request)
  : Request :=
  mk_request (id r) (created_date r) (device_type r) (device_model r)
    (problem_description r) (client_name r) (client_phone r) (status r)
    (master_name r) (Some new_deadline) (completion_date r)
    (Some current_time).

(** ** [datetime.strftime]

    [strftime("%Y-%m-%d %H:%M:%S")] with zero-padded fields, as every
    platform prints the years from 1000 on. *)
Definition digit_char (n : Z) : ascii := ascii_of_N (Z.to_N (48 + n)).

Definition pad2 (n : Z) : string :=
  String (digit_char (n / 10)) (String (digit_char (n mod 10)) EmptyString).

Definition pad4 (n : Z) : string := pad2 (n / 100) ++ pad2 (n mod 100).

Definition strftime (d : datetime) : string :=
  pad4 (year d) ++ "-" ++ pad2 (month d) ++ "-" ++ pad2 (day d) ++ " "
  ++ pad2 (hour d) ++ ":" ++ pad2 (minute d) ++ ":" ++ pad2 (second d).

(** Every stored creation and completion date parses. *)
Definition stamps_parse (db : Database) : Prop :=
  forall r, In r (requests db) ->
    is_some (timestamp (created_date r)) = true
    /\ forall c, completion_date r = Some c -> is_some (timestamp c) = true.

(** ** Reference notions for the statistics by device *)

(** The requests of one device type, and the ones among them that the
    statistics count as completed. *)
Definition of_device (k : string) (rs : list Request) : list Request :=
  filter (fun r => String.eqb (device_type r) k) rs.

Definition counts_as_completed (r : Request) : bool :=
  String.eqb (status r) STATUS_COMPLETED
  && truthy (sql_opt (completion_date r)).

(** How often a problem description occurs among the requests of a device
    type. *)
Definition count_problem (k p : string) (rs : list Request) : Z :=
  Z.of_nat
    (length (filter (fun r => String.eqb (device_type r) k
                              && String.eqb p (problem_description r)) rs)).

(** The accumulator a device type has in the dictionary of the loop. *)
Definition acc_for (k : string) (d : list (string * DeviceAcc)) : DeviceAcc :=
  match dict_get String.eqb k d with
  | Some a => a
  | None => mk_device_acc 0 0 [] []
  end.

(** ** Reference notions for the performance metrics *)

(** The requests a date window selects. *)
Definition in_window (start_date end_date : option string) (db : Database)
  : list Request :=
  filter (fun r => date_filter start_date end_date (created_date r))
         (requests db).

(** The rows of a master, and the ones among them whose sixth column
    ([client_name]) holds the label of the completed state. *)
Definition rows_of_master (k : SqlVal) (rows : list (list SqlVal))
  : list (list SqlVal) :=
  filter (fun req => truthy (col req 8) && SqlVal_eqb (col req 8) k) rows.

Definition labelled_completed (req : list SqlVal) : bool :=
  SqlVal_eqb (col req 5) (SText STATUS_COMPLETED).

(** The statistics a master has in the dictionary of the loop. *)
Definition ms_for (k : SqlVal) (d : list (SqlVal * MasterStats))
  : MasterStats :=
  match dict_get SqlVal_eqb k d with
  | Some a => a
  | None => mk_master_stats 0 0 None
  end.

(** ** [Database.get_request_statistics]

    The dictionary the method returns has four fixed keys and is rendered as
    a record.  SQLite's [julianday] is a parameter: the text it accepts as a
    date and the day number it gives are the engine's business. *)

Record RequestStatistics : Type := mk_request_statistics {
  stats_total_requests : Z;                       (* "total_requests" *)
  stats_status_counts : list (string * Z);        (* "status_counts" *)
  stats_average_completion_hours : PyVal;  (* "average_completion_hours" *)
  stats_device_statistics : list (string * Z)     (* "device_statistics" *)
}.

(** [dict(cursor.fetchall())] on rows of two columns. *)
Definition dict_of_rows (rows : list (string * Z)) : list (string * Z) :=
  fold_left (fun d '(k, v) => dict_set String.eqb k v d) rows [].

(** [AVG]: the mean of the non-NULL values, NULL when there is none. *)
Definition sql_avg (values : list (option Q)) : option Q :=
  let present := flat_map (fun v => match v with
                                    | Some x => [x]
                                    | None => []
                                    end) values in
  match present with
  | [] => None
  | _ => Some (Qsum present / inject_Z (Z.of_nat (length present)))%Q
  end.

Section RequestStatistics.
Variable julianday : string -> option Q.

(** [(julianday(completion_date) - julianday(created_date)) * 24]. *)
Definition completion_hours (created completed : string) : option Q :=
  match julianday completed, julianday created with
  | Some a, Some b => Some ((a - b) * 24)%Q
  | _, _ => None
  end.

Definition get_request_statistics (db : Database) : RequestStatistics :=
  let total_requests := Z.of_nat (length (requests db)) in
  let status_counts :=
    dict_of_rows (group_count (map status (requests db))) in
  let avg :=
    sql_avg
      (flat_map (fun r => match completion_date r with
                          | Some c => [completion_hours (created_date r) c]
                          | None => []
                          end) (requests db)) in
  let average_completion_hours :=
    match avg with
    | Some a => if Qeq_bool a 0 then VInt 0 else VFloat (float_round2 a)
    | None => VInt 0
    end in
  let device_statistics :=
    dict_of_rows (group_count (map device_type (requests db))) in
  mk_request_statistics total_requests status_counts
    average_completion_hours device_statistics.
End RequestStatistics.

(** ** Phone numbers ([utils.py])

    [re.sub] with a negated character class deletes every character outside
    the class.  As in [strptime], [\d] is read on the ASCII range; the
    properties below are stated for ASCII input. *)

(** [re.sub(r'[^...]', '', s)]: keep the characters of the class. *)
Fixpoint keep (class : ascii -> bool) (s : string) : string :=
  match s with
  | EmptyString => EmptyString
  | String c s' => if class c then String c (keep class s') else keep class s'
  end.

Fixpoint all_digits (s : string) : bool :=
  match s with
  | EmptyString => true
  | String c s' => is_digit c && all_digits s'
  end.

(** [\d{10}$] *)
Definition ten_digits (s : string) : bool :=
  (String.length s =? 10)%nat && all_digits s.

Definition validate_phone_number (phone : string) : bool :=
  let cleaned := keep (fun c => is_digit c || Ascii.eqb c "+") phone in
  (* ^(\+7|7|8)\d{10}$ *)
  match cleaned with
  | String "+" (String "7" rest) => ten_digits rest
  | String "7" rest => ten_digits rest
  | String "8" rest => ten_digits rest
  | _ => false
  end.

(** The two prefix rewrites of [format_phone_number]; the second can never
    fire, the plus signs being gone already. *)
Definition national_prefix (cleaned : string) : string :=
  match cleaned with
  | String "8" rest => String "7" rest                 (* startswith('8') *)
  | String "+" (String "7" rest) => String "7" rest    (* startswith('+7') *)
  | _ => cleaned
  end.

Definition format_phone_number (phone : string) : string :=
  let cleaned := keep is_digit phone in
  let cleaned := national_prefix cleaned in
  if (String.length cleaned =? 11)%nat
     && match cleaned with String "7" _ => true | _ => false end
  then "+7 (" ++ substring 1 3 cleaned ++ ") " ++ substring 4 3 cleaned
       ++ "-" ++ substring 7 2 cleaned
       ++ "-" ++ substring 9 (String.length cleaned - 9) cleaned
  else phone.

(** The shape [+7 (ddd) ddd-dd-dd]. *)
Definition canonical_phone (c1 c2 c3 c4 c5 c6 c7 c8 c9 c10 : ascii) : string :=
  "+7 (" ++ String c1 (String c2 (String c3 EmptyString)) ++ ") "
  ++ String c4 (String c5 (String c6 EmptyString)) ++ "-"
  ++ String c7 (String c8 EmptyString) ++ "-"
  ++ String c9 (String c10 EmptyString).

(** ** Reference notions for the average processing time

    The term a request contributes to the mean that
    [get_performance_metrics] forms: the hours from its creation to its
    deadline (column 9), when the deadline is not empty. *)
Definition deadline_hours (r : Request) : list Q :=
  match deadline r with
  | Some dl =>
      if String.eqb dl EmptyString then []
      else
        match strptime (created_date r) Fmt_Ymd_HMS,
              strptime dl Fmt_Ymd_HMS with
        | Ok d1, Ok d2 => [hours_between d1 d2]
        | _, _ => []
        end
  | None => []
  end.

Definition mean_to_deadline (rs : list Request) : PyVal :=
  match flat_map deadline_hours rs with
  | [] => VInt 0
  | hours => VFloat (float_mean_rounded hours)
  end.

(** ** Sample histories with deletions *)

(** One request for a stove whose model name holds an underscore. *)
Definition stove_request : Request :=
  mk_request 1 "2024-05-01 09:00:00" "Плита" "Gefest_3200" "Не греет"
    "Петров Петр" "+7 (999) 000-00-00" STATUS_NEW None None None
    (Some "2024-05-01 09:00:00").

Definition stove_actions : list Action :=
  [ Repo (Add_request "2024-05-01 09:00:00" "Плита" "Gefest_3200" "Не греет"
            "Петров Петр" "+7 (999) 000-00-00" None) ].

(** The three requests of [three_status_history]; then the second one is
    deleted and a refrigerator comes in. *)
Definition workshop_actions : list Action :=
  (map Repo three_status_history
   ++ [ Delete_request 2;
        Repo (Add_request "2024-04-03 09:00:00" "Холодильник" "D" "d" "K4"
                "4" None) ])%list.

(** The refrigerator request as [fridge_history] leaves it, and as it is
    after the manager has extended its deadline ([deadline_db]). *)
Definition fridge_request : Request :=
  mk_request 1 "2024-01-01 10:00:00" "Холодильник" "Samsung RB-100"
    "Не морозит" "Сидоров Сидор" "+79991234567" STATUS_COMPLETED
    (Some "Мастер Иванов") None (Some "2024-01-02 15:00:00")
    (Some "2024-01-02 15:00:00").

Definition fridge_with_deadline : Request :=
  extended_row "2024-01-03 09:00:00" "2024-01-10" fridge_request.

(** A request that comes in with a deadline one day ahead, written as a
    timestamp. *)
Definition planned_db : Database :=
  run [ Add_request "2024-01-01 10:00:00" "Плита" "Gefest" "Не греет"
          "Петров Петр" "+7 (999) 000-00-00" (Some "2024-01-02 10:00:00") ]
      empty_database.

(** * Properties *)

(** ** Sanity checks of the model on concrete inputs *)

Example strptime_sample :
  strptime "2024-01-02 15:00:00" Fmt_Ymd_HMS = Ok (mk_datetime 2024 1 2 15 0 0).
Proof. reflexivity. Qed.

Example strptime_lenient :
  strptime "2024-1-2  7:05:9" Fmt_Ymd_HMS = Ok (mk_datetime 2024 1 2 7 5 9).
Proof. reflexivity. Qed.

Example strptime_bad_day :
  strptime "2023-02-29 10:00:00" Fmt_Ymd_HMS = Raise ValueError.
Proof. reflexivity. Qed.

Example strptime_trailing :
  strptime "2024-01-01x" Fmt_Ymd = Raise ValueError.
Proof. reflexivity. Qed.

Example round2_samples :
  round2 (1 # 8) = (3 # 25) /\ round2 (100 # 3) = (3333 # 100) /\
  round2 29 = 29%Q /\ round2 (-(1 # 8)) = (-(3) # 25).
Proof. vm_compute. repeat split; reflexivity. Qed.

Example like_samples :
  like "%Atlant%" "Atlant" = true /\ like "%atl%" "My ATLANT 2" = true /\
  like "%Алекс%" "Кузнецов Алексей" = true /\ like "%алекс%" "Алексей" = false /\
  like "%_%" EmptyString = false /\ like "%_%" "x" = true /\
  like "%%%" EmptyString = true /\
  like "%12%" (string_of_Z 3120) = true.
Proof. vm_compute. repeat split; reflexivity. Qed.

(** The operands of [LIKE] end at their first NUL. *)
Example sql_like_samples :
  sql_like "%bc%" (String "a" (String zero "bc")) = false
  /\ sql_like ("%" ++ String zero "zzz" ++ "%") "Atlant" = true
  /\ sql_like "%tla%" "Atlant" = true.
Proof. vm_compute. repeat split; reflexivity. Qed.

(** Floats: 0.1 and 0.03 as binary64 numbers; [90 / 3600] lies above 0.025,
    so that its hundredth is 0.03; [23 / 160 * 100] lies below 14.375, so
    that its hundredth is 14.37. *)
Example binary64_samples :
  binary64 (1 # 10) = (3602879701896397 # 36028797018963968)%Q
  /\ binary64 (3 # 100) = (1080863910568919 # 36028797018963968)%Q
  /\ binary64 29 = 29%Q
  /\ binary64 (- (1 # 10)) = (- (3602879701896397) # 36028797018963968)%Q
  /\ truediv 90 3600 = (3602879701896397 # 144115188075855872)%Q
  /\ float_round2 (truediv 90 3600) = binary64 (3 # 100)
  /\ round2 (90 # 3600) = (1 # 50)%Q
  /\ float_mul (truediv 23 160) 100
     = (8092405580431359 # 562949953421312)%Q
  /\ percentage 23 160 = binary64 (1437 # 100)
  /\ round2 ((23 # 160) * 100)%Q = (719 # 50)%Q.
Proof. vm_compute. repeat split; reflexivity. Qed.

Example elapsed_hours_sample :
  elapsed_hours (SText "2024-01-01 10:00:00") (SText "2024-01-02 15:00:00")
  = Ok 29%Q.
Proof. vm_compute. reflexivity. Qed.

(** ** Generic facts: the error monad *)

Lemma bind_Ok_inv {A B : Type} (m : Exc A) (k : A -> Exc B) (b : B) :
  bind m k = Ok b -> exists a, m = Ok a /\ k a = Ok b.
Proof.
  destruct m as [a | e]; simpl; intros H; [exists a; auto | discriminate].
Qed.

(** A loop raises as soon as one element makes its body raise. *)
Lemma for_each_raises {A S : Type} (body : S -> A -> Exc S) (x : A) :
  (forall acc, exists e, body acc x = Raise e) ->
  forall l acc, In x l -> exists e, for_each body l acc = Raise e.
Proof.
  intros Hx l. induction l as [| y l IH]; intros acc Hin; [destruct Hin |].
  simpl. destruct (body acc y) as [acc' | e] eqn:Hy; simpl.
  - destruct Hin as [-> | Hin]; [| now apply IH].
    destruct (Hx acc) as [e He]. congruence.
  - now exists e.
Qed.

(** ** Generic facts: [ORDER BY] *)

Section OrderBy.
Context {A : Type} (le : A -> A -> bool).

Lemma insert_by_perm (x : A) (l : list A) :
  Permutation (insert_by le x l) (x :: l).
Proof.
  induction l as [| y l IH]; simpl; [reflexivity |].
  destruct (le x y); [reflexivity |].
  rewrite IH. apply perm_swap.
Qed.

Lemma order_by_perm (l : list A) : Permutation (order_by le l) l.
Proof.
  induction l as [| x l IH]; simpl; [reflexivity |].
  rewrite insert_by_perm. now constructor.
Qed.

Lemma order_by_In (l : list A) (x : A) : In x (order_by le l) <-> In x l.
Proof.
  split; apply Permutation_in;
    [apply order_by_perm | apply Permutation_sym, order_by_perm].
Qed.

Hypothesis le_total : forall a b, le a b = true \/ le b a = true.

Lemma insert_by_sorted (x : A) (l : list A) :
  Sorted (fun a b => le a b = true) l ->
  Sorted (fun a b => le a b = true) (insert_by le x l).
Proof.
  induction l as [| y l IH]; simpl; intros Hs.
  - repeat constructor.
  - destruct (le x y) eqn:Hxy.
    + constructor; [assumption | constructor; exact Hxy].
    + inversion Hs as [| ? ? Hs' Hhd]; subst.
      constructor; [now apply IH |].
      destruct l as [| z l]; simpl.
      * constructor. destruct (le_total x y) as [H | H]; congruence.
      * destruct (le x z).
        -- constructor. destruct (le_total x y) as [H | H]; congruence.
        -- inversion Hhd; subst. now constructor.
Qed.

Lemma order_by_sorted (l : list A) :
  Sorted (fun a b => le a b = true) (order_by le l).
Proof.
  induction l as [| x l IH]; simpl; [constructor |].
  now apply insert_by_sorted.
Qed.
End OrderBy.

(** ** Rounding *)

Open Scope Q_scope.

Lemma round_half_even_error (x : Q) :
  - (1 # 2) <= inject_Z (round_half_even x) - x <= 1 # 2.
Proof.
  unfold round_half_even.
  pose proof (Qfloor_le x) as Hlo.
  pose proof (Qlt_floor x) as Hhi.
  rewrite inject_Z_plus in Hhi. change (inject_Z 1) with 1 in Hhi.
  destruct (Qcompare_spec (x - inject_Z (Qfloor x)) (1 # 2)) as [He | Hl | Hg].
  - destruct (Z.even (Qfloor x));
      [| rewrite inject_Z_plus; change (inject_Z 1) with 1]; lra.
  - lra.
  - rewrite inject_Z_plus. change (inject_Z 1) with 1. lra.
Qed.

Lemma round_half_even_nonneg (x : Q) :
  0 <= x -> (0 <= round_half_even x)%Z.
Proof.
  intros Hx.
  assert (Hf : (0 <= Qfloor x)%Z).
  { change 0%Z with (Qfloor 0). now apply Qfloor_resp_le. }
  unfold round_half_even.
  destruct (Qcompare _ _); [destruct (Z.even _) | |]; lia.
Qed.

Lemma round2_error (x : Q) : Qabs (round2 x - x) <= 1 # 200.
Proof.
  unfold round2. rewrite Qred_correct, Qmake_Qdiv.
  change (inject_Z (Z.pos 100)) with 100.
  pose proof (round_half_even_error (x * 100)) as [Hlo Hhi].
  set (n := inject_Z (round_half_even (x * 100))) in *.
  assert (Hn : n / 100 == n * (1 # 100)) by field.
  rewrite Hn. apply Qabs_case; intros _; lra.
Qed.

Lemma round2_nonneg (x : Q) : 0 <= x -> 0 <= round2 x.
Proof.
  intros Hx. unfold round2. rewrite Qred_correct.
  assert (Hr : (0 <= round_half_even (x * 100))%Z)
    by (apply round_half_even_nonneg; lra).
  unfold Qle. simpl. lia.
Qed.

Lemma round2_comp (x y : Q) : x == y -> round2 x = round2 y.
Proof.
  intros H. unfold round2. apply Qred_complete.
  assert (Hr : round_half_even (x * 100) = round_half_even (y * 100)).
  { unfold round_half_even.
    assert (Hxy : x * 100 == y * 100) by now rewrite H.
    rewrite (Qfloor_comp _ _ Hxy).
    assert (Hc : (x * 100 - inject_Z (Qfloor (y * 100)) ?= 1 # 2)
                 = (y * 100 - inject_Z (Qfloor (y * 100)) ?= 1 # 2)).
    { apply Qcompare_comp; [now rewrite Hxy | reflexivity]. }
    now rewrite Hc. }
  now rewrite Hr.
Qed.

Lemma Qsum_nonneg (l : list Q) : (forall x, In x l -> 0 <= x) -> 0 <= Qsum l.
Proof.
  induction l as [| x l IH]; intros H; cbn [Qsum fold_right].
  - apply Qle_refl.
  - fold (Qsum l).
    assert (0 <= x) by (apply H; now left).
    assert (0 <= Qsum l) by (apply IH; intros y Hy; apply H; now right).
    lra.
Qed.

Lemma Qsum_perm (l l' : list Q) : Permutation l l' -> Qsum l == Qsum l'.
Proof.
  induction 1 as [| x l l' _ IH | x y l | l l' l'' _ IH1 _ IH2];
    cbn [Qsum fold_right] in *.
  - reflexivity.
  - fold (Qsum l) (Qsum l') in *. now rewrite IH.
  - ring.
  - now rewrite IH1.
Qed.

(** ** Floats *)

Lemma pow2_pos (e : Z) : 0 < 2 ^ e.
Proof. apply Qpower_0_lt. reflexivity. Qed.

Lemma pow2_Z (n : Z) : (0 <= n)%Z -> 2 ^ n == inject_Z (2 ^ n).
Proof. intros H. now rewrite Zpower_Qpower. Qed.

(** The quotient of two positive integers between two powers of two. *)
Lemma Qmake_bounds (n : Z) (d : positive) :
  (0 < n)%Z ->
  2 ^ (Z.log2 n - (Z.log2 (Z.pos d) + 1)) <= n # d
  /\ n # d < 2 ^ (Z.log2 n + 1 - Z.log2 (Z.pos d)).
Proof.
  intros Hn.
  destruct (Z.log2_spec n Hn) as [Hn1 Hn2].
  destruct (Z.log2_spec (Z.pos d) (Pos2Z.is_pos d)) as [Hd1 Hd2].
  pose proof (Z.log2_nonneg n) as Hln.
  pose proof (Z.log2_nonneg (Z.pos d)) as Hld.
  rewrite <- Z.add_1_r in Hn2, Hd2.
  rewrite !Qpower_minus by discriminate.
  rewrite !pow2_Z by lia.
  set (A := (2 ^ Z.log2 n)%Z) in *.
  set (A' := (2 ^ (Z.log2 n + 1))%Z) in *.
  set (B := (2 ^ Z.log2 (Z.pos d))%Z) in *.
  set (B' := (2 ^ (Z.log2 (Z.pos d) + 1))%Z) in *.
  assert (HB : (0 < B)%Z) by (subst B; apply Z.pow_pos_nonneg; lia).
  assert (HB' : (0 < B')%Z) by lia.
  rewrite (Qmake_Qdiv n d).
  assert (Hd : 0 < inject_Z (Z.pos d)) by (rewrite <- (Zlt_Qlt 0); lia).
  assert (HqB : 0 < inject_Z B) by (rewrite <- (Zlt_Qlt 0); lia).
  assert (HqB' : 0 < inject_Z B') by (rewrite <- (Zlt_Qlt 0); lia).
  split.
  - apply Qle_shift_div_l; [exact Hd |].
    assert (H : inject_Z A / inject_Z B' * inject_Z (Z.pos d)
                == inject_Z (A * Z.pos d) / inject_Z B').
    { rewrite inject_Z_mult. field. lra. }
    rewrite H. apply Qle_shift_div_r; [exact HqB' |].
    rewrite <- inject_Z_mult, <- Zle_Qle. nia.
  - apply Qlt_shift_div_r; [exact Hd |].
    assert (H : inject_Z A' / inject_Z B * inject_Z (Z.pos d)
                == inject_Z (A' * Z.pos d) / inject_Z B).
    { rewrite inject_Z_mult. field. lra. }
    rewrite H. apply Qlt_shift_div_l; [exact HqB |].
    rewrite <- inject_Z_mult, <- Zlt_Qlt. nia.
Qed.

(** [ilog2] is the position of the leading bit. *)
Lemma ilog2_spec (a : Q) :
  0 < a -> 2 ^ ilog2 a <= a /\ a < 2 ^ (ilog2 a + 1).
Proof.
  intros Ha. unfold ilog2.
  destruct a as [n d]. cbn [Qnum Qden].
  assert (Hn : (0 < n)%Z).
  { unfold Qlt in Ha. simpl in Ha. lia. }
  destruct (Qmake_bounds n d Hn) as [Hlo Hhi].
  set (e := (Z.log2 n - Z.log2 (Z.pos d))%Z) in *.
  replace (Z.log2 n - (Z.log2 (Z.pos d) + 1))%Z with (e - 1)%Z in Hlo
    by (subst e; lia).
  replace (Z.log2 n + 1 - Z.log2 (Z.pos d))%Z with (e + 1)%Z in Hhi
    by (subst e; lia).
  destruct (Qle_bool (2 ^ e) (n # d)) eqn:E.
  - apply Qle_bool_iff in E. now split.
  - split; [exact Hlo |].
    replace (e - 1 + 1)%Z with e by lia.
    apply Qnot_le_lt. intros H. apply Qle_bool_iff in H. congruence.
Qed.

Lemma eta_pos : 0 < eta.
Proof. reflexivity. Qed.

Lemma eta_small : eta <= 1 # 1000000000000000000000000000000.
Proof. vm_compute. discriminate. Qed.

(** One rounding is off by half a unit in the last place at most. *)
Lemma binary64_pos_error (a : Q) :
  0 < a ->
  Qabs (binary64_pos a - a) <= a * unit_roundoff + eta.
Proof.
  intros Ha. unfold binary64_pos.
  destruct (ilog2_spec a Ha) as [Hlo _].
  set (e := Z.max (ilog2 a - 52) (-1074)).
  pose proof (pow2_pos e) as HP.
  pose proof (round_half_even_error (a / 2 ^ e)) as [H1 H2].
  set (m := inject_Z (round_half_even (a / 2 ^ e))) in *.
  assert (Hbound : 2 ^ e * (1 # 2) <= a * unit_roundoff + eta).
  { destruct (Z.max_spec (ilog2 a - 52) (-1074)) as [[_ He] | [_ He]];
      fold e in He; rewrite He.
    - assert (Heta : 2 ^ (-1074) * (1 # 2) == eta) by reflexivity.
      rewrite Heta.
      assert (0 <= a * unit_roundoff).
      { apply Qmult_le_0_compat; [lra | discriminate]. }
      lra.
    - rewrite Qpower_minus by discriminate.
      assert (H52 : 2 ^ 52 == 4503599627370496) by reflexivity.
      rewrite H52.
      pose proof eta_pos.
      unfold unit_roundoff.
      assert (Hq : 2 ^ ilog2 a / 4503599627370496 * (1 # 2)
                   == 2 ^ ilog2 a * (1 # 9007199254740992)) by field.
      rewrite Hq.
      assert (2 ^ ilog2 a * (1 # 9007199254740992)
              <= a * (1 # 9007199254740992)).
      { apply Qmult_le_compat_r; [exact Hlo | discriminate]. }
      lra. }
  assert (Hm : m * 2 ^ e - a == (m - a / 2 ^ e) * 2 ^ e).
  { field. lra. }
  rewrite Hm, Qabs_Qmult, (Qabs_pos (2 ^ e)) by lra.
  assert (Habs : Qabs (m - a / 2 ^ e) <= 1 # 2)
    by (apply Qabs_case; intros _; lra).
  eapply Qle_trans; [| exact Hbound].
  rewrite (Qmult_comm (2 ^ e)).
  apply Qmult_le_compat_r; [exact Habs | lra].
Qed.

Lemma binary64_pos_nonneg (a : Q) : 0 < a -> 0 <= binary64_pos a.
Proof.
  intros Ha. unfold binary64_pos.
  set (e := Z.max (ilog2 a - 52) (-1074)).
  pose proof (pow2_pos e) as HP.
  apply Qmult_le_0_compat; [| lra].
  rewrite <- (Zle_Qle 0). apply round_half_even_nonneg.
  apply Qle_shift_div_l; [exact HP | lra].
Qed.

Lemma binary64_error (q : Q) :
  Qabs (binary64 q - q) <= Qabs q * unit_roundoff + eta.
Proof.
  unfold binary64.
  destruct (Qcompare_spec q 0) as [H0 | Hneg | Hpos].
  - rewrite H0. vm_compute. discriminate.
  - assert (Hq : 0 < Qred (- q)) by (rewrite Qred_correct; lra).
    pose proof (binary64_pos_error _ Hq) as H.
    rewrite Qred_correct. rewrite (Qred_correct (- q)) in H at 2 3.
    rewrite (Qabs_neg q) by lra.
    assert (Heq : - binary64_pos (Qred (- q)) - q
                  == - (binary64_pos (Qred (- q)) - - q)) by ring.
    now rewrite Heq, Qabs_opp.
  - assert (Hq : 0 < Qred q) by (rewrite Qred_correct; lra).
    pose proof (binary64_pos_error _ Hq) as H.
    rewrite Qred_correct. rewrite (Qred_correct q) in H at 2 3.
    now rewrite (Qabs_pos q) by lra.
Qed.

(** The error of one rounding, for a number of magnitude [bound] at
    most. *)
Lemma binary64_close (q bound : Q) :
  Qabs q <= bound ->
  - (bound * unit_roundoff + eta) <= binary64 q - q
  /\ binary64 q - q <= bound * unit_roundoff + eta.
Proof.
  intros Hq. pose proof (binary64_error q) as H.
  assert (Hu : Qabs q * unit_roundoff <= bound * unit_roundoff).
  { apply Qmult_le_compat_r; [exact Hq | discriminate]. }
  assert (HA : 0 <= Qabs q * unit_roundoff).
  { apply Qmult_le_0_compat; [apply Qabs_nonneg | discriminate]. }
  pose proof eta_pos as Heta.
  set (A := Qabs q * unit_roundoff) in *.
  set (B := bound * unit_roundoff) in *.
  set (x := binary64 q - q) in *.
  revert H. apply (Qabs_case x); intros Hs H; lra.
Qed.

Lemma binary64_nonneg (q : Q) : 0 <= q -> 0 <= binary64 q.
Proof.
  intros Hq. unfold binary64.
  destruct (Qcompare_spec q 0) as [H0 | Hneg | Hpos]; [lra | lra |].
  rewrite Qred_correct. apply binary64_pos_nonneg.
  rewrite Qred_correct. exact Hpos.
Qed.

Lemma binary64_comp (x y : Q) : x == y -> binary64 x = binary64 y.
Proof.
  intros H. unfold binary64.
  rewrite (Qcompare_comp x y H 0 0 (Qeq_refl 0)).
  rewrite (Qred_complete x y H).
  assert (H' : - x == - y) by now rewrite H.
  now rewrite (Qred_complete _ _ H').
Qed.

(** [round(x, 2)] is the float of a number of two decimals within half a
    hundredth of [x]. *)
Lemma float_round2_spec (x : Q) :
  float_round2 x = binary64 (round_half_even (x * 100) # 100)
  /\ Qabs ((round_half_even (x * 100) # 100) - x) <= 1 # 200.
Proof.
  split.
  - unfold float_round2, round2. apply binary64_comp, Qred_correct.
  - pose proof (round2_error x) as H. unfold round2 in H.
    now rewrite Qred_correct in H.
Qed.

Lemma float_round2_nonneg (x : Q) : 0 <= x -> 0 <= float_round2 x.
Proof. intros H. now apply binary64_nonneg, round2_nonneg. Qed.

Lemma rounded_float_round2 (slack x y : Q) :
  Qabs (y - x) <= slack ->
  rounded_to_2_decimals slack x (float_round2 y).
Proof.
  intros H. destruct (float_round2_spec y) as [Heq Herr].
  exists (round_half_even (y * 100)). split; [exact Heq |].
  set (k := round_half_even (y * 100) # 100) in *.
  assert (Hk : k - x == (k - y) + (y - x)) by ring.
  rewrite Hk. eapply Qle_trans; [apply Qabs_triangle |]. lra.
Qed.

(** A share in percent, as the program computes it. *)
Lemma percentage_spec (count total : Z) :
  (0 <= count <= total)%Z -> (0 < total)%Z ->
  rounded_to_2_decimals (1 # 1000000000000)
    (inject_Z count / inject_Z total * 100) (percentage count total).
Proof.
  intros Hc Ht. unfold percentage. apply rounded_float_round2.
  unfold float_mul, truediv.
  set (x := inject_Z count / inject_Z total).
  assert (Htq : 0 < inject_Z total) by (rewrite <- (Zlt_Qlt 0); lia).
  assert (Hx : 0 <= x <= 1).
  { subst x. split.
    - apply Qle_shift_div_l; [exact Htq |]. rewrite Qmult_0_l.
      rewrite <- (Zle_Qle 0). lia.
    - apply Qle_shift_div_r; [exact Htq |]. rewrite Qmult_1_l.
      rewrite <- Zle_Qle. lia. }
  assert (Hax : Qabs x <= 1) by (rewrite Qabs_pos; lra).
  destruct (binary64_close x 1 Hax) as [H1 H2].
  pose proof (binary64_nonneg x (proj1 Hx)) as H0.
  set (x1 := binary64 x) in *.
  pose proof eta_small as Heta. pose proof eta_pos as Heta0.
  unfold unit_roundoff in *.
  assert (Hay : Qabs (x1 * 100) <= 101) by (rewrite Qabs_pos; lra).
  destruct (binary64_close (x1 * 100) 101 Hay) as [H3 H4].
  unfold unit_roundoff in *.
  set (y1 := binary64 (x1 * 100)) in *.
  apply Qabs_Qle_condition. lra.
Qed.

Lemma Qsum_binary64_error (l : list Q) (bound : Q) :
  (forall x, In x l -> Qabs x <= bound) ->
  Qabs (Qsum (map binary64 l) - Qsum l)
  <= inject_Z (Z.of_nat (length l)) * (bound * unit_roundoff + eta)
  /\ Qabs (Qsum l) <= inject_Z (Z.of_nat (length l)) * bound.
Proof.
  induction l as [| x l IH]; intros H.
  - split; vm_compute; discriminate.
  - cbn [map Qsum fold_right length].
    fold (Qsum (map binary64 l)) (Qsum l).
    rewrite Nat2Z.inj_succ, <- Z.add_1_r, inject_Z_plus.
    change (inject_Z 1) with 1.
    destruct IH as [IH1 IH2]; [intros y Hy; apply H; now right |].
    assert (Hx : Qabs x <= bound) by (apply H; now left).
    destruct (binary64_close x bound Hx) as [H1 H2].
    set (n := inject_Z (Z.of_nat (length l))) in *.
    set (d := bound * unit_roundoff + eta) in *.
    split.
    + assert (Heq : binary64 x + Qsum (map binary64 l) - (x + Qsum l)
                    == (binary64 x - x) + (Qsum (map binary64 l) - Qsum l))
        by ring.
      rewrite Heq. eapply Qle_trans; [apply Qabs_triangle |].
      assert (Qabs (binary64 x - x) <= d)
        by (apply Qabs_case; intros _; lra).
      lra.
    + eapply Qle_trans; [apply Qabs_triangle |]. lra.
Qed.

Lemma Qabs_div_nat (x bound : Q) (n : nat) :
  (0 < n)%nat ->
  Qabs x <= inject_Z (Z.of_nat n) * bound ->
  Qabs (x / inject_Z (Z.of_nat n)) <= bound.
Proof.
  intros Hn H.
  assert (Hq : 0 < inject_Z (Z.of_nat n)) by (rewrite <- (Zlt_Qlt 0); lia).
  unfold Qdiv. rewrite Qabs_Qmult, (Qabs_pos (/ _)).
  - apply Qle_shift_div_r; [exact Hq |]. now rewrite Qmult_comm.
  - apply Qlt_le_weak, Qinv_lt_0_compat, Hq.
Qed.

(** The mean of hours below [10^8], each rounded once, rounded and then
    rounded to two decimals: within half a hundredth, and a ten-millionth
    for the roundings, of the exact mean. *)
Lemma float_mean_rounded_spec (hours : list Q) :
  hours <> [] ->
  (forall h, In h hours -> Qabs h <= 100000000) ->
  rounded_to_2_decimals (1 # 10000000) (Qmean hours)
    (float_mean_rounded hours).
Proof.
  intros Hne Hb.
  assert (Hlen : (0 < length hours)%nat)
    by (destruct hours; [contradiction | simpl; lia]).
  unfold float_mean_rounded. destruct hours as [| h0 hs]; [contradiction |].
  set (hours := h0 :: hs) in *.
  apply rounded_float_round2. unfold truediv, Qmean.
  destruct (Qsum_binary64_error hours 100000000 Hb) as [Herr Hsum].
  set (n := inject_Z (Z.of_nat (length hours))) in *.
  set (d := 100000000 * unit_roundoff + eta) in *.
  assert (Hn : 0 < n) by (subst n; rewrite <- (Zlt_Qlt 0); lia).
  assert (Hd : Qabs (Qsum (map binary64 hours) / n - Qsum hours / n) <= d).
  { assert (Heq : Qsum (map binary64 hours) / n - Qsum hours / n
                  == (Qsum (map binary64 hours) - Qsum hours) / n)
      by (field; lra).
    rewrite Heq. now apply Qabs_div_nat. }
  assert (Hm : Qabs (Qsum hours / n) <= 100000000)
    by now apply Qabs_div_nat.
  pose proof eta_small as Heta. pose proof eta_pos as Heta0.
  assert (Hd1 : d <= 1 # 10000000)
    by (subst d; unfold unit_roundoff; lra).
  apply Qabs_Qle_condition in Hd, Hm.
  assert (Hmf : Qabs (Qsum (map binary64 hours) / n) <= 100000001)
    by (apply Qabs_Qle_condition; lra).
  destruct (binary64_close _ 100000001 Hmf) as [H1 H2].
  unfold unit_roundoff in *. subst d.
  apply Qabs_Qle_condition. lra.
Qed.

Lemma float_mean_rounded_nonneg (hours : list Q) :
  (forall h, In h hours -> 0 <= h) -> 0 <= float_mean_rounded hours.
Proof.
  intros H. unfold float_mean_rounded.
  destruct hours as [| h0 hs]; [apply Qle_refl |].
  apply float_round2_nonneg, binary64_nonneg.
  unfold Qdiv. apply Qmult_le_0_compat.
  - apply Qsum_nonneg. intros x Hx. apply in_map_iff in Hx as [h [<- Hh]].
    now apply binary64_nonneg, H.
  - apply Qinv_le_0_compat. rewrite <- (Zle_Qle 0). lia.
Qed.

Close Scope Q_scope.

(** ** Elapsed time *)

Lemma total_seconds_sub (a b : datetime) :
  total_seconds (datetime_sub a b)
  = inject_Z (epoch_seconds a - epoch_seconds b).
Proof.
  unfold total_seconds, datetime_sub, make_timedelta, epoch_seconds; simpl.
  f_equal.
  pose proof (Z.div_mod (day_seconds a - day_seconds b) 86400) as H.
  lia.
Qed.

Lemma timestamp_Some (s : string) (z : Z) :
  timestamp s = Some z <->
  exists d, strptime s Fmt_Ymd_HMS = Ok d /\ epoch_seconds d = z.
Proof.
  unfold timestamp. destruct (strptime s Fmt_Ymd_HMS) as [d | e]; split.
  - intros [= <-]. now exists d.
  - now intros [d' [[= <-] <-]].
  - discriminate.
  - now intros [d' [? _]].
Qed.

Lemma is_some_timestamp (s : string) :
  is_some (timestamp s) = true -> exists d, strptime s Fmt_Ymd_HMS = Ok d.
Proof.
  unfold timestamp. destruct (strptime s Fmt_Ymd_HMS) as [d | e]; simpl.
  - now exists d.
  - discriminate.
Qed.

Lemma strptime_valid (s : string) (fmt : Format) (d : datetime) :
  strptime s fmt = Ok d -> valid_datetime d = true.
Proof.
  unfold strptime. destruct (parse_datetime fmt s) as [d' |]; [| discriminate].
  destruct (valid_datetime d') eqn:E; [| discriminate].
  now intros [= <-].
Qed.

Lemma days_before_month_bounds (y m : Z) :
  1 <= m <= 12 -> 0 <= days_before_month y m <= 335.
Proof.
  intros H.
  assert (Hm : m = 1 \/ m = 2 \/ m = 3 \/ m = 4 \/ m = 5 \/ m = 6 \/ m = 7
               \/ m = 8 \/ m = 9 \/ m = 10 \/ m = 11 \/ m = 12) by lia.
  unfold days_before_month, days_in_month.
  destruct (is_leap y);
    repeat (destruct Hm as [-> | Hm]); try subst m;
    vm_compute; split; discriminate.
Qed.

(** A valid point in time lies within the 3652059 days of the calendar,
    which have fewer than 316 * 10^9 seconds. *)
Lemma epoch_seconds_bounds (d : datetime) :
  valid_datetime d = true -> 0 <= epoch_seconds d <= 316000000000.
Proof.
  unfold valid_datetime. intros H.
  repeat (apply andb_prop in H as [H ?]).
  repeat match goal with
         | H : (_ <=? _) = true |- _ => apply Z.leb_le in H
         end.
  pose proof (days_before_month_bounds (year d) (month d)) as Hm.
  assert (Hdim : days_in_month (year d) (month d) <= 31).
  { unfold days_in_month.
    destruct (month d =? 2); [destruct (is_leap (year d)); lia |].
    destruct ((month d =? 4) || (month d =? 6) || (month d =? 9)
              || (month d =? 11)); lia. }
  unfold epoch_seconds, toordinal, days_before_year, day_seconds.
  cbv zeta. Z.div_mod_to_equations. lia.
Qed.

Open Scope Q_scope.

Lemma hours_between_bound (d1 d2 : datetime) :
  valid_datetime d1 = true -> valid_datetime d2 = true ->
  Qabs (hours_between d1 d2) <= 100000000.
Proof.
  intros H1 H2.
  apply epoch_seconds_bounds in H1, H2.
  unfold hours_between.
  set (z := (epoch_seconds d2 - epoch_seconds d1)%Z).
  assert (Hz : (- 316000000000 <= z <= 316000000000)%Z) by (subst z; lia).
  assert (Hq : - (316000000000 # 1) <= inject_Z z <= 316000000000 # 1).
  { split; [change (- (316000000000 # 1)) with (inject_Z (- 316000000000)) |
            change (316000000000 # 1) with (inject_Z 316000000000)];
      rewrite <- Zle_Qle; lia. }
  assert (Hdiv : inject_Z z / 3600 == inject_Z z * (1 # 3600)) by field.
  rewrite Hdiv. apply Qabs_Qle_condition. lra.
Qed.

Close Scope Q_scope.

Lemma repair_hours_bound (r : Request) (h : Q) :
  In h (repair_hours r) -> (Qabs h <= 100000000)%Q.
Proof.
  unfold repair_hours. destruct (completion_date r) as [c |]; [| intros []].
  destruct (strptime (created_date r) Fmt_Ymd_HMS) as [d1 |] eqn:E1;
    [| intros []].
  destruct (strptime c Fmt_Ymd_HMS) as [d2 |] eqn:E2; [| intros []].
  intros [<- | []].
  apply hours_between_bound; eapply strptime_valid; eassumption.
Qed.

(** On a well-formed completed request the loop body yields the hours of
    the reference definition, rounded once. *)
Lemma elapsed_hours_well_formed (r : Request) (c : string) :
  completion_date r = Some c ->
  well_formed_request r = true ->
  exists h, elapsed_hours (SText (created_date r)) (SText c)
            = Ok (binary64 h)
            /\ repair_hours r = [h].
Proof.
  unfold well_formed_request, repair_hours, elapsed_hours. intros -> Hwf.
  apply andb_prop in Hwf as [H1 H2].
  apply is_some_timestamp in H1 as [d1 H1].
  apply is_some_timestamp in H2 as [d2 H2].
  simpl. rewrite H1, H2. simpl. rewrite total_seconds_sub.
  eexists. split; reflexivity.
Qed.

Lemma repair_loop_well_formed (rs : list Request) (acc : list Q) :
  forallb well_formed_request rs = true ->
  for_each repair_loop_body
    (map (fun r => (SText (created_date r), sql_opt (completion_date r)))
         (filter (fun r => is_some (completion_date r)) rs)) acc
  = Ok (acc ++ map binary64 (flat_map repair_hours rs))%list.
Proof.
  revert acc. induction rs as [| r rs IH]; intros acc Hwf.
  - simpl. now rewrite app_nil_r.
  - simpl in Hwf. apply andb_prop in Hwf as [Hr Hrs].
    cbn [filter flat_map].
    destruct (completion_date r) as [c |] eqn:Hc.
    + destruct (elapsed_hours_well_formed r c Hc Hr) as [h [Hh Hrep]].
      cbn [is_some map for_each repair_loop_body].
      rewrite Hc. cbn [sql_opt]. rewrite Hh, Hrep. cbn [bind app map].
      rewrite IH by assumption. now rewrite <- app_assoc.
    + cbn [is_some]. unfold repair_hours at 1. rewrite Hc.
      now apply IH.
Qed.

Lemma repair_hours_length (rs : list Request) :
  forallb well_formed_request rs = true ->
  length (flat_map repair_hours rs)
  = length (filter (fun r => is_some (completion_date r)) rs).
Proof.
  induction rs as [| r rs IH]; simpl; intros Hwf; [reflexivity |].
  apply andb_prop in Hwf as [Hr Hrs].
  rewrite length_app, IH by assumption.
  destruct (completion_date r) as [c |] eqn:Hc; simpl.
  - destruct (elapsed_hours_well_formed r c Hc Hr) as [h [_ ->]]. reflexivity.
  - unfold repair_hours. now rewrite Hc.
Qed.

(** With well-formed timestamps the routine does not raise: it rounds the
    hours of each completed request, their mean, and the hundredth of the
    mean. *)
Lemma average_repair_time_value (db : Database) :
  well_formed_timestamps db = true ->
  calculate_average_repair_time (Ok db)
  = float_mean_rounded (flat_map repair_hours (requests db)).
Proof.
  unfold well_formed_timestamps. intros Hwf.
  unfold calculate_average_repair_time, float_mean_rounded, select_completed.
  cbn [bind try_except].
  pose proof (repair_loop_well_formed (requests db) [] Hwf) as Hloop.
  pose proof (repair_hours_length (requests db) Hwf) as Hlen.
  destruct (map (fun r => (SText (created_date r),
                           sql_opt (completion_date r)))
                (filter (fun r => is_some (completion_date r))
                        (requests db))) as [| row rows] eqn:Hrows.
  - apply (f_equal (@length _)) in Hrows. rewrite length_map in Hrows.
    rewrite <- Hlen in Hrows.
    destruct (flat_map repair_hours (requests db)); [reflexivity |].
    discriminate.
  - rewrite Hloop. cbn [app bind].
    destruct (flat_map repair_hours (requests db)) as [| h hs] eqn:Hh.
    + apply (f_equal (@length _)) in Hrows. rewrite length_map in Hrows.
      rewrite <- Hlen in Hrows. discriminate.
    + cbn [map statistics_mean bind try_except length].
      now rewrite length_map.
Qed.

(** C6.  With well-formed timestamps, [calculate_average_repair_time]
    returns the mean of the hours between creation and completion over
    exactly the requests that have a completion date (one term per such
    request), rounded to two decimals: the result is the float of a number
    of two decimals that lies within half a hundredth of the mean, give or
    take a ten-millionth for the rounding of the float operations.  It
    returns 0.0 when no request has a completion date.  The request created
    2024-01-01 10:00:00 and completed 2024-01-02 15:00:00 gives 29.0; a
    repair of ninety seconds, 0.025 hours, gives 0.03. *)
Theorem average_repair_time_is_rounded_mean (db : Database)
    (Hwf : well_formed_timestamps db = true) :
  let hours := flat_map repair_hours (requests db) in
  let result := calculate_average_repair_time (Ok db) in
  length hours
  = length (filter (fun r => is_some (completion_date r)) (requests db))
  /\ (hours <> [] ->
      rounded_to_2_decimals (1 # 10000000) (Qmean hours) result)
  /\ ((forall r, In r (requests db) -> completion_date r = None) ->
      result = 0%Q)
  /\ calculate_average_repair_time (Ok fridge_db) = 29%Q
  /\ calculate_average_repair_time (Ok ninety_seconds_db)
     = binary64 (3 # 100).
Proof.
  cbv zeta. rewrite (average_repair_time_value db Hwf).
  split; [now apply repair_hours_length |].
  split.
  { intros Hne. apply float_mean_rounded_spec; [exact Hne |].
    intros h Hh. apply in_flat_map in Hh as [r [_ Hh]].
    now apply (repair_hours_bound r). }
  split; [| split; vm_compute; reflexivity].
  intros Hnone.
  assert (Hnil : flat_map repair_hours (requests db) = []).
  { clear Hwf. induction (requests db) as [| r rs IH]; [reflexivity |].
    cbn [flat_map]. rewrite IH by (intros r' Hr'; apply Hnone; now right).
    unfold repair_hours. now rewrite (Hnone r (or_introl eq_refl)). }
  now rewrite Hnil.
Qed.

(** ** Dictionaries *)

Section DictFacts.
Context {K V : Type} (eqb : K -> K -> bool).
Hypothesis eqb_eq : forall a b, eqb a b = true <-> a = b.

Lemma dict_eqb_refl (a : K) : eqb a a = true.
Proof. now apply eqb_eq. Qed.

Lemma dict_eqb_neq (a b : K) : a <> b -> eqb a b = false.
Proof.
  intros H. destruct (eqb a b) eqn:E; [| reflexivity].
  now apply eqb_eq in E.
Qed.

Lemma dict_get_None (k : K) (d : list (K * V)) :
  dict_get eqb k d = None <-> ~ In k (map fst d).
Proof.
  induction d as [| [k' v] d IH]; simpl; [tauto |].
  destruct (eqb k k') eqn:E.
  - apply eqb_eq in E. subst. split; [discriminate | tauto].
  - rewrite IH. split; [| tauto].
    intros Hn [-> | Hin]; [| tauto].
    now rewrite dict_eqb_refl in E.
Qed.

Lemma dict_get_In (k : K) (v : V) (d : list (K * V)) :
  dict_get eqb k d = Some v -> In (k, v) d.
Proof.
  induction d as [| [k' v'] d IH]; simpl; [discriminate |].
  destruct (eqb k k') eqn:E.
  - apply eqb_eq in E. intros [= ->]. subst. now left.
  - intros H. right. now apply IH.
Qed.

Lemma In_dict_get (k : K) (v : V) (d : list (K * V)) :
  NoDup (map fst d) -> In (k, v) d -> dict_get eqb k d = Some v.
Proof.
  induction d as [| [k' v'] d IH]; simpl; [tauto |].
  intros Hnd [[= -> ->] | Hin].
  - now rewrite dict_eqb_refl.
  - inversion Hnd as [| ? ? Hnotin Hnd']; subst.
    destruct (eqb k k') eqn:E.
    + apply eqb_eq in E. subst. exfalso. apply Hnotin.
      change k' with (fst (k', v)). now apply in_map.
    + now apply IH.
Qed.

Lemma dict_set_keys (k : K) (v : V) (d : list (K * V)) :
  map fst (dict_set eqb k v d)
  = match dict_get eqb k d with
    | Some _ => map fst d
    | None => (map fst d ++ [k])%list
    end.
Proof.
  induction d as [| [k' v'] d IH]; simpl; [reflexivity |].
  destruct (eqb k k') eqn:E; simpl; [reflexivity |].
  rewrite IH. now destruct (dict_get eqb k d).
Qed.

Lemma dict_get_set (k k' : K) (v : V) (d : list (K * V)) :
  dict_get eqb k' (dict_set eqb k v d)
  = if eqb k' k then Some v else dict_get eqb k' d.
Proof.
  induction d as [| [k0 v0] d IH]; simpl.
  - now destruct (eqb k' k).
  - destruct (eqb k k0) eqn:E; simpl.
    + apply eqb_eq in E. subst k0. now destruct (eqb k' k).
    + rewrite IH. destruct (eqb k' k0) eqn:E'; [| reflexivity].
      apply eqb_eq in E'. subst k0.
      destruct (eqb k' k) eqn:E''; [| reflexivity].
      apply eqb_eq in E''. subst. now rewrite dict_eqb_refl in E.
Qed.

Lemma dict_set_NoDup (k : K) (v : V) (d : list (K * V)) :
  NoDup (map fst d) -> NoDup (map fst (dict_set eqb k v d)).
Proof.
  intros Hnd. rewrite dict_set_keys.
  destruct (dict_get eqb k d) eqn:E; [assumption |].
  apply dict_get_None in E.
  apply NoDup_app; [assumption | repeat constructor; simpl; tauto |].
  intros a Ha [<- | []]. contradiction.
Qed.
End DictFacts.

(** ** Grouping and counting *)

Lemma bump_eq (g : list (string * Z)) (k : string) :
  bump g k = dict_set String.eqb k (getz k g + 1) g.
Proof.
  unfold bump, dict_upd, getz. now destruct (dict_get String.eqb k g).
Qed.

Lemma dict_set_sum (k : string) (v : Z) (g : list (string * Z)) :
  sumz (dict_set String.eqb k v g) = sumz g - getz k g + v.
Proof.
  unfold getz. induction g as [| [k' n] g IH]; simpl; [lia |].
  destruct (String.eqb k k'); simpl; lia.
Qed.

Lemma tally_sum (keys : list string) (g : list (string * Z)) :
  sumz (fold_left bump keys g) = sumz g + Z.of_nat (length keys).
Proof.
  revert g. induction keys as [| k keys IH]; intros g; simpl fold_left.
  - simpl. lia.
  - rewrite IH, bump_eq, dict_set_sum. simpl length. lia.
Qed.

Lemma tally_NoDup (keys : list string) (g : list (string * Z)) :
  NoDup (map fst g) -> NoDup (map fst (fold_left bump keys g)).
Proof.
  revert g. induction keys as [| k keys IH]; intros g Hnd; simpl; [assumption |].
  apply IH. rewrite bump_eq. apply dict_set_NoDup; [apply String.eqb_eq | assumption].
Qed.

Lemma tally_get (keys : list string) (g : list (string * Z)) (k : string) :
  getz k (fold_left bump keys g)
  = getz k g + Z.of_nat (length (filter (String.eqb k) keys)).
Proof.
  revert g. induction keys as [| k' keys IH]; intros g; simpl fold_left.
  - simpl. lia.
  - rewrite IH, bump_eq. unfold getz at 1.
    rewrite (dict_get_set String.eqb String.eqb_eq).
    simpl filter. destruct (String.eqb k k') eqn:E.
    + apply String.eqb_eq in E. subst k'. simpl length. lia.
    + fold (getz k g). lia.
Qed.

Lemma tally_keys (keys : list string) (g : list (string * Z)) (k : string) :
  In k (map fst (fold_left bump keys g)) <-> In k (map fst g) \/ In k keys.
Proof.
  revert g. induction keys as [| k' keys IH]; intros g; simpl fold_left.
  - simpl. tauto.
  - rewrite IH, bump_eq, (dict_set_keys String.eqb). simpl In.
    destruct (dict_get String.eqb k' g) eqn:E.
    + apply (dict_get_In String.eqb String.eqb_eq) in E.
      apply (in_map fst) in E. simpl in E.
      split; [tauto |]. intros [H | [<- | H]]; tauto.
    + rewrite in_app_iff. simpl. tauto.
Qed.

(** ** Status distribution *)

Lemma sumz_perm (g g' : list (string * Z)) :
  Permutation g g' -> sumz g = sumz g'.
Proof.
  induction 1 as [| x l l' _ IH | x y l | l l' l'' _ IH1 _ IH2]; simpl; lia.
Qed.

Lemma count_status_map (st : string) (rs : list Request) :
  Z.of_nat (length (filter (String.eqb st) (map status rs)))
  = count_status st rs.
Proof.
  unfold count_status. f_equal.
  induction rs as [| r rs IH]; simpl; [reflexivity |].
  rewrite (String.eqb_sym st (status r)).
  destruct (String.eqb (status r) st); simpl; now rewrite IH.
Qed.

Lemma select_status_counts_perm (db : Database) :
  Permutation (select_status_counts db)
              (fold_left bump (map status (requests db)) []).
Proof.
  unfold select_status_counts, group_count.
  now rewrite !order_by_perm.
Qed.

Lemma Sorted_map {A B : Type} (R : A -> A -> Prop) (R' : B -> B -> Prop)
    (f : A -> B) (l : list A) :
  (forall a b, R a b -> R' (f a) (f b)) ->
  Sorted R l -> Sorted R' (map f l).
Proof.
  intros Hf. induction 1 as [| a l Hs IH Hhd]; simpl; constructor; auto.
  destruct Hhd; simpl; constructor; auto.
Qed.

Open Scope Q_scope.

Lemma Qsum_map_error {A : Type} (f g : A -> Q) (e : Q) (l : list A) :
  (forall x, In x l -> Qabs (f x - g x) <= e) ->
  Qabs (Qsum (map f l) - Qsum (map g l))
  <= inject_Z (Z.of_nat (length l)) * e.
Proof.
  induction l as [| x l IH]; intros H.
  - simpl. vm_compute. discriminate.
  - cbn [map Qsum fold_right length].
    fold (Qsum (map f l)) (Qsum (map g l)).
    rewrite Nat2Z.inj_succ, <- Z.add_1_r, inject_Z_plus.
    change (inject_Z 1) with 1.
    assert (Hx : Qabs (f x - g x) <= e) by (apply H; now left).
    assert (Hl : Qabs (Qsum (map f l) - Qsum (map g l))
                 <= inject_Z (Z.of_nat (length l)) * e)
      by (apply IH; intros y Hy; apply H; now right).
    assert (Heq : f x + Qsum (map f l) - (g x + Qsum (map g l))
                  == (f x - g x) + (Qsum (map f l) - Qsum (map g l)))
      by ring.
    rewrite Heq.
    eapply Qle_trans; [apply Qabs_triangle |]. lra.
Qed.

(** A percentage is off the exact share by half a hundredth, and the
    roundings, at most. *)
Lemma percentage_error (count total : Z) :
  (0 <= count <= total)%Z -> (0 < total)%Z ->
  Qabs (percentage count total - inject_Z count / inject_Z total * 100)
  <= (1 # 200) + (1 # 100000000000).
Proof.
  intros Hc Ht.
  destruct (percentage_spec count total Hc Ht) as [k [-> Hk]].
  set (x := inject_Z count / inject_Z total * 100) in *.
  assert (Hx : 0 <= x <= 100).
  { subst x.
    assert (Htq : 0 < inject_Z total) by (rewrite <- (Zlt_Qlt 0); lia).
    assert (Hq : 0 <= inject_Z count / inject_Z total <= 1).
    { split.
      - apply Qle_shift_div_l; [exact Htq |]. rewrite Qmult_0_l.
        rewrite <- (Zle_Qle 0). lia.
      - apply Qle_shift_div_r; [exact Htq |]. rewrite Qmult_1_l.
        rewrite <- Zle_Qle. lia. }
    lra. }
  apply Qabs_Qle_condition in Hk.
  assert (Hak : Qabs (k # 100) <= 101) by (apply Qabs_Qle_condition; lra).
  destruct (binary64_close (k # 100) 101 Hak) as [H1 H2].
  pose proof eta_small as Heta. pose proof eta_pos as Heta0.
  unfold unit_roundoff in *.
  apply Qabs_Qle_condition. lra.
Qed.

Lemma Qsum_shares (total : Z) (g : list (string * Z)) :
  ~ inject_Z total == 0 ->
  Qsum (map (fun p => inject_Z (snd p) / inject_Z total * 100) g)
  == inject_Z (sumz g) / inject_Z total * 100.
Proof.
  intros Ht. induction g as [| [k n] g IH].
  - simpl. field. exact Ht.
  - cbn [map Qsum fold_right sumz snd].
    fold (Qsum (map (fun p => inject_Z (snd p) / inject_Z total * 100) g)).
    fold (sumz g). rewrite IH, inject_Z_plus. field. exact Ht.
Qed.
Close Scope Q_scope.

(** C7.  On a non-empty table [calculate_status_distribution] returns one
    tuple per distinct status, holding the number of requests in that status
    and that number as a percentage of the total rounded to two decimals:
    the float of a number of two decimals within half a hundredth of the
    exact share, give or take [10^-12] for the rounding of the division and
    the multiplication.  The tuples come in descending order of count, and
    the percentages add up to 100 within half a hundredth (and [10^-11])
    per tuple.  On an empty table it returns the empty list.  For 23
    requests out of 160, a share of 14.375, the percentage is 14.37. *)
Theorem status_distribution_correct (db : Database) :
  let result := calculate_status_distribution (Ok db) in
  let total := Z.of_nat (length (requests db)) in
  (requests db = [] -> result = [])
  /\ (requests db <> [] ->
      NoDup (map status_of result)
      /\ (forall st, In st (map status_of result)
                     <-> exists r, In r (requests db) /\ status r = st)
      /\ (forall st n p, In (st, n, p) result ->
            n = count_status st (requests db)
            /\ rounded_to_2_decimals (1 # 1000000000000)
                 (inject_Z n / inject_Z total * 100) p)
      /\ Sorted (fun a b => count_of b <= count_of a) result
      /\ (Qabs (Qsum (map snd result) - 100)
          <= inject_Z (Z.of_nat (length result))
             * ((1 # 200) + (1 # 100000000000)))%Q)
  /\ percentage 23 160 = binary64 (1437 # 100).
Proof.
  intros result total. subst result.
  unfold calculate_status_distribution. cbn [bind try_except]. fold total.
  split; [| split; [| vm_compute; reflexivity]].
  - intros Hnil. subst total. now rewrite Hnil.
  - intros Hne.
    assert (Htot : 0 < total).
    { subst total. destruct (requests db); [contradiction | simpl; lia]. }
    destruct (Z.eqb_spec total 0) as [? | _]; [lia |].
    cbn [try_except].
    pose proof (select_status_counts_perm db) as Hperm.
    set (groups := select_status_counts db) in *.
    set (tally := fold_left bump (map status (requests db)) []) in *.
    assert (Hnd : NoDup (map fst tally)).
    { apply tally_NoDup. constructor. }
    assert (Hkeys : map status_of
                      (map (fun '(status, count) =>
                              (status, count, percentage count total)) groups)
                    = map fst groups).
    { rewrite map_map. apply map_ext. now intros [st c]. }
    assert (Hcount : forall st c, In (st, c) groups ->
                       c = count_status st (requests db)).
    { intros st c Hin.
      apply (Permutation_in _ Hperm) in Hin.
      apply (In_dict_get String.eqb String.eqb_eq _ _ _ Hnd) in Hin.
      pose proof (tally_get (map status (requests db)) [] st) as Hget.
      fold tally in Hget. unfold getz in Hget. rewrite Hin in Hget.
      simpl in Hget. now rewrite count_status_map in Hget. }
    assert (Hrange : forall st c, In (st, c) groups -> 0 <= c <= total).
    { intros st c Hin. rewrite (Hcount st c Hin). unfold count_status.
      pose proof (filter_length_le (fun r => String.eqb (status r) st)
                    (requests db)).
      subst total. lia. }
    split; [| split; [| split; [| split]]].
    + rewrite Hkeys.
      eapply Permutation_NoDup; [| exact Hnd].
      apply Permutation_map, Permutation_sym, Hperm.
    + intros st. rewrite Hkeys.
      assert (Hin : In st (map fst groups) <-> In st (map fst tally)).
      { split; apply Permutation_in; apply Permutation_map;
          [exact Hperm | apply Permutation_sym, Hperm]. }
      rewrite Hin. subst tally. rewrite tally_keys. simpl.
      rewrite in_map_iff. split.
      * intros [[] | [r [Hr Hin']]]. now exists r.
      * intros [r [Hin' Hr]]. right. now exists r.
    + intros st n p Hin. apply in_map_iff in Hin as [[st' c] [Heq Hin]].
      injection Heq as -> -> <-.
      split; [now apply Hcount |].
      apply percentage_spec; [now apply (Hrange st) | exact Htot].
    + apply Sorted_map with (R := fun a b => (snd b <=? snd a) = true).
      * intros [st1 c1] [st2 c2] H. unfold count_of. simpl in *. lia.
      * apply order_by_sorted. intros a b. lia.
    + rewrite map_map, length_map.
      assert (Hsum : sumz groups = total).
      { rewrite (sumz_perm _ _ Hperm). subst tally. rewrite tally_sum.
        rewrite length_map. simpl. reflexivity. }
      assert (Hmap : map (fun x => snd (let '(status, count) := x in
                                        (status, count, percentage count total)))
                         groups
                     = map (fun p => percentage (snd p) total) groups).
      { apply map_ext. now intros [st c]. }
      rewrite Hmap.
      assert (Hshare :
        (Qsum (map (fun p => inject_Z (snd p) / inject_Z total * 100) groups)
         == 100)%Q).
      { rewrite Qsum_shares.
        - rewrite Hsum. field. intros H. unfold Qeq in H. simpl in H. lia.
        - intros H. unfold Qeq in H. simpl in H. lia. }
      rewrite <- Hshare.
      apply Qsum_map_error. intros [st c] Hin. cbn [snd].
      apply percentage_error; [now apply (Hrange st) | exact Htot].
Qed.

(** ** Status updates *)

Lemma rowcount_positive (rid : Z) (rs : list Request) :
  (0 <? Z.of_nat (length (filter (fun r => id r =? rid) rs))) = true
  <-> exists r, In r rs /\ id r = rid.
Proof.
  induction rs as [| r rs IH]; simpl.
  - split; [discriminate | now intros [r [[] _]]].
  - destruct (Z.eqb_spec (id r) rid) as [E | E]; simpl.
    + split; [| intros _; apply Z.ltb_lt; lia]. intros _. exists r. auto.
    + rewrite IH. split.
      * intros [r' [Hin Hid]]. exists r'. auto.
      * intros [r' [[<- | Hin] Hid]]; [contradiction |]. now exists r'.
Qed.

(** The two closing states, by their labels. *)
Lemma is_closing_status_spec (st : string) :
  is_closing_status st = true
  <-> st = "Готова к выдаче" \/ st = "Завершена".
Proof.
  unfold is_closing_status, STATUS_READY, STATUS_COMPLETED.
  now rewrite orb_true_iff, !String.eqb_eq.
Qed.

Lemma update_fields_row (t st : string) (m : option string) (r : Request) :
  fold_left assign
    (let fields := [Set_status st; Set_updated_date t] in
     let fields :=
       if is_closing_status st
       then (fields ++ [Set_completion_date t])%list else fields in
     match m with
     | Some m' => if truthy_arg m then (fields ++ [Set_master_name m'])%list
                  else fields
     | None => fields
     end) r
  = updated_row t st m r.
Proof.
  unfold updated_row.
  change (String.eqb st "Готова к выдаче" || String.eqb st "Завершена")
    with (is_closing_status st).
  destruct (is_closing_status st), m as [m' |]; simpl;
    try (unfold truthy_arg; cbn [sql_opt truthy];
         destruct (String.eqb m' EmptyString)); reflexivity.
Qed.

Lemma update_request_status_rows (t : string) (rid : Z) (st : string)
    (m : option string) (db : Database) :
  requests (snd (update_request_status t rid st m db))
  = map (fun r => if id r =? rid then updated_row t st m r else r)
        (requests db).
Proof.
  unfold update_request_status, sql_update. cbn [snd requests].
  apply map_ext. intros r. destruct (id r =? rid); [| reflexivity].
  apply update_fields_row.
Qed.

Lemma update_request_status_rest (t : string) (rid : Z) (st : string)
    (m : option string) (db : Database) :
  comments (snd (update_request_status t rid st m db)) = comments db
  /\ requests_seq (snd (update_request_status t rid st m db))
     = requests_seq db
  /\ comments_seq (snd (update_request_status t rid st m db))
     = comments_seq db.
Proof. unfold update_request_status, sql_update. cbn. auto. Qed.

(** C8.  For an identifier in the range of SQLite's integers,
    [update_request_status] reports [True] exactly when a request with the
    given id exists, and does not raise.  The requests with that id get
    the new status and [updated_date = now]; their [completion_date] is set
    to now when the new status is "Готова к выдаче" or "Завершена",
    whatever it held before, and is left as it was for every other status;
    their [master_name] is overwritten by a non-empty argument and left as
    it was when the argument is missing or empty; nothing else changes in
    them.  Every other request, the comments and both counters are left
    alone. *)
Theorem update_request_status_spec (current_time : string) (request_id : Z)
    (new_status : string) (master : option string) (db : Database)
    (Hid : - 9223372036854775808 <= request_id <= 9223372036854775807) :
  let result := update_request_status current_time request_id new_status
                  master db in
  (fst result = true <-> has_id db request_id)
  /\ requests (snd result)
     = map (fun r => if id r =? request_id
                     then updated_row current_time new_status master r
                     else r)
           (requests db)
  /\ (forall r,
        let r' := updated_row current_time new_status master r in
        status r' = new_status
        /\ updated_date r' = Some current_time
        /\ (new_status = "Готова к выдаче" \/ new_status = "Завершена" ->
            completion_date r' = Some current_time)
        /\ (new_status <> "Готова к выдаче" -> new_status <> "Завершена" ->
            completion_date r' = completion_date r)
        /\ (forall m, master = Some m -> m <> EmptyString ->
                      master_name r' = Some m)
        /\ (master = None \/ master = Some EmptyString ->
            master_name r' = master_name r)
        /\ (id r', created_date r', device_type r', device_model r',
            problem_description r', client_name r', client_phone r',
            deadline r')
           = (id r, created_date r, device_type r, device_model r,
              problem_description r, client_name r, client_phone r,
              deadline r))
  /\ comments (snd result) = comments db
  /\ requests_seq (snd result) = requests_seq db
  /\ comments_seq (snd result) = comments_seq db.
Proof.
  cbv zeta. split.
  - unfold update_request_status, sql_update. cbn [fst].
    apply rowcount_positive.
  - split; [apply update_request_status_rows |].
    split; [| apply update_request_status_rest].
    intros r. unfold updated_row.
    cbn [status updated_date completion_date master_name id created_date
         device_type device_model problem_description client_name
         client_phone deadline].
    split; [reflexivity |]. split; [reflexivity |]. split.
    { intros [-> | ->]; reflexivity. }
    split.
    { intros H1 H2.
      apply String.eqb_neq in H1, H2. now rewrite H1, H2. }
    split.
    { intros m -> Hm. apply String.eqb_neq in Hm. now rewrite Hm. }
    split; [| reflexivity].
    intros [-> | ->]; reflexivity.
Qed.

(** ** Histories *)

Lemma run_app (a b : list Op) (db : Database) :
  run (a ++ b) db = run b (run a db).
Proof. apply fold_left_app. Qed.

Lemma step_requests (db : Database) (op : Op) :
  requests (step db op) = (map (touch op) (requests db) ++ inserted op db)%list.
Proof.
  destruct op as [t dt dm pd cn cp dl | t rid st m | t rid dl | t rid txt p au];
    cbn [step touch inserted].
  - unfold add_request. cbn [snd requests].
    change (touch (Add_request t dt dm pd cn cp dl)) with (fun r : Request => r).
    now rewrite map_id.
  - rewrite app_nil_r. apply update_request_status_rows.
  - unfold extend_deadline, sql_update. cbn [snd requests].
    rewrite app_nil_r. apply map_ext. intros r.
    cbn [touch]. destruct (id r =? rid); reflexivity.
  - change (touch (Add_comment t rid txt p au)) with (fun r : Request => r).
    rewrite app_nil_r, map_id. unfold add_comment.
    now destruct (existsb (fun r => id r =? rid) (requests db)).
Qed.

Lemma step_requests_seq (db : Database) (op : Op) :
  requests_seq (step db op)
  = requests_seq db + Z.of_nat (length (inserted op db)).
Proof.
  destruct op as [t dt dm pd cn cp dl | t rid st m | t rid dl | t rid txt p au];
    cbn [step inserted length].
  - unfold add_request. cbn [snd requests_seq]. lia.
  - rewrite (proj1 (proj2 (update_request_status_rest t rid st m db))). lia.
  - unfold extend_deadline, sql_update. cbn [snd requests_seq]. lia.
  - unfold add_comment.
    destruct (existsb (fun r => id r =? rid) (requests db));
      cbn [snd requests_seq]; lia.
Qed.

Lemma touch_id (op : Op) (r : Request) : id (touch op r) = id r.
Proof.
  destruct op as [| t rid st m | t rid dl |]; cbn [touch]; try reflexivity;
    now destruct (id r =? rid).
Qed.

Lemma touch_created_date (op : Op) (r : Request) :
  created_date (touch op r) = created_date r.
Proof.
  destruct op as [| t rid st m | t rid dl |]; cbn [touch]; try reflexivity;
    now destruct (id r =? rid).
Qed.

(** An operation changes a completion date only by stamping it. *)
Lemma touch_completion_date (op : Op) (r : Request) :
  completion_date (touch op r)
  = match op with
    | Update_request_status t rid st _ =>
        if (id r =? rid) && is_closing_status st then Some t
        else completion_date r
    | _ => completion_date r
    end.
Proof.
  destruct op as [| t rid st m | t rid dl |]; cbn [touch]; try reflexivity.
  - destruct (id r =? rid); [| reflexivity].
    unfold updated_row. cbn [completion_date andb].
    change (String.eqb st "Готова к выдаче" || String.eqb st "Завершена")
      with (is_closing_status st).
    now destruct (is_closing_status st).
  - now destruct (id r =? rid).
Qed.

Lemma touch_keeps_completion (op : Op) (r : Request) :
  completion_date r <> None -> completion_date (touch op r) <> None.
Proof.
  rewrite touch_completion_date. intros H.
  destruct op as [| t rid st m | |]; try assumption.
  now destruct ((id r =? rid) && is_closing_status st).
Qed.

Lemma inserted_fresh (op : Op) (db : Database) (r : Request) :
  In r (inserted op db) ->
  id r = requests_seq db + 1 /\ completion_date r = None
  /\ created_date r = clock op.
Proof.
  destruct op; cbn [inserted clock]; intros Hin;
    [destruct Hin as [<- | []]; auto | destruct Hin ..].
Qed.

Lemma step_In_inv (db : Database) (op : Op) (r' : Request) :
  In r' (requests (step db op)) ->
  (exists r, In r (requests db) /\ r' = touch op r) \/ In r' (inserted op db).
Proof.
  rewrite step_requests, in_app_iff, in_map_iff.
  intros [[r [<- Hin]] | Hin]; [left; now exists r | now right].
Qed.

Lemma step_In (db : Database) (op : Op) (r : Request) :
  In r (requests db) -> In (touch op r) (requests (step db op)).
Proof.
  intros Hin. rewrite step_requests, in_app_iff. left. now apply in_map.
Qed.

Lemma step_ids_consistent (db : Database) (op : Op) :
  ids_consistent db -> ids_consistent (step db op).
Proof.
  intros [Hseq [Hb Hnd]]. split; [rewrite step_requests_seq; lia |]. split.
  - intros r' Hin. rewrite step_requests_seq.
    apply step_In_inv in Hin as [[r [Hin ->]] | Hin].
    + rewrite touch_id. specialize (Hb r Hin). lia.
    + pose proof (inserted_fresh op db r' Hin) as [Hid _].
      destruct (inserted op db) as [| x l]; [destruct Hin |].
      simpl length. lia.
  - rewrite step_requests, map_app, map_map.
    rewrite (map_ext _ id (touch_id op)).
    apply NoDup_app; [assumption | |].
    + destruct op; cbn [inserted map]; repeat constructor; simpl; tauto.
    + intros i Hi Hi'. apply in_map_iff in Hi as [r [<- Hr]].
      apply in_map_iff in Hi' as [r' [Heq Hr']].
      apply inserted_fresh in Hr' as [Hid _].
      specialize (Hb r Hr). lia.
Qed.

Lemma run_ids_consistent (ops : list Op) (db : Database) :
  ids_consistent db -> ids_consistent (run ops db).
Proof.
  revert db. induction ops as [| op ops IH]; intros db Hb; [assumption |].
  apply IH, step_ids_consistent, Hb.
Qed.

Lemma empty_ids_consistent : ids_consistent empty_database.
Proof. split; [simpl; lia | split; [intros r [] | constructor]]. Qed.

Lemma same_id_same_row (db : Database) (r r' : Request) :
  ids_consistent db ->
  In r (requests db) -> In r' (requests db) -> id r = id r' -> r = r'.
Proof.
  intros [_ [_ Hnd]]. induction (requests db) as [| x rs IH]; [intros [] |].
  simpl in Hnd. inversion Hnd as [| ? ? Hnotin Hnd']; subst.
  intros [-> | Hin] [-> | Hin'] Hid; auto.
  - exfalso. apply Hnotin. rewrite Hid. now apply in_map.
  - exfalso. apply Hnotin. rewrite <- Hid. now apply in_map.
Qed.

Lemma run_has_id (ops : list Op) (db : Database) (rid : Z) :
  has_id db rid -> has_id (run ops db) rid.
Proof.
  revert db. induction ops as [| op ops IH]; intros db H; [assumption |].
  apply IH. destruct H as [r [Hin Hid]].
  exists (touch op r). split; [now apply step_In | now rewrite touch_id].
Qed.

(** Once stamped, a completion date survives every later history. *)
Lemma run_keeps_completion (later : list Op) :
  forall (db : Database) (r r' : Request),
    ids_consistent db ->
    In r (requests db) -> completion_date r <> None ->
    In r' (requests (run later db)) -> id r' = id r ->
    completion_date r' <> None.
Proof.
  induction later as [| op later IH]; intros db r r' Hcons Hin Hc Hin' Hid.
  - simpl in Hin'.
    now rewrite (same_id_same_row db r' r Hcons Hin' Hin Hid).
  - simpl in Hin'.
    apply (IH (step db op) (touch op r) r');
      auto using step_In, touch_keeps_completion, step_ids_consistent.
    now rewrite touch_id.
Qed.

(** The completion date is set exactly by a closing status update. *)
Lemma completion_iff_closed (ops : list Op) :
  forall r, In r (requests (run ops empty_database)) ->
    (completion_date r <> None <->
     exists pre t st m post,
       ops = (pre ++ Update_request_status t (id r) st m :: post)%list
       /\ has_id (run pre empty_database) (id r)
       /\ is_closing_status st = true).
Proof.
  induction ops as [| op ops' IH] using rev_ind; intros r Hin.
  - destruct Hin.
  - rewrite run_app in Hin. cbn [run fold_left] in Hin.
    fold (run ops' empty_database) in Hin.
    set (db' := run ops' empty_database) in *.
    pose proof (run_ids_consistent ops' _ empty_ids_consistent) as Hcons.
    fold db' in Hcons.
    apply step_In_inv in Hin as [[r0 [Hin0 ->]] | Hnew].
    + rewrite touch_id. specialize (IH r0 Hin0). split.
      * intros Hc. rewrite touch_completion_date in Hc.
        assert (Hcase :
          (exists t st m, op = Update_request_status t (id r0) st m
                          /\ is_closing_status st = true)
          \/ completion_date r0 <> None).
        { destruct op as [| t rid st m | |]; auto.
          destruct (Z.eqb_spec (id r0) rid) as [<- | Hne]; [| auto].
          destruct (is_closing_status st) eqn:Hcl; [| auto].
          left. now exists t, st, m. }
        destruct Hcase as [[t [st [m [-> Hcl]]]] | Hc0].
        -- exists ops', t, st, m, []. repeat split; auto.
           now exists r0.
        -- apply IH in Hc0 as [pre [t [st [m [post [-> [Hid Hcl]]]]]]].
           exists pre, t, st, m, (post ++ [op])%list.
           repeat split; auto.
           now rewrite <- app_assoc.
      * intros [pre [t [st [m [post [Heq [Hid Hcl]]]]]]].
        destruct post as [| p post _] using rev_ind.
        -- apply app_inj_tail in Heq as [_ ->].
           rewrite touch_completion_date, Z.eqb_refl, Hcl. discriminate.
        -- rewrite app_comm_cons, app_assoc in Heq.
           apply app_inj_tail in Heq as [-> ->].
           apply touch_keeps_completion, IH.
           now exists pre, t, st, m, post.
    + pose proof (inserted_fresh op db' r Hnew) as [Hid [Hc _]].
      split; [now rewrite Hc |].
      intros [pre [t [st [m [post [Heq [Hhas Hcl]]]]]]]. exfalso.
      destruct post as [| p post _] using rev_ind.
      * apply app_inj_tail in Heq as [_ ->]. destruct Hnew.
      * rewrite app_comm_cons, app_assoc in Heq.
        apply app_inj_tail in Heq as [-> ->].
        apply (run_has_id (Update_request_status t (id r) st m :: post))
          in Hhas.
        change (run (Update_request_status t (id r) st m :: post)
                    (run pre empty_database))
          with (fold_left step (Update_request_status t (id r) st m :: post)
                          (fold_left step pre empty_database)) in Hhas.
        rewrite <- fold_left_app in Hhas.
        destruct Hhas as [r1 [Hin1 Hid1]].
        destruct Hcons as [_ [Hb _]]. specialize (Hb r1 Hin1). 
        unfold db' in *. unfold run in *. lia.
Qed.

Lemma step_time_ordered (db : Database) (op : Op) (prev : option Z) (z : Z) :
  time_ordered db prev ->
  timestamp (clock op) = Some z ->
  match prev with Some p => p <=? z | None => true end = true ->
  time_ordered (step db op) (Some z).
Proof.
  intros Hinv Hz Hle r' Hin.
  apply step_In_inv in Hin as [[r [Hin ->]] | Hnew].
  - destruct (Hinv r Hin) as [[zr [p [Hzr [-> Hzp]]]] Hc].
    apply Z.leb_le in Hle.
    rewrite touch_created_date. split.
    + exists zr, z. repeat split; auto. lia.
    + intros c. rewrite touch_completion_date.
      destruct op as [| t rid st m | |]; auto.
      destruct ((id r =? rid) && is_closing_status st); auto.
      intros [= <-]. unfold timestamp_le. cbn [clock] in Hz.
      rewrite Hzr, Hz. apply Z.leb_le. lia.
  - apply inserted_fresh in Hnew as [_ [Hc Hcr]]. rewrite Hcr, Hc. split.
    + exists z, z. repeat split; auto. lia.
    + discriminate.
Qed.

Lemma run_time_ordered (ops : list Op) :
  forall (db : Database) (prev : option Z),
    time_ordered db prev ->
    clock_monotone prev (map clock ops) = true ->
    forall r c, In r (requests (run ops db)) ->
                completion_date r = Some c ->
                timestamp_le (created_date r) c = true.
Proof.
  induction ops as [| op ops IH]; intros db prev Hinv Hmono r c Hin Hc.
  - now apply (Hinv r Hin).
  - cbn [map clock_monotone] in Hmono.
    destruct (timestamp (clock op)) as [z |] eqn:Hz; [| discriminate].
    apply andb_prop in Hmono as [Hle Hmono].
    apply (IH (step db op) (Some z)); auto.
    now apply step_time_ordered with (prev := prev).
Qed.

(** C5, amended.  In the store reached by any history of repository
    operations, a request has a completion date iff some status update
    addressed to it, issued when it already existed, set the status
    "Готова к выдаче" or "Завершена"; no later history removes the request
    or clears its completion date; and when the clock readings of the
    history are timestamps that never decrease, the completion date is not
    earlier than the creation date. *)
Theorem completion_date_invariant (ops : list Op) (r : Request)
    (Hin : In r (requests (run ops empty_database))) :
  (completion_date r <> None <->
     exists pre t st m post,
       ops = (pre ++ Update_request_status t (id r) st m :: post)%list
       /\ has_id (run pre empty_database) (id r)
       /\ (st = "Готова к выдаче" \/ st = "Завершена"))
  /\ (forall later r',
        In r' (requests (run later (run ops empty_database))) ->
        id r' = id r ->
        completion_date r <> None -> completion_date r' <> None)
  /\ (forall later, has_id (run later (run ops empty_database)) (id r))
  /\ (clock_monotone None (map clock ops) = true ->
      forall c, completion_date r = Some c ->
                timestamp_le (created_date r) c = true).
Proof.
  split.
  { rewrite (completion_iff_closed ops r Hin).
    split; intros [pre [t [st [m [post [Heq [Hid Hcl]]]]]]];
      exists pre, t, st, m, post; repeat split; auto;
      now apply is_closing_status_spec. }
  split.
  { intros later r' Hin' Hid Hc.
    apply (run_keeps_completion later (run ops empty_database) r r'); auto.
    apply run_ids_consistent, empty_ids_consistent. }
  split.
  { intros later. apply run_has_id. now exists r. }
  intros Hmono c Hc.
  apply (run_time_ordered ops empty_database None); auto.
  intros r0 [].
Qed.

(** C5 as stated fails: the clock readings are those of [datetime.now()],
    local time, and may go back.  A request created on 2 January and set to
    "Завершена" after the clock was set back to 1 January has a completion
    date before its creation date. *)
Lemma completion_before_creation_counterexample :
  ~ (forall (pre : list Op) (t : string) (m : option string) (r : Request)
            (c : string),
       has_id (run pre empty_database) (id r) ->
       In r (requests
               (run (pre ++ [Update_request_status t (id r) "Завершена" m])
                    empty_database)) ->
       completion_date r = Some c ->
       timestamp_le (created_date r) c = true).
Proof.
  intros H.
  specialize (H [Add_request "2024-01-02 10:00:00" "Плита" "Gefest"
                   "Не греет" "Петров Петр" "+79991234570" None]
                "2024-01-01 10:00:00" None backward_clock_request
                "2024-01-01 10:00:00").
  assert (Hid : has_id (run [Add_request "2024-01-02 10:00:00" "Плита"
                               "Gefest" "Не греет" "Петров Петр"
                               "+79991234570" None] empty_database)
                       (id backward_clock_request)).
  { eexists. split; [left; reflexivity | reflexivity]. }
  assert (Hin : In backward_clock_request
                   (requests (run backward_clock_history empty_database)))
    by (vm_compute; left; reflexivity).
  specialize (H Hid Hin eq_refl). vm_compute in H. discriminate.
Qed.

(** ** Search *)

Lemma like_percent (p s : string) :
  like (String "%" p) s = true
  <-> exists pre suf, s = pre ++ suf /\ like p suf = true.
Proof.
  cbn [like]. change (Ascii.eqb "%" "%") with true. cbv iota.
  induction s as [| c s IH].
  - rewrite orb_false_r. split.
    + intros H. now exists EmptyString, EmptyString.
    + intros [pre [suf [Heq H]]].
      destruct pre; [| discriminate]. simpl in Heq. now subst suf.
  - rewrite orb_true_iff, IH. split.
    + intros [H | [pre [suf [-> H]]]].
      * now exists EmptyString, (String c s).
      * now exists (String c pre), suf.
    + intros [pre [suf [Heq H]]]. destruct pre as [| c' pre]; simpl in Heq.
      * left. now subst suf.
      * right. injection Heq as -> ->. now exists pre, suf.
Qed.

Lemma like_any (s : string) : like "%" s = true.
Proof.
  apply like_percent. exists s, EmptyString. split; [| reflexivity].
  induction s as [| c s IH]; simpl; now f_equal.
Qed.






Lemma c_text_no_nul (s : string) : no_nul s = true -> c_text s = s.
Proof.
  induction s as [| c s IH]; [reflexivity |].
  cbn [no_nul c_text]. intros H. apply andb_prop in H as [Hc Hs].
  apply negb_true_iff in Hc. now rewrite Hc, IH.
Qed.

Lemma no_nul_app (a b : string) :
  no_nul (a ++ b) = no_nul a && no_nul b.
Proof.
  induction a as [| c a IH]; [reflexivity |].
  cbn [append no_nul]. now rewrite IH, andb_assoc.
Qed.







Lemma newest_first_total (a b : Request) :
  newest_first a b = true \/ newest_first b a = true.
Proof. unfold newest_first. apply String.leb_total. Qed.



(** ** Performance metrics *)

Lemma sum_parts_fold (cs : list Comment) (acc : option Z) :
  10 * optz (fold_left (fun acc c =>
                          match parts_ordered c, acc with
                          | Some p, Some n => Some (n + sql_length p)
                          | Some p, None => Some (sql_length p)
                          | None, _ => acc
                          end) cs acc)
  = 10 * optz acc + parts_cost_spec cs.
Proof.
  unfold parts_cost_spec. revert acc.
  induction cs as [| c cs IH]; intros acc; cbn [fold_left fold_right]; [lia |].
  rewrite IH. destruct (parts_ordered c), acc; cbn [optz]; lia.
Qed.

Lemma total_parts_cost_spec (db : Database) :
  match sum_parts_length db with
  | Some n => if n =? 0 then 0 else n
  | None => 0
  end * 10 = parts_cost_spec (comments db).
Proof.
  pose proof (sum_parts_fold (comments db) None) as H.
  unfold sum_parts_length. simpl optz in H.
  destruct (fold_left _ (comments db) None) as [n |]; simpl optz in H.
  - destruct (Z.eqb_spec n 0); lia.
  - lia.
Qed.

Lemma avg_processing_time_total (times : list Q) :
  exists v, avg_processing_time times = Ok v.
Proof. destruct times; simpl; eauto. Qed.

Lemma total_parts_cost_value (db : Database)
    (start_date end_date : option string) (per_day : PyVal) (times : list Q) :
  select_requests start_date end_date db <> [] ->
  requests_per_day start_date end_date
    (Z.of_nat (length (select_requests start_date end_date db))) = Ok per_day ->
  processing_times (select_requests start_date end_date db) = Ok times ->
  metrics_get "total_parts_cost"
    (get_performance_metrics (Ok db) start_date end_date)
  = Some (VInt (parts_cost_spec (comments db))).
Proof.
  intros Hrows Hper_day Htimes.
  unfold get_performance_metrics. cbn [bind].
  destruct (select_requests start_date end_date db) as [| row rows] eqn:Hsel;
    [contradiction |].
  rewrite Hper_day, Htimes. cbn [bind].
  destruct (avg_processing_time_total times) as [v ->]. cbn [bind try_except].
  rewrite total_parts_cost_spec. reflexivity.
Qed.

(** C10, amended.  For every choice of [start_date] and [end_date] with a
    non-empty filtered set on which the computation meets no date-parsing or
    division fault, [total_parts_cost] is ten times the summed character
    length of [parts_ordered] over all comments of the store (NULL counting
    for nothing); any other such window over the same store yields the same
    [total_parts_cost]. *)
Theorem total_parts_cost_ignores_date_filter (db : Database)
    (start_date end_date : option string) (per_day : PyVal) (times : list Q)
    (Hrows : select_requests start_date end_date db <> [])
    (Hper_day :
       requests_per_day start_date end_date
         (Z.of_nat (length (select_requests start_date end_date db)))
       = Ok per_day)
    (Htimes :
       processing_times (select_requests start_date end_date db) = Ok times) :
  metrics_get "total_parts_cost"
    (get_performance_metrics (Ok db) start_date end_date)
  = Some (VInt (parts_cost_spec (comments db)))
  /\ (forall (start_date' end_date' : option string) (per_day' : PyVal)
             (times' : list Q),
        select_requests start_date' end_date' db <> [] ->
        requests_per_day start_date' end_date'
          (Z.of_nat (length (select_requests start_date' end_date' db)))
        = Ok per_day' ->
        processing_times (select_requests start_date' end_date' db)
        = Ok times' ->
        metrics_get "total_parts_cost"
          (get_performance_metrics (Ok db) start_date' end_date')
        = metrics_get "total_parts_cost"
            (get_performance_metrics (Ok db) start_date end_date)).
Proof.
  pose proof (total_parts_cost_value db start_date end_date per_day times
                Hrows Hper_day Htimes) as Hcost.
  split; [exact Hcost |].
  intros start_date' end_date' per_day' times' Hrows' Hper_day' Htimes'.
  rewrite Hcost.
  now apply total_parts_cost_value with (per_day := per_day') (times := times').
Qed.

(** C10 as stated fails: the window 2024-04-01 .. 2024-04-31 selects the
    requests of April, yet its upper bound is not a calendar date, parsing it
    raises and the result is the empty dictionary, without a
    [total_parts_cost]. *)
Lemma total_parts_cost_counterexample :
  ~ (forall (db : Database) (start_date end_date : option string),
       select_requests start_date end_date db <> [] ->
       metrics_get "total_parts_cost"
         (get_performance_metrics (Ok db) start_date end_date)
       = Some (VInt (parts_cost_spec (comments db)))).
Proof.
  intros H.
  specialize (H three_status_db (Some "2024-04-01") (Some "2024-04-31")).
  assert (Hne : select_requests (Some "2024-04-01") (Some "2024-04-31")
                  three_status_db <> []) by (vm_compute; discriminate).
  specialize (H Hne). vm_compute in H. discriminate.
Qed.

(** C1.  Column 9 of a [SELECT *] row is [deadline], not
    [completion_date]: for the request completed after 29 hours and without
    a deadline, [get_performance_metrics] reports an average processing time
    of 0 where the mean over the completed requests is 29.0 (which
    [calculate_average_repair_time] does return); once the request has a
    deadline, the deadline is parsed as a timestamp and the whole call falls
    back to the empty dictionary. *)
Theorem average_processing_time_reads_deadline :
  (forall r, col (select_star r) 9 = sql_opt (deadline r))
  /\ metrics_get "average_processing_time_hours"
       (get_performance_metrics (Ok fridge_db) None None) = Some (VInt 0)
  /\ mean_repair_hours (requests fridge_db) = 29%Q
  /\ calculate_average_repair_time (Ok fridge_db) = 29%Q
  /\ get_performance_metrics (Ok deadline_db) None None = []
  /\ calculate_average_repair_time (Ok deadline_db) = 29%Q.
Proof. repeat split; vm_compute; reflexivity. Qed.

(** C2.  Column 5 of a [SELECT *] row is [client_name], not [status]: the
    one request of "Мастер Иванов", in status "Завершена", is counted with
    completed = 0 and efficiency 0.0 where the specification has
    completed = 1 and efficiency 100.0. *)
Theorem master_efficiency_reads_client_name :
  (forall r, col (select_star r) 5 = SText (client_name r))
  /\ metrics_get "master_efficiency"
       (get_performance_metrics (Ok fridge_db) None None)
     = Some (VMasters [(SText "Мастер Иванов",
                        mk_master_stats 0 1 (Some 0%Q))])
  /\ master_stats_spec "Мастер Иванов" (requests fridge_db)
     = mk_master_stats 1 1 (Some 100%Q).
Proof. repeat split; vm_compute; reflexivity. Qed.

(** C4.  On an empty filtered set [get_performance_metrics] files the
    average under the key [average_processing_time], on a non-empty one
    under [average_processing_time_hours]; the other keys agree.  When
    [get_database] raises, each of the four operations returns its
    default. *)
Theorem empty_metrics_key_mismatch :
  map fst (get_performance_metrics (Ok empty_database) None None)
  = ["total_requests"; "requests_per_day"; "average_processing_time";
     "master_efficiency"; "total_parts_cost"]
  /\ map fst (get_performance_metrics (Ok fridge_db) None None)
     = ["total_requests"; "requests_per_day"; "average_processing_time_hours";
        "master_efficiency"; "total_parts_cost"]
  /\ metrics_get "average_processing_time_hours"
       (get_performance_metrics (Ok empty_database) None None) = None
  /\ (forall e s1 s2,
        calculate_average_repair_time (Raise e) = 0%Q
        /\ calculate_request_statistics_by_device (Raise e) = []
        /\ calculate_status_distribution (Raise e) = []
        /\ get_performance_metrics (Raise e) s1 s2 = []).
Proof. repeat split; vm_compute; reflexivity. Qed.

(** ** Malformed dates *)

Lemma elapsed_hours_malformed (r : Request) (c : string) :
  completion_date r = Some c ->
  well_formed_request r = false ->
  exists e, elapsed_hours (SText (created_date r)) (SText c) = Raise e.
Proof.
  unfold well_formed_request, elapsed_hours, timestamp. intros -> Hwf.
  cbn [strptime_val].
  destruct (strptime (created_date r) Fmt_Ymd_HMS) as [d1 | e1]; cbn [bind];
    [| now exists e1].
  destruct (strptime c Fmt_Ymd_HMS) as [d2 | e2]; cbn [bind];
    [discriminate | now exists e2].
Qed.

(** C3, amended.  A request with a completion date whose creation or
    completion date, a text in ASCII, does not parse makes
    [calculate_average_repair_time] return its default 0.0 for the whole
    table; when that request is in status "Завершена" with a non-empty
    completion date, it likewise makes
    [calculate_request_statistics_by_device] return the empty dictionary. *)
Theorem malformed_date_aborts_aggregation (db : Database) (r : Request)
    (Hin : In r (requests db)) (Hascii : ascii_dates r = true)
    (Hbad : well_formed_request r = false) :
  calculate_average_repair_time (Ok db) = 0%Q
  /\ (status r = STATUS_COMPLETED -> completion_date r <> Some EmptyString ->
      calculate_request_statistics_by_device (Ok db) = []).
Proof.
  assert (Hc : exists c, completion_date r = Some c).
  { unfold well_formed_request in Hbad.
    destruct (completion_date r) as [c |]; [now exists c | discriminate]. }
  destruct Hc as [c Hc].
  destruct (elapsed_hours_malformed r c Hc Hbad) as [e He].
  split.
  - unfold calculate_average_repair_time. cbn [bind].
    assert (Hrow : In (SText (created_date r), SText c) (select_completed db)).
    { unfold select_completed. apply in_map_iff. exists r.
      rewrite Hc. split; [reflexivity |]. apply filter_In.
      now rewrite Hc. }
    destruct (for_each_raises repair_loop_body (SText (created_date r), SText c))
      with (l := select_completed db) (acc := @nil Q) as [e' He'].
    + intros acc. exists e. cbn [repair_loop_body]. now rewrite He.
    + exact Hrow.
    + destruct (select_completed db); [destruct Hrow |].
      now rewrite He'.
  - intros Hst Hne. unfold calculate_request_statistics_by_device.
    cbn [bind].
    destruct (for_each_raises device_step r)
      with (l := select_by_device db)
           (acc := @nil (string * DeviceAcc)) as [e' He'].
    + intros acc. exists e. unfold device_step.
      rewrite Hst, Hc, String.eqb_refl. cbn [sql_opt truthy andb].
      destruct (String.eqb_spec c EmptyString); [congruence |].
      cbn [negb]. now rewrite He.
    + unfold select_by_device. now apply order_by_In.
    + now rewrite He'.
Qed.

(** C3 as stated fails: next to a well-formed request of 29 hours, one
    unparsable completion date turns the result into 0.0 instead of the mean
    over the well-formed requests. *)
Lemma malformed_date_counterexample :
  calculate_average_repair_time (Ok damaged_db)
  <> mean_repair_hours (requests damaged_db).
Proof. vm_compute. discriminate. Qed.

(** ** The statements at concrete inputs *)

Lemma average_repair_time_is_rounded_mean_witness :
  well_formed_timestamps ninety_seconds_db = true
  /\ flat_map repair_hours (requests ninety_seconds_db) = [(90 # 3600)%Q]
  /\ rounded_to_2_decimals (1 # 10000000) (90 # 3600)
       (calculate_average_repair_time (Ok ninety_seconds_db))
  /\ well_formed_timestamps search_db = true
  /\ (forall r, In r (requests search_db) -> completion_date r = None)
  /\ calculate_average_repair_time (Ok search_db) = 0%Q.
Proof.
  split; [reflexivity |].
  split; [reflexivity |].
  split.
  { exact (proj1 (proj2 (average_repair_time_is_rounded_mean
                           ninety_seconds_db eq_refl))
             ltac:(discriminate)). }
  split; [reflexivity |].
  assert (Hnone : forall r, In r (requests search_db) ->
                            completion_date r = None).
  { intros r Hr. vm_compute in Hr.
    destruct Hr as [<- | [<- | []]]; reflexivity. }
  split; [exact Hnone |].
  exact (proj1 (proj2 (proj2
           (average_repair_time_is_rounded_mean search_db eq_refl))) Hnone).
Defined.

Lemma status_distribution_correct_witness :
  requests empty_database = []
  /\ calculate_status_distribution (Ok empty_database) = []
  /\ requests three_status_db <> []
  /\ NoDup (map status_of (calculate_status_distribution (Ok three_status_db))).
Proof.
  split; [reflexivity |].
  split; [exact (proj1 (status_distribution_correct empty_database) eq_refl) |].
  assert (Hne : requests three_status_db <> []) by (vm_compute; discriminate).
  split; [exact Hne |].
  exact (proj1 (proj1 (proj2 (status_distribution_correct three_status_db))
                  Hne)).
Defined.

Lemma update_request_status_spec_witness :
  - 9223372036854775808 <= 1 <= 9223372036854775807
  /\ map (fun r => (status r, completion_date r, master_name r))
         (requests (snd (update_request_status "2024-03-03 09:00:00" 1
                           "Готова к выдаче" (Some EmptyString) search_db)))
     = [("Готова к выдаче", Some "2024-03-03 09:00:00", None);
        ("Новая", None, None)].
Proof.
  assert (Hid : - 9223372036854775808 <= 1 <= 9223372036854775807) by lia.
  split; [exact Hid |].
  rewrite (proj1 (proj2 (update_request_status_spec "2024-03-03 09:00:00" 1
                           "Готова к выдаче" (Some EmptyString) search_db
                           Hid))).
  reflexivity.
Defined.

Lemma completion_date_invariant_witness :
  In closed_request (requests (run three_status_history empty_database))
  /\ clock_monotone None (map clock three_status_history) = true
  /\ completion_date closed_request = Some "2024-04-02 10:00:00"
  /\ timestamp_le (created_date closed_request) "2024-04-02 10:00:00" = true.
Proof.
  assert (Hin : In closed_request
                  (requests (run three_status_history empty_database))).
  { vm_compute. right. right. left. reflexivity. }
  split; [exact Hin |].
  split; [reflexivity |].
  split; [reflexivity |].
  exact (proj2 (proj2 (proj2
           (completion_date_invariant three_status_history closed_request Hin)))
           eq_refl "2024-04-02 10:00:00" eq_refl).
Defined.


Lemma total_parts_cost_ignores_date_filter_witness :
  select_requests None None three_status_db <> []
  /\ select_requests (Some "2024-04-01") (Some "2024-04-30") three_status_db
     <> []
  /\ metrics_get "total_parts_cost"
       (get_performance_metrics (Ok three_status_db) None None)
     = Some (VInt 90)
  /\ metrics_get "total_parts_cost"
       (get_performance_metrics (Ok three_status_db)
          (Some "2024-04-01") (Some "2024-04-30"))
     = metrics_get "total_parts_cost"
         (get_performance_metrics (Ok three_status_db) None None).
Proof.
  assert (Hne : select_requests None None three_status_db <> [])
    by (vm_compute; discriminate).
  assert (Hne' : select_requests (Some "2024-04-01") (Some "2024-04-30")
                   three_status_db <> [])
    by (vm_compute; discriminate).
  split; [exact Hne |].
  split; [exact Hne' |].
  split.
  - exact (proj1 (total_parts_cost_ignores_date_filter three_status_db
                    None None (VInt 3) [] Hne eq_refl eq_refl)).
  - exact (proj2 (total_parts_cost_ignores_date_filter three_status_db
                    None None (VInt 3) [] Hne eq_refl eq_refl)
             (Some "2024-04-01") (Some "2024-04-30")
             (VFloat (binary64 (1 # 10))) []
             Hne' eq_refl eq_refl).
Defined.

Lemma malformed_date_aborts_aggregation_witness :
  In damaged_request (requests damaged_db)
  /\ ascii_dates damaged_request = true
  /\ well_formed_request damaged_request = false
  /\ calculate_average_repair_time (Ok damaged_db) = 0%Q
  /\ status damaged_request = STATUS_COMPLETED
  /\ completion_date damaged_request <> Some EmptyString
  /\ calculate_request_statistics_by_device (Ok damaged_db) = [].
Proof.
  assert (Hin : In damaged_request (requests damaged_db)).
  { vm_compute. right. left. reflexivity. }
  assert (Hne : completion_date damaged_request <> Some EmptyString)
    by (vm_compute; discriminate).
  split; [exact Hin |].
  split; [reflexivity |].
  split; [reflexivity |].
  split; [exact (proj1 (malformed_date_aborts_aggregation damaged_db
                          damaged_request Hin eq_refl eq_refl)) |].
  split; [reflexivity |].
  split; [exact Hne |].
  exact (proj2 (malformed_date_aborts_aggregation damaged_db damaged_request
                  Hin eq_refl eq_refl) eq_refl Hne).
Defined.

(** * Further properties of the code *)

(** ** Identifiers over histories with deletions *)

Lemma perform_app (a b : list Action) (db : Database) :
  perform (a ++ b) db = perform b (perform a db).
Proof. apply fold_left_app. Qed.

Lemma delete_ids_consistent (rid : Z) (db : Database) :
  ids_consistent db -> ids_consistent (delete_request rid db).
Proof.
  intros [Hseq [Hb Hnd]]. unfold delete_request.
  split; [exact Hseq |]. cbn [requests requests_seq]. split.
  - intros r Hin. apply filter_In in Hin as [Hin _]. now apply Hb.
  - clear Hb. induction (requests db) as [| r rs IH]; [constructor |].
    inversion Hnd as [| ? ? Hnotin Hnd']; subst. cbn [filter].
    destruct (negb (id r =? rid)); [| now apply IH].
    cbn [map]. constructor; [| now apply IH].
    intros Hin. apply Hnotin. apply in_map_iff in Hin as [r' [Hid Hin]].
    apply filter_In in Hin as [Hin _]. rewrite <- Hid. now apply in_map.
Qed.

Lemma act_ids_consistent (db : Database) (a : Action) :
  ids_consistent db -> ids_consistent (act db a).
Proof.
  destruct a as [op | rid]; cbn [act];
    [apply step_ids_consistent | apply delete_ids_consistent].
Qed.

Lemma perform_ids_consistent (acts : list Action) (db : Database) :
  ids_consistent db -> ids_consistent (perform acts db).
Proof.
  revert db. induction acts as [| a acts IH]; intros db H; [assumption |].
  apply IH, act_ids_consistent, H.
Qed.

Lemma act_requests_seq (db : Database) (a : Action) :
  requests_seq db <= requests_seq (act db a).
Proof.
  destruct a as [op | rid]; cbn [act].
  - rewrite step_requests_seq. lia.
  - cbn. lia.
Qed.

Lemma perform_requests_seq (acts : list Action) (db : Database) :
  requests_seq db <= requests_seq (perform acts db).
Proof.
  revert db. induction acts as [| a acts IH]; intros db; cbn; [lia |].
  etransitivity; [apply (act_requests_seq db a) | apply IH].
Qed.

(** X1 ([Database.add_request], [ServiceCenterApp._delete_request]).  In
    every store reached from the empty one by the operations of the
    repository and by deletions, the request identifiers are pairwise
    distinct, lie between 1 and the counter of the table, and identify their
    row. *)
Theorem reachable_ids_distinct (acts : list Action) :
  let db := perform acts empty_database in
  NoDup (map id (requests db))
  /\ (forall r, In r (requests db) -> 1 <= id r <= requests_seq db)
  /\ (forall r r', In r (requests db) -> In r' (requests db) ->
                   id r = id r' -> r = r').
Proof.
  cbv zeta.
  pose proof (perform_ids_consistent acts _ empty_ids_consistent) as Hcons.
  split; [apply Hcons |]. split; [apply Hcons |].
  intros r r'. now apply same_id_same_row.
Qed.

(** X2 ([Database.add_request], [id INTEGER PRIMARY KEY AUTOINCREMENT]).
    The identifier [add_request] returns is larger than the identifier of
    every request that has ever been stored, deleted or not; no stored
    request carries it; the call appends one row in status [Новая] with
    [created_date = updated_date = now] and leaves the comments alone. *)
Theorem add_request_never_reuses_id (before after : list Action)
    (r : Request) (t dt dm pd cn cp : string) (dl : option string)
    (Hin : In r (requests (perform before empty_database))) :
  let db := perform (before ++ after) empty_database in
  let result := add_request t dt dm pd cn cp dl db in
  id r < fst result
  /\ ~ has_id db (fst result)
  /\ requests (snd result)
     = (requests db
        ++ [mk_request (fst result) t dt dm pd cn cp STATUS_NEW None dl None
                       (Some t)])%list
  /\ comments (snd result) = comments db.
Proof.
  cbv zeta. unfold add_request. cbn [fst snd requests comments].
  pose proof (perform_ids_consistent before _ empty_ids_consistent)
    as [_ [Hb _]].
  pose proof (perform_ids_consistent (before ++ after) _ empty_ids_consistent)
    as [_ [Hb' _]].
  pose proof (perform_requests_seq after (perform before empty_database))
    as Hseq.
  rewrite <- perform_app in Hseq.
  specialize (Hb r Hin).
  split; [lia |]. split; [| auto].
  intros [r' [Hin' Hid]]. specialize (Hb' r' Hin'). lia.
Qed.

(** ** Comments *)

Lemma existsb_has_id (db : Database) (rid : Z) :
  existsb (fun r => id r =? rid) (requests db) = true <-> has_id db rid.
Proof.
  rewrite existsb_exists. unfold has_id.
  split; intros [r [Hin H]]; exists r; split; auto; lia.
Qed.

Lemma step_has_id (db : Database) (op : Op) (rid : Z) :
  has_id db rid -> has_id (step db op) rid.
Proof.
  intros [r [Hin Hid]]. exists (touch op r).
  split; [now apply step_In | now rewrite touch_id].
Qed.

Lemma step_comments (db : Database) (op : Op) :
  comments (step db op) = comments db
  \/ exists t rid txt parts au,
       op = Add_comment t rid txt parts au
       /\ has_id db rid
       /\ comments (step db op)
          = (comments db
             ++ [mk_comment (comments_seq db + 1) rid txt parts t au])%list
       /\ comments_seq (step db op) = comments_seq db + 1.
Proof.
  destruct op as [t dt dm pd cn cp dl | t rid st m | t rid dl | t rid txt p au];
    cbn [step].
  - now left.
  - left. apply update_request_status_rest.
  - now left.
  - unfold add_comment.
    destruct (existsb (fun r => id r =? rid) (requests db)) eqn:E; auto.
    right. exists t, rid, txt, p, au. cbn [snd comments comments_seq].
    repeat split. now apply existsb_has_id.
Qed.

Lemma step_comments_seq (db : Database) (op : Op) :
  comments_seq db <= comments_seq (step db op)
  /\ (comments (step db op) = comments db ->
      comments_seq (step db op) = comments_seq db).
Proof.
  destruct op as [t dt dm pd cn cp dl | t rid st m | t rid dl | t rid txt p au];
    cbn [step].
  - cbn. lia.
  - rewrite (proj2 (proj2 (update_request_status_rest t rid st m db))). lia.
  - cbn. lia.
  - unfold add_comment.
    destruct (existsb (fun r => id r =? rid) (requests db));
      cbn [snd comments comments_seq]; split; try lia.
    intros H. apply (f_equal (@length _)) in H.
    rewrite length_app in H. simpl in H. lia.
Qed.

Lemma step_comments_consistent (db : Database) (op : Op) :
  comments_consistent db -> comments_consistent (step db op).
Proof.
  intros [Hseq [Hc Hnd]].
  destruct (step_comments db op)
    as [Hsame | [t [rid [txt [parts [au [-> [Hid [Hcs Hs]]]]]]]]].
  - pose proof (step_comments_seq db op) as [_ Hs]. specialize (Hs Hsame).
    unfold comments_consistent. rewrite Hsame, Hs.
    split; [exact Hseq |]. split; [| exact Hnd].
    intros c Hin. destruct (Hc c Hin) as [Hh Hb].
    split; [now apply step_has_id | exact Hb].
  - unfold comments_consistent. rewrite Hcs, Hs.
    split; [lia |]. split.
    + intros c Hin. apply in_app_iff in Hin as [Hin | [<- | []]].
      * destruct (Hc c Hin) as [Hh Hb].
        split; [now apply step_has_id | lia].
      * cbn [request_id comment_id].
        split; [now apply step_has_id | lia].
    + rewrite map_app. apply NoDup_app; [exact Hnd | |].
      * repeat constructor. simpl. tauto.
      * intros i Hi [<- | []]. apply in_map_iff in Hi as [c [Hci Hin]].
        destruct (Hc c Hin) as [_ Hb]. cbn [comment_id] in Hci. lia.
Qed.

Lemma delete_comments_consistent (rid : Z) (db : Database) :
  comments_consistent db -> comments_consistent (delete_request rid db).
Proof.
  intros [Hseq [Hc Hnd]]. unfold comments_consistent, delete_request.
  cbn [comments comments_seq].
  split; [exact Hseq |]. split.
  - intros c Hin. apply filter_In in Hin as [Hin Hne].
    destruct (Hc c Hin) as [[r [Hr Hid]] Hb]. split; [| exact Hb].
    exists r. cbn [requests]. split; [| exact Hid].
    apply filter_In. split; [exact Hr |]. now rewrite Hid.
  - clear Hc. induction (comments db) as [| c cs IH]; [constructor |].
    inversion Hnd as [| ? ? Hnotin Hnd']; subst. cbn [filter].
    destruct (negb (request_id c =? rid)); [| now apply IH].
    cbn [map]. constructor; [| now apply IH].
    intros Hin. apply Hnotin. apply in_map_iff in Hin as [c' [Hid Hin]].
    apply filter_In in Hin as [Hin _]. rewrite <- Hid. now apply in_map.
Qed.

Lemma perform_comments_consistent (acts : list Action) (db : Database) :
  comments_consistent db -> comments_consistent (perform acts db).
Proof.
  revert db. induction acts as [| a acts IH]; intros db H; [assumption |].
  apply IH. destruct a as [op | rid]; cbn [act];
    [now apply step_comments_consistent | now apply delete_comments_consistent].
Qed.

Lemma empty_comments_consistent : comments_consistent empty_database.
Proof. split; [simpl; lia | split; [intros c [] | constructor]]. Qed.

(** X3 ([Database.add_comment], [ServiceCenterApp._delete_request],
    [FOREIGN KEY ... ON DELETE CASCADE]).  In every reachable store each
    comment refers to a stored request and comment identifiers are pairwise
    distinct; deleting a request removes the request and every comment that
    refers to it, and nothing that is left refers to the deleted
    identifier. *)
Theorem comments_always_reference_requests (acts : list Action) (rid : Z) :
  let db := perform acts empty_database in
  (forall c, In c (comments db) -> has_id db (request_id c))
  /\ NoDup (map comment_id (comments db))
  /\ (forall c, In c (comments (delete_request rid db)) ->
                request_id c <> rid
                /\ has_id (delete_request rid db) (request_id c))
  /\ ~ has_id (delete_request rid db) rid.
Proof.
  cbv zeta.
  pose proof (perform_comments_consistent acts _ empty_comments_consistent)
    as Hcons.
  pose proof (delete_comments_consistent rid _ Hcons) as [_ [Hdel _]].
  destruct Hcons as [_ [Hc Hnd]].
  split; [intros c Hin; now apply Hc |]. split; [exact Hnd |]. split.
  - intros c Hin. split; [| now apply Hdel].
    apply filter_In in Hin as [_ Hne]. apply negb_true_iff in Hne. lia.
  - intros [r [Hin Hid]]. apply filter_In in Hin as [_ Hne].
    apply negb_true_iff in Hne. lia.
Qed.

Lemma parts_cost_app (cs cs' : list Comment) :
  parts_cost_spec (cs ++ cs') = parts_cost_spec cs + parts_cost_spec cs'.
Proof.
  unfold parts_cost_spec. induction cs as [| c cs IH]; cbn [app fold_right].
  - lia.
  - destruct (parts_ordered c); lia.
Qed.

(** X4 ([Database.add_comment]).  The call returns [True] exactly when a
    request with the given identifier exists.  On [False] the store is
    unchanged; on [True] one comment is appended with the next identifier,
    the requests are untouched, and the parts cost of the store grows by ten
    times the length of [parts_ordered] (by nothing for NULL). *)
Theorem add_comment_spec (t : string) (rid : Z) (txt : string)
    (parts : option string) (au : string) (db : Database) :
  let result := add_comment t rid txt parts au db in
  (fst result = true <-> has_id db rid)
  /\ (fst result = false -> snd result = db)
  /\ (fst result = true ->
      comments (snd result)
      = (comments db
         ++ [mk_comment (comments_seq db + 1) rid txt parts t au])%list
      /\ requests (snd result) = requests db
      /\ parts_cost_spec (comments (snd result))
         = parts_cost_spec (comments db)
           + 10 * match parts with Some p => sql_length p | None => 0 end).
Proof.
  cbv zeta. unfold add_comment.
  pose proof (existsb_has_id db rid) as Hex.
  destruct (existsb (fun r => id r =? rid) (requests db));
    cbn [fst snd comments requests].
  - split; [tauto |]. split; [discriminate |]. intros _.
    repeat split. rewrite parts_cost_app. unfold parts_cost_spec at 2.
    cbn [fold_right parts_ordered]. destruct parts; lia.
  - split; [| split; [reflexivity | discriminate]].
    split; [discriminate |]. intros H. apply Hex in H. discriminate.
Qed.

(** ** Listing and deadlines *)

(** X5 ([Database.get_all_requests]).  The result is a rearrangement of the
    stored requests that pass the filter, newest [created_date] first; a
    filter that is [None] or the empty string lets every request through,
    any other filter exactly the requests in that status. *)
Theorem get_all_requests_spec (status_filter : option string)
    (db : Database) :
  let found := get_all_requests status_filter db in
  Permutation found (filter (passes_filter status_filter) (requests db))
  /\ (forall r, In r found
                <-> In r (requests db)
                    /\ (status_filter = None \/ status_filter = Some EmptyString
                        \/ status_filter = Some (status r)))
  /\ Sorted (fun a b => String.leb (created_date b) (created_date a) = true)
            found.
Proof.
  cbv zeta. unfold get_all_requests.
  assert (Hrows :
    (if truthy_arg status_filter
     then filter (fun r => SqlVal_eqb (SText (status r))
                             (sql_opt status_filter)) (requests db)
     else requests db)
    = filter (passes_filter status_filter) (requests db)).
  { unfold passes_filter.
    destruct status_filter as [f |]; cbn [truthy_arg sql_opt truthy arg_str].
    - destruct (String.eqb f EmptyString); cbn [negb orb].
      + symmetry. apply forallb_filter_id. now apply forallb_forall.
      + reflexivity.
    - symmetry. apply forallb_filter_id. now apply forallb_forall. }
  rewrite Hrows. split; [apply order_by_perm |]. split.
  - intros r. rewrite order_by_In, filter_In. unfold passes_filter.
    destruct status_filter as [f |]; cbn [truthy_arg sql_opt truthy arg_str].
    + destruct (String.eqb_spec f EmptyString) as [-> | Hne]; cbn [negb orb].
      * intuition.
      * rewrite String.eqb_eq. split.
        -- intros [Hin ->]. auto.
        -- intros [Hin [H | [H | H]]]; try discriminate;
             injection H as H; subst; intuition.
    + intuition.
  - apply (order_by_sorted newest_first newest_first_total).
Qed.

(** X6 ([Database.extend_deadline]).  The call returns [True] exactly when
    a request with the given identifier exists; it sets [deadline] and
    [updated_date] of that request and nothing else: status, master and
    completion date of every request, and all comments, stay as they
    were. *)
Theorem extend_deadline_spec (t : string) (rid : Z) (dl : string)
    (db : Database) :
  let result := extend_deadline t rid dl db in
  (fst result = true <-> has_id db rid)
  /\ requests (snd result)
     = map (fun r => if id r =? rid then extended_row t dl r else r)
           (requests db)
  /\ map (fun r => (id r, status r, master_name r, completion_date r))
         (requests (snd result))
     = map (fun r => (id r, status r, master_name r, completion_date r))
           (requests db)
  /\ comments (snd result) = comments db.
Proof.
  cbv zeta. unfold extend_deadline, sql_update.
  cbn [fst snd requests comments].
  split; [apply rowcount_positive |].
  assert (Hrows :
    map (fun r => if id r =? rid
                  then fold_left assign
                         [Set_deadline dl; Set_updated_date t] r
                  else r) (requests db)
    = map (fun r => if id r =? rid then extended_row t dl r else r)
          (requests db)).
  { apply map_ext. intros r. now destruct (id r =? rid). }
  rewrite Hrows. split; [reflexivity |]. split; [| reflexivity].
  rewrite map_map. apply map_ext. intros r. now destruct (id r =? rid).
Qed.

(** ** Search *)

Lemma like_percent_unfold (p s : string) :
  like (String "%" p) s
  = like p s || match s with
                | String _ s' => like (String "%" p) s'
                | EmptyString => false
                end.
Proof. destruct s; reflexivity. Qed.

(** A pattern matches the text it spells, wildcards included. *)
Lemma like_itself (term p s : string) :
  like p s = true -> like (term ++ p) (term ++ s) = true.
Proof.
  intros H. induction term as [| c term IH]; [exact H |].
  cbn [append].
  destruct (Ascii.eqb_spec c "%") as [-> | Hp].
  - rewrite like_percent_unfold. apply orb_true_iff. right.
    apply like_percent. now exists EmptyString, (term ++ s).
  - destruct (Ascii.eqb_spec c "_") as [-> | Hu].
    + cbn [like]. change (Ascii.eqb "_" "%") with false.
      change (Ascii.eqb "_" "_") with true. cbv iota.
      exact IH.
    + cbn [like].
      destruct (Ascii.eqb_spec c "%"); [contradiction |].
      destruct (Ascii.eqb_spec c "_"); [contradiction |].
      unfold like_char. rewrite Ascii.eqb_refl. exact IH.
Qed.

Lemma like_occurrence (term s : string) :
  occurs_in term s -> like ("%" ++ term ++ "%") s = true.
Proof.
  intros [pre [post ->]].
  change ("%" ++ term ++ "%") with (String "%" (term ++ "%")).
  apply like_percent. exists pre, (term ++ post). split; [reflexivity |].
  apply like_itself, like_any.
Qed.

Lemma sql_like_occurrence (term s : string) :
  no_nul term = true -> no_nul s = true ->
  occurs_in term s -> sql_like ("%" ++ term ++ "%") s = true.
Proof.
  intros Hterm Hs Hocc. unfold sql_like.
  rewrite (c_text_no_nul s Hs), c_text_no_nul.
  - now apply like_occurrence.
  - rewrite !no_nul_app, Hterm. reflexivity.
Qed.

(** X7 ([Database.search_requests]).  A request in which the search term
    occurs literally, in the text of its identifier, the client name, the
    phone or the device model, is always among the results, also when the
    term holds the characters [%] and [_]: as wildcards they match
    themselves too.  The term is to have fewer than 49999 bytes and, like
    the field it occurs in, no NUL. *)
Theorem search_requests_finds_occurrences (term : string) (db : Database)
    (r : Request) (f : string)
    (Hnul : no_nul term = true) (Hlen : within_like_limit term = true)
    (Hin : In r (requests db)) (Hf : In f (search_fields r))
    (Hfield : no_nul f = true)
    (Hocc : occurs_in term f) :
  In r (search_requests term db).
Proof.
  unfold search_requests. apply order_by_In, filter_In.
  split; [exact Hin |]. unfold matches.
  apply (sql_like_occurrence term f Hnul Hfield) in Hocc.
  simpl in Hf. destruct Hf as [<- | [<- | [<- | [<- | []]]]];
    rewrite Hocc; rewrite ?orb_true_r; reflexivity.
Qed.

(** X8 ([Database.search_requests]).  The empty search term finds every
    stored request. *)
Theorem search_requests_empty_term (db : Database) :
  Permutation (search_requests EmptyString db) (requests db)
  /\ length (search_requests EmptyString db) = length (requests db).
Proof.
  assert (H : Permutation (search_requests EmptyString db) (requests db)).
  { unfold search_requests. rewrite order_by_perm.
    rewrite forallb_filter_id; [reflexivity |].
    apply forallb_forall. intros r _. unfold matches.
    cbn [append]. apply orb_true_iff. left. apply orb_true_iff. left.
    apply orb_true_iff. left. unfold sql_like.
    change (c_text "%%") with "%%".
    apply like_percent. exists EmptyString, (c_text (string_of_Z (id r))).
    split; [reflexivity | apply like_any]. }
  split; [exact H | now apply Permutation_length].
Qed.

(** ** What the repository writes, the analytics read *)

Lemma div_range (n b q : Z) :
  0 < b -> 0 <= n < b * q -> 0 <= n / b <= q - 1.
Proof.
  intros Hb Hn. split; [apply Z.div_pos; lia |].
  assert (n / b < q) by (apply Z.div_lt_upper_bound; lia). lia.
Qed.

Lemma string_app_assoc (a b c : string) : (a ++ b) ++ c = a ++ (b ++ c).
Proof. induction a as [| x a IH]; simpl; [reflexivity | now rewrite IH]. Qed.

Lemma code_digit_char (n : Z) :
  0 <= n <= 9 -> code (digit_char n) = 48 + n.
Proof.
  intros H. unfold code, digit_char.
  rewrite N_ascii_embedding; [lia |].
  change 256%N with (Z.to_N 256). apply Z2N.inj_lt; lia.
Qed.

Lemma is_digit_digit_char (n : Z) :
  0 <= n <= 9 -> is_digit (digit_char n) = true.
Proof.
  intros H. unfold is_digit. rewrite code_digit_char by assumption.
  apply andb_true_iff. split; apply Z.leb_le; lia.
Qed.

Lemma digit_val_digit_char (n : Z) :
  0 <= n <= 9 -> digit_val (digit_char n) = n.
Proof.
  intros H. unfold digit_val. rewrite code_digit_char by assumption. lia.
Qed.

Lemma span_digits_pad2 (n : Z) (rest : string) :
  0 <= n <= 99 ->
  fst (span_digits rest) = [] ->
  span_digits (pad2 n ++ rest) = ([n / 10; n mod 10], rest).
Proof.
  intros Hn Hrest. unfold pad2. cbn [append span_digits].
  assert (H1 : 0 <= n / 10 <= 9).
  { apply div_range with (b := 10) (q := 10); lia. }
  assert (H2 : 0 <= n mod 10 <= 9) by (pose proof (Z.mod_pos_bound n 10); lia).
  rewrite !is_digit_digit_char, !digit_val_digit_char by assumption.
  destruct rest as [| c rest']; [reflexivity |].
  cbn [span_digits] in *.
  destruct (is_digit c); [| reflexivity].
  destruct (span_digits rest'). discriminate.
Qed.

Lemma re_field_pad2 (lo hi n : Z) (rest : string) :
  0 <= n <= 99 -> lo <= n <= hi ->
  fst (span_digits rest) = [] ->
  re_field lo hi (pad2 n ++ rest) = Some (n, rest).
Proof.
  intros Hn Hr Hrest. unfold re_field.
  rewrite span_digits_pad2 by assumption.
  cbn [length Nat.eqb orb digits_value fold_left].
  assert (Hv : 10 * (10 * 0 + n / 10) + n mod 10 = n).
  { pose proof (Z.div_mod n 10). lia. }
  rewrite Hv.
  destruct (Z.leb_spec lo n); [| lia]. destruct (Z.leb_spec n hi); [| lia].
  reflexivity.
Qed.

Lemma span_digits_pad4 (n : Z) (rest : string) :
  0 <= n <= 9999 ->
  fst (span_digits rest) = [] ->
  span_digits (pad4 n ++ rest)
  = ([n / 100 / 10; (n / 100) mod 10; (n mod 100) / 10; (n mod 100) mod 10],
     rest).
Proof.
  intros Hn Hrest. unfold pad4.
  assert (H1 : 0 <= n / 100 <= 99).
  { apply div_range with (b := 100) (q := 100); lia. }
  assert (H2 : 0 <= n mod 100 <= 99)
    by (pose proof (Z.mod_pos_bound n 100); lia).
  assert (Hp : forall k, 0 <= k <= 99 -> forall s,
                 span_digits (pad2 k ++ s)
                 = (let (ds, r) := span_digits s in
                    (k / 10 :: k mod 10 :: ds, r))).
  { intros k Hk s. unfold pad2. cbn [append span_digits].
    assert (0 <= k / 10 <= 9).
    { apply div_range with (b := 10) (q := 10); lia. }
    assert (0 <= k mod 10 <= 9) by (pose proof (Z.mod_pos_bound k 10); lia).
    rewrite !is_digit_digit_char, !digit_val_digit_char by assumption.
    now destruct (span_digits s). }
  rewrite string_app_assoc, (Hp _ H1).
  rewrite span_digits_pad2 by assumption. reflexivity.
Qed.

Lemma re_year_pad4 (n : Z) (rest : string) :
  0 <= n <= 9999 ->
  fst (span_digits rest) = [] ->
  re_year (pad4 n ++ rest) = Some (n, rest).
Proof.
  intros Hn Hrest. unfold re_year.
  rewrite span_digits_pad4 by assumption.
  cbn [length Nat.eqb digits_value fold_left]. do 2 f_equal.
  pose proof (Z.div_mod n 100). pose proof (Z.div_mod (n / 100) 10).
  pose proof (Z.div_mod (n mod 100) 10). lia.
Qed.

Lemma pad2_not_blank (n : Z) (rest : string) :
  0 <= n <= 99 ->
  re_day (pad2 n ++ rest) = re_field 1 31 (pad2 n ++ rest).
Proof.
  intros Hn. unfold re_day, pad2. cbn [append].
  assert (H1 : 0 <= n / 10 <= 9).
  { apply div_range with (b := 10) (q := 10); lia. }
  pose proof (code_digit_char (n / 10) H1) as Hc.
  destruct (digit_char (n / 10)) as [b0 b1 b2 b3 b4 b5 b6 b7] eqn:E.
  destruct b0, b1, b2, b3, b4, b5, b6, b7; try reflexivity.
  exfalso.
  change (code (Ascii false false false false false true false false))
    with 32 in Hc.
  lia.
Qed.

(** X9 ([datetime.now().strftime] in [database.py], [datetime.strptime] in
    [algorithms.py]).  For every valid point in time from the year 1000 on,
    the text the repository writes with ["%Y-%m-%d %H:%M:%S"] is parsed back
    by the analytics to the same point in time. *)
Theorem strptime_strftime (d : datetime)
    (Hvalid : valid_datetime d = true) (Hyear : 1000 <= year d) :
  strptime (strftime d) Fmt_Ymd_HMS = Ok d
  /\ timestamp (strftime d) = Some (epoch_seconds d).
Proof.
  assert (H : strptime (strftime d) Fmt_Ymd_HMS = Ok d).
  { unfold valid_datetime in Hvalid.
    repeat (apply andb_prop in Hvalid as [Hvalid ?]).
    repeat match goal with
           | H : (_ <=? _) = true |- _ => apply Z.leb_le in H
           end.
    pose proof (Z.leb_spec (day d) 31).
    assert (Hdim : days_in_month (year d) (month d) <= 31).
    { unfold days_in_month.
      destruct (month d =? 2); [destruct (is_leap (year d)); lia |].
      destruct ((month d =? 4) || (month d =? 6) || (month d =? 9)
                || (month d =? 11)); lia. }
    unfold strptime, parse_datetime, strftime, re_date, re_time.
    rewrite re_year_pad4 by (try lia; reflexivity).
    cbn [obind re_char append]. rewrite Ascii.eqb_refl. cbn [obind].
    rewrite re_field_pad2 by (try lia; reflexivity).
    cbn [obind re_char append]. rewrite Ascii.eqb_refl. cbn [obind].
    rewrite pad2_not_blank by lia.
    rewrite re_field_pad2 by (try lia; reflexivity).
    cbn [obind re_spaces append].
    change (is_space " ") with true. cbv iota. cbn [obind].
    assert (Hsk : forall n s, 0 <= n <= 99 ->
                    skip_spaces (pad2 n ++ s) = pad2 n ++ s).
    { intros n s Hn. unfold pad2. cbn [append skip_spaces].
      assert (Hq : 0 <= n / 10 <= 9).
      { apply div_range with (b := 10) (q := 10); lia. }
      unfold is_space. rewrite (code_digit_char _ Hq).
      destruct (Z.leb_spec 9 (48 + n / 10)); [| lia].
      destruct (Z.leb_spec (48 + n / 10) 13); [lia |].
      destruct (Z.leb_spec 28 (48 + n / 10)); [| lia].
      destruct (Z.leb_spec (48 + n / 10) 32); [lia |]. reflexivity. }
    rewrite Hsk by lia. cbn [obind].
    rewrite re_field_pad2 by (try lia; reflexivity).
    cbn [obind re_char append]. rewrite Ascii.eqb_refl. cbn [obind].
    rewrite re_field_pad2 by (try lia; reflexivity).
    cbn [obind re_char append]. rewrite Ascii.eqb_refl. cbn [obind].
    replace (pad2 (second d)) with (pad2 (second d) ++ EmptyString)
      by (unfold pad2; reflexivity).
    rewrite re_field_pad2 by (try lia; reflexivity). cbn [obind].
    destruct d as [y mo da h mi se]. cbn [year month day hour minute second] in *.
    unfold valid_datetime. cbn [year month day hour minute second].
    repeat match goal with
           | H : ?a <= ?b |- context [?a <=? ?b] =>
               rewrite (proj2 (Z.leb_le a b) H)
           end.
    reflexivity. }
  split; [exact H |]. unfold timestamp. now rewrite H.
Qed.

(** ** Timestamps over histories *)

Lemma stamps_parse_well_formed (db : Database) :
  stamps_parse db -> well_formed_timestamps db = true.
Proof.
  intros H. unfold well_formed_timestamps. apply forallb_forall.
  intros r Hin. destruct (H r Hin) as [Hc Hd]. unfold well_formed_request.
  destruct (completion_date r) as [c |]; [| reflexivity].
  now rewrite Hc, (Hd c eq_refl).
Qed.

Lemma act_stamps_parse (db : Database) (a : Action) :
  stamps_parse db ->
  forallb (fun t => is_some (timestamp t)) (reading a) = true ->
  stamps_parse (act db a).
Proof.
  intros Hinv Hread. destruct a as [op | rid]; cbn [act reading forallb] in *.
  - rewrite andb_true_r in Hread. intros r' Hin.
    apply step_In_inv in Hin as [[r [Hin ->]] | Hnew].
    + destruct (Hinv r Hin) as [Hc Hd].
      rewrite touch_created_date, touch_completion_date.
      split; [exact Hc |]. intros c.
      destruct op as [| t rid st m | |]; auto.
      destruct ((id r =? rid) && is_closing_status st); auto.
      now intros [= <-].
    + apply inserted_fresh in Hnew as [_ [Hc Hcr]]. rewrite Hcr, Hc.
      split; [exact Hread | discriminate].
  - intros r Hin. apply filter_In in Hin as [Hin _]. now apply Hinv.
Qed.

Lemma perform_stamps_parse (acts : list Action) (db : Database) :
  stamps_parse db ->
  forallb (fun t => is_some (timestamp t)) (flat_map reading acts) = true ->
  stamps_parse (perform acts db).
Proof.
  revert db. induction acts as [| a acts IH]; intros db Hinv Hread;
    [assumption |].
  cbn [flat_map] in Hread. rewrite forallb_app in Hread.
  apply andb_prop in Hread as [Ha Hrest].
  apply IH; [now apply act_stamps_parse | exact Hrest].
Qed.

(** X10 ([Database] operations, [calculate_average_repair_time]).  When
    every clock reading is a timestamp, every store reached from the empty
    one by the operations of the repository and by deletions holds parsable
    creation and completion dates only; on such a store the loop of
    [calculate_average_repair_time] ends without an exception, with the
    hours of each request that has a completion date, one float for each of
    them. *)
Theorem reachable_store_is_well_formed (acts : list Action)
    (Hclock :
       forallb (fun t => is_some (timestamp t)) (flat_map reading acts)
       = true) :
  let db := perform acts empty_database in
  well_formed_timestamps db = true
  /\ for_each repair_loop_body (select_completed db) []
     = Ok (map binary64 (flat_map repair_hours (requests db)))
  /\ length (flat_map repair_hours (requests db))
     = length (filter (fun r => is_some (completion_date r)) (requests db)).
Proof.
  cbv zeta.
  assert (Hwf : well_formed_timestamps (perform acts empty_database) = true).
  { apply stamps_parse_well_formed, perform_stamps_parse; [| exact Hclock].
    intros r []. }
  split; [exact Hwf |]. split; [| now apply repair_hours_length].
  unfold select_completed.
  now rewrite (repair_loop_well_formed _ [] Hwf).
Qed.

(** ** The average is never negative *)

Lemma act_time_ordered (db : Database) (a : Action) (prev : option Z) :
  time_ordered db prev ->
  clock_monotone prev (reading a) = true ->
  exists prev', time_ordered (act db a) prev'
                /\ forall rest, clock_monotone prev (reading a ++ rest)
                                = clock_monotone prev' rest.
Proof.
  intros Hinv Hmono. destruct a as [op | rid]; cbn [act reading] in *.
  - cbn [clock_monotone] in Hmono.
    destruct (timestamp (clock op)) as [z |] eqn:Hz; [| discriminate].
    rewrite andb_true_r in Hmono.
    exists (Some z). split.
    + now apply step_time_ordered with (prev := prev).
    + intros rest. cbn [app clock_monotone]. now rewrite Hz, Hmono.
  - exists prev. split; [| reflexivity].
    intros r Hin. apply filter_In in Hin as [Hin _]. now apply Hinv.
Qed.

Lemma clock_monotone_app (prev : option Z) (a b : list string) :
  clock_monotone prev (a ++ b) = true -> clock_monotone prev a = true.
Proof.
  revert prev. induction a as [| t a IH]; intros prev H; [reflexivity |].
  cbn [app clock_monotone] in *.
  destruct (timestamp t); [| discriminate].
  apply andb_prop in H as [H1 H2]. rewrite H1. cbn [andb]. now apply IH in H2.
Qed.

Lemma perform_time_ordered (acts : list Action) :
  forall (db : Database) (prev : option Z),
    time_ordered db prev ->
    clock_monotone prev (flat_map reading acts) = true ->
    exists prev', time_ordered (perform acts db) prev'.
Proof.
  induction acts as [| a acts IH]; intros db prev Hinv Hmono.
  - now exists prev.
  - cbn [flat_map] in Hmono.
    destruct (act_time_ordered db a prev Hinv
                (clock_monotone_app _ _ _ Hmono)) as [prev' [Hinv' Heq]].
    rewrite Heq in Hmono. now apply (IH (act db a) prev').
Qed.

Open Scope Q_scope.

Lemma repair_hours_nonneg (rs : list Request) :
  (forall r c, In r rs -> completion_date r = Some c ->
               timestamp_le (created_date r) c = true) ->
  forall x, In x (flat_map repair_hours rs) -> 0 <= x.
Proof.
  intros H x Hx. apply in_flat_map in Hx as [r [Hr Hx]].
  unfold repair_hours in Hx.
  destruct (completion_date r) as [c |] eqn:Hc; [| destruct Hx].
  specialize (H r c Hr Hc). unfold timestamp_le, timestamp in H.
  destruct (strptime (created_date r) Fmt_Ymd_HMS) as [d1 |];
    [| destruct Hx].
  destruct (strptime c Fmt_Ymd_HMS) as [d2 |]; [| destruct Hx].
  destruct Hx as [<- | []]. apply Z.leb_le in H.
  unfold hours_between, Qdiv.
  apply Qmult_le_0_compat; [| vm_compute; discriminate].
  rewrite <- (Zle_Qle 0). lia.
Qed.

Close Scope Q_scope.

(** X11 ([calculate_average_repair_time]).  Over every history whose clock
    readings never decrease, the average repair time is not negative. *)
Theorem average_repair_time_nonnegative (acts : list Action)
    (Hclock : clock_monotone None (flat_map reading acts) = true) :
  (0 <= calculate_average_repair_time (Ok (perform acts empty_database)))%Q.
Proof.
  destruct (perform_time_ordered acts empty_database None) as [prev Hord];
    [intros r [] | exact Hclock |].
  assert (Hwf : well_formed_timestamps (perform acts empty_database) = true).
  { apply forallb_forall. intros r Hin. destruct (Hord r Hin) as [Hc Hd].
    unfold well_formed_request.
    destruct (completion_date r) as [c |]; [| reflexivity].
    specialize (Hd c eq_refl). unfold timestamp_le in Hd.
    destruct (timestamp (created_date r)); [| discriminate].
    destruct (timestamp c); [reflexivity | discriminate]. }
  rewrite (average_repair_time_value _ Hwf).
  apply float_mean_rounded_nonneg, repair_hours_nonneg. intros r c Hin Hc.
  now apply (Hord r Hin).
Qed.

(** ** Statistics by device *)

Lemma filter_length_perm {A : Type} (f : A -> bool) (l l' : list A) :
  Permutation l l' -> length (filter f l) = length (filter f l').
Proof.
  induction 1 as [| x l l' _ IH | x y l | l l' l'' _ IH1 _ IH2]; simpl.
  - reflexivity.
  - destruct (f x); simpl; now rewrite IH.
  - destruct (f x), (f y); reflexivity.
  - now rewrite IH1.
Qed.

Lemma acc_for_upd (k k' : string) (f : DeviceAcc -> DeviceAcc)
    (d : list (string * DeviceAcc)) :
  acc_for k' (dict_upd String.eqb k (mk_device_acc 0 0 [] []) f d)
  = if String.eqb k' k then f (acc_for k d) else acc_for k' d.
Proof.
  unfold acc_for, dict_upd.
  destruct (dict_get String.eqb k d) as [a |] eqn:E;
    rewrite (dict_get_set String.eqb String.eqb_eq);
    now destruct (String.eqb k' k).
Qed.

Lemma keys_upd (k : string) (f : DeviceAcc -> DeviceAcc)
    (d : list (string * DeviceAcc)) :
  NoDup (map fst d) ->
  NoDup (map fst (dict_upd String.eqb k (mk_device_acc 0 0 [] []) f d))
  /\ forall k', In k' (map fst (dict_upd String.eqb k
                                  (mk_device_acc 0 0 [] []) f d))
                <-> k' = k \/ In k' (map fst d).
Proof.
  intros Hnd. unfold dict_upd.
  assert (H : forall v,
    NoDup (map fst (dict_set String.eqb k v d))
    /\ forall k', In k' (map fst (dict_set String.eqb k v d))
                  <-> k' = k \/ In k' (map fst d)).
  { intros v. split; [now apply dict_set_NoDup; [apply String.eqb_eq |] |].
    intros k'. rewrite (dict_set_keys String.eqb).
    destruct (dict_get String.eqb k d) as [a |] eqn:E.
    - apply (dict_get_In String.eqb String.eqb_eq) in E.
      apply (in_map fst) in E. cbn [fst] in E.
      split; [tauto |]. intros [-> | H]; tauto.
    - rewrite in_app_iff. simpl. intuition. }
  destruct (dict_get String.eqb k d); apply H.
Qed.

(** One pass of the loop body over a well-formed request. *)
Lemma device_step_Ok (acc : list (string * DeviceAcc)) (r : Request) :
  NoDup (map fst acc) ->
  well_formed_request r = true ->
  exists acc',
    device_step acc r = Ok acc'
    /\ NoDup (map fst acc')
    /\ (forall k, In k (map fst acc')
                  <-> k = device_type r \/ In k (map fst acc))
    /\ (forall k, String.eqb k (device_type r) = false ->
                  acc_for k acc' = acc_for k acc)
    /\ acc_total (acc_for (device_type r) acc')
       = acc_total (acc_for (device_type r) acc) + 1
    /\ acc_completed (acc_for (device_type r) acc')
       = acc_completed (acc_for (device_type r) acc)
         + (if counts_as_completed r then 1 else 0)
    /\ acc_problems (acc_for (device_type r) acc')
       = bump (acc_problems (acc_for (device_type r) acc))
              (problem_description r)
    /\ acc_repair_times (acc_for (device_type r) acc')
       = (acc_repair_times (acc_for (device_type r) acc)
          ++ (if counts_as_completed r then map binary64 (repair_hours r)
              else []))%list.
Proof.
  intros Hnd Hwf. unfold device_step.
  set (first_upd := dict_upd String.eqb (device_type r)
                      (mk_device_acc 0 0 [] []) _ acc).
  destruct (keys_upd (device_type r)
              (fun a => mk_device_acc (acc_total a + 1) (acc_completed a)
                          (acc_repair_times a)
                          (dict_upd String.eqb (problem_description r) 0
                             (fun n => n + 1) (acc_problems a)))
              acc Hnd) as [Hnd1 Hkeys1].
  fold first_upd in Hnd1, Hkeys1.
  fold (counts_as_completed r).
  destruct (counts_as_completed r) eqn:Hcc.
  - unfold counts_as_completed in Hcc. apply andb_prop in Hcc as [_ Ht].
    destruct (completion_date r) as [c |] eqn:Hc; [| discriminate].
    destruct (elapsed_hours_well_formed r c Hc Hwf) as [h [Hh Hrep]].
    cbn [sql_opt]. rewrite Hh, Hrep. cbn [bind map].
    eexists. split; [reflexivity |].
    destruct (keys_upd (device_type r)
                (fun a => mk_device_acc (acc_total a) (acc_completed a + 1)
                            (acc_repair_times a ++ [binary64 h])
                            (acc_problems a))
                first_upd Hnd1) as [Hnd2 Hkeys2].
    split; [exact Hnd2 |]. split.
    { intros k. rewrite Hkeys2, Hkeys1. tauto. }
    split.
    { intros k Hk. rewrite acc_for_upd, Hk. subst first_upd.
      now rewrite acc_for_upd, Hk. }
    rewrite acc_for_upd, String.eqb_refl. subst first_upd.
    rewrite acc_for_upd, String.eqb_refl.
    cbn [acc_total acc_completed acc_problems acc_repair_times].
    repeat split; lia.
  - eexists. split; [reflexivity |].
    split; [exact Hnd1 |]. split; [exact Hkeys1 |]. split.
    { intros k Hk. subst first_upd. now rewrite acc_for_upd, Hk. }
    subst first_upd. rewrite acc_for_upd, String.eqb_refl.
    cbn [acc_total acc_completed acc_problems acc_repair_times].
    rewrite app_nil_r. repeat split; lia.
Qed.

(** The loop as a whole. *)
Lemma device_loop (rows : list Request) :
  forall acc, NoDup (map fst acc) ->
    forallb well_formed_request rows = true ->
    exists acc',
      for_each device_step rows acc = Ok acc'
      /\ NoDup (map fst acc')
      /\ (forall k, In k (map fst acc')
                    <-> In k (map fst acc) \/ In k (map device_type rows))
      /\ (forall k,
            acc_total (acc_for k acc')
            = acc_total (acc_for k acc)
              + Z.of_nat (length (of_device k rows))
            /\ acc_completed (acc_for k acc')
               = acc_completed (acc_for k acc)
                 + Z.of_nat (length (filter counts_as_completed
                                            (of_device k rows)))
            /\ acc_problems (acc_for k acc')
               = fold_left bump
                   (map problem_description (of_device k rows))
                   (acc_problems (acc_for k acc))
            /\ acc_repair_times (acc_for k acc')
               = (acc_repair_times (acc_for k acc)
                  ++ map binary64
                       (flat_map repair_hours
                          (filter counts_as_completed
                                  (of_device k rows))))%list).
Proof.
  induction rows as [| r rows IH]; intros acc Hnd Hwf.
  - exists acc. cbn. repeat split; try tauto; try lia.
    now rewrite app_nil_r.
  - cbn [forallb] in Hwf. apply andb_prop in Hwf as [Hr Hrows].
    destruct (device_step_Ok acc r Hnd Hr)
      as [acc1 [Hstep [Hnd1 [Hkeys1 [Hother [Ht [Hc [Hp Hl]]]]]]]].
    destruct (IH acc1 Hnd1 Hrows) as [acc' [Hloop [Hnd' [Hkeys' Hacc']]]].
    exists acc'. cbn [for_each]. rewrite Hstep. cbn [bind].
    split; [exact Hloop |]. split; [exact Hnd' |]. split.
    { intros k. rewrite Hkeys', Hkeys1. cbn [map In].
      split; intros H; intuition. }
    intros k. destruct (Hacc' k) as [Ht' [Hc' [Hp' Hl']]].
    unfold of_device in *. cbn [filter].
    destruct (String.eqb_spec (device_type r) k) as [<- | Hne].
    + rewrite Ht', Hc', Hp', Hl', Ht, Hc, Hp, Hl.
      cbn [filter map fold_left].
      destruct (counts_as_completed r); cbn [length flat_map];
        rewrite ?map_app, <- ?app_assoc, ?app_nil_l; repeat split; lia.
    + assert (Hk : String.eqb k (device_type r) = false).
      { apply String.eqb_neq. congruence. }
      rewrite Ht', Hc', Hp', Hl', (Hother k Hk). repeat split.
Qed.

Lemma filter_perm {A : Type} (f : A -> bool) (l l' : list A) :
  Permutation l l' -> Permutation (filter f l) (filter f l').
Proof.
  induction 1 as [| x l l' _ IH | x y l | l l' l'' _ IH1 _ IH2]; simpl.
  - constructor.
  - destruct (f x); [now constructor | assumption].
  - destruct (f x), (f y); try reflexivity. apply perm_swap.
  - now transitivity (filter f l').
Qed.

Lemma statistics_mean_rounded (hours : list Q) :
  match statistics_mean (map binary64 hours) with
  | Ok m => float_round2 m
  | Raise _ => 0%Q
  end = float_mean_rounded hours.
Proof.
  destruct hours as [| h hs]; [reflexivity |].
  unfold float_mean_rounded. cbn [map statistics_mean length].
  now rewrite length_map.
Qed.

Lemma Qmean_perm (l l' : list Q) :
  Permutation l l' -> (Qmean l == Qmean l')%Q.
Proof.
  intros H. unfold Qmean.
  now rewrite (Qsum_perm _ _ H), (Permutation_length H).
Qed.

Lemma rounded_to_2_decimals_comp (slack x x' y : Q) :
  (x == x')%Q ->
  rounded_to_2_decimals slack x y -> rounded_to_2_decimals slack x' y.
Proof.
  intros H [k [Hy Hk]]. exists k. split; [exact Hy |]. now rewrite <- H.
Qed.

(** [max] returns an item, and no item has a larger count. *)
Lemma max_by_count_spec (items : list (string * Z)) :
  forall best,
    In (max_by_count best items) (best :: items)
    /\ forall x, In x (best :: items) ->
                 snd x <= snd (max_by_count best items).
Proof.
  induction items as [| y items IH]; intros best; cbn [max_by_count].
  - split; [now left |]. intros x [<- | []]. lia.
  - destruct (Z.ltb_spec (snd best) (snd y)) as [Hlt | Hge].
    + destruct (IH y) as [Hin Hmax]. split.
      * right. exact Hin.
      * intros x [<- | Hx]; [| now apply Hmax].
        specialize (Hmax y (or_introl eq_refl)). lia.
    + destruct (IH best) as [Hin Hmax]. split.
      * destruct Hin as [<- | Hin]; [now left | right; now right].
      * intros x [<- | [<- | Hx]].
        -- apply Hmax. now left.
        -- specialize (Hmax best (or_introl eq_refl)). lia.
        -- apply Hmax. now right.
Qed.

(** What the loop has gathered for a device type when it ends. *)
Lemma device_entries (db : Database) :
  well_formed_timestamps db = true ->
  exists acc,
    calculate_request_statistics_by_device (Ok db)
    = map (fun '(k, stats) => (k, device_result stats)) acc
    /\ NoDup (map fst acc)
    /\ (forall k, In k (map fst acc)
                  <-> exists r, In r (requests db) /\ device_type r = k)
    /\ forall k stats, In (k, stats) acc ->
         acc_total stats = Z.of_nat (length (of_device k (requests db)))
         /\ acc_completed stats
            = Z.of_nat (length (filter counts_as_completed
                                       (of_device k (requests db))))
         /\ acc_problems stats
            = fold_left bump
                (map problem_description
                     (of_device k (select_by_device db))) []
         /\ acc_repair_times stats
            = map binary64
                (flat_map repair_hours
                   (filter counts_as_completed
                           (of_device k (select_by_device db)))).
Proof.
  intros Hwf. unfold well_formed_timestamps in Hwf.
  assert (Hperm : Permutation (select_by_device db) (requests db))
    by apply order_by_perm.
  assert (Hwf' : forallb well_formed_request (select_by_device db) = true).
  { apply forallb_forall. intros r Hr.
    apply (Permutation_in _ Hperm) in Hr.
    now apply (proj1 (forallb_forall _ _) Hwf). }
  destruct (device_loop (select_by_device db) [] (NoDup_nil _) Hwf')
    as [acc [Hloop [Hnd [Hkeys Hacc]]]].
  exists acc. unfold calculate_request_statistics_by_device.
  cbn [bind]. rewrite Hloop. cbn [bind try_except].
  split; [reflexivity |]. split; [exact Hnd |]. split.
  - intros k. rewrite Hkeys. cbn [map In]. rewrite in_map_iff. split.
    + intros [[] | [r [Hr Hin]]]. exists r.
      split; [now apply (Permutation_in _ Hperm) | exact Hr].
    + intros [r [Hin Hr]]. right. exists r.
      split; [exact Hr | now apply (Permutation_in _ (Permutation_sym Hperm))].
  - intros k stats Hin.
    apply (In_dict_get String.eqb String.eqb_eq _ _ _ Hnd) in Hin.
    destruct (Hacc k) as [Ht [Hc [Hp Hl]]].
    unfold acc_for in Ht, Hc, Hp, Hl. rewrite Hin in Ht, Hc, Hp, Hl.
    cbn [dict_get acc_total acc_completed acc_problems acc_repair_times
         app] in Ht, Hc, Hp, Hl.
    rewrite Ht, Hc, Hp, Hl. unfold of_device.
    rewrite (filter_length_perm _ _ _ Hperm).
    rewrite (filter_length_perm counts_as_completed _ _
               (filter_perm (fun r => String.eqb (device_type r) k) _ _ Hperm)).
    repeat split; lia.
Qed.

(** X12 ([calculate_request_statistics_by_device]).  On a store whose dates
    parse, the result has one entry for each device type that occurs among
    the requests and no other; [total_requests] counts the requests of the
    type and is at least 1, [completed_requests] counts those in status
    "Завершена" with a non-empty completion date;
    [average_repair_time_hours] is 0.0 when there is none of these and
    otherwise the mean of their repair hours rounded to two decimals, and
    [completion_rate] is the share of the completed ones in percent rounded
    to two decimals, both as floats: the float of a number of two decimals
    within half a hundredth, and the rounding of the float operations, of
    the exact value. *)
Theorem statistics_by_device_spec (db : Database)
    (Hwf : well_formed_timestamps db = true) :
  let result := calculate_request_statistics_by_device (Ok db) in
  NoDup (map fst result)
  /\ (forall k, In k (map fst result)
                <-> exists r, In r (requests db) /\ device_type r = k)
  /\ (forall k s, In (k, s) result ->
        let closed := filter counts_as_completed
                             (of_device k (requests db)) in
        total_requests s = Z.of_nat (length (of_device k (requests db)))
        /\ completed_requests s = Z.of_nat (length closed)
        /\ 1 <= total_requests s
        /\ 0 <= completed_requests s <= total_requests s
        /\ (closed = [] -> average_repair_time_hours s = 0%Q)
        /\ (closed <> [] ->
            length (flat_map repair_hours closed) = length closed
            /\ rounded_to_2_decimals (1 # 10000000)
                 (Qmean (flat_map repair_hours closed))
                 (average_repair_time_hours s))
        /\ rounded_to_2_decimals (1 # 1000000000000)
             (inject_Z (completed_requests s)
              / inject_Z (total_requests s) * 100)
             (completion_rate s)).
Proof.
  cbv zeta. destruct (device_entries db Hwf) as [acc [-> [Hnd [Hkeys Hacc]]]].
  assert (Hfst : map fst (map (fun '(k, stats) => (k, device_result stats)) acc)
                 = map fst acc).
  { rewrite map_map. apply map_ext. now intros [k stats]. }
  rewrite Hfst. split; [exact Hnd |]. split; [exact Hkeys |].
  intros k s Hin. apply in_map_iff in Hin as [[k' stats] [[= -> <-] Hin]].
  destruct (Hacc k stats Hin) as [Ht [Hc [_ Hl]]].
  assert (Hk : In k (map fst acc)).
  { change k with (fst (k, stats)). now apply in_map. }
  apply Hkeys in Hk as [r0 [Hr0 Hd0]].
  assert (Hpos : (0 < length (of_device k (requests db)))%nat).
  { assert (Hin0 : In r0 (of_device k (requests db))).
    { apply filter_In. split; [exact Hr0 |]. now apply String.eqb_eq. }
    destruct (of_device k (requests db)); [destruct Hin0 | simpl; lia]. }
  pose proof (filter_length_le counts_as_completed
                (of_device k (requests db))) as Hle.
  assert (Hperm : Permutation
                    (filter counts_as_completed
                            (of_device k (select_by_device db)))
                    (filter counts_as_completed (of_device k (requests db)))).
  { unfold of_device. apply filter_perm, filter_perm, order_by_perm. }
  assert (Hhours : Permutation
                     (flat_map repair_hours
                        (filter counts_as_completed
                                (of_device k (select_by_device db))))
                     (flat_map repair_hours
                        (filter counts_as_completed
                                (of_device k (requests db)))))
    by now apply Permutation_flat_map.
  assert (Hwfc : forallb well_formed_request
                   (filter counts_as_completed (of_device k (requests db)))
                 = true).
  { apply forallb_forall. intros r Hr.
    apply filter_In in Hr as [Hr _]. apply filter_In in Hr as [Hr _].
    now apply (proj1 (forallb_forall _ _) Hwf). }
  assert (Hall : forall r,
            In r (filter counts_as_completed (of_device k (requests db))) ->
            is_some (completion_date r) = true).
  { intros r Hr. apply filter_In in Hr as [_ Hr].
    unfold counts_as_completed in Hr. apply andb_prop in Hr as [_ Hr].
    now destruct (completion_date r). }
  assert (Hlen : length (flat_map repair_hours
                           (filter counts_as_completed
                                   (of_device k (requests db))))
                 = length (filter counts_as_completed
                                  (of_device k (requests db)))).
  { rewrite (repair_hours_length _ Hwfc). f_equal.
    apply forallb_filter_id. now apply forallb_forall. }
  unfold device_result.
  cbn [total_requests completed_requests average_repair_time_hours
       completion_rate].
  rewrite Ht, Hc, Hl, statistics_mean_rounded.
  split; [reflexivity |]. split; [reflexivity |].
  split; [lia |]. split; [lia |]. split; [| split].
  - intros Hnil. rewrite Hnil in Hhours.
    apply Permutation_sym, Permutation_nil in Hhours. now rewrite Hhours.
  - intros Hne. split; [exact Hlen |].
    apply (rounded_to_2_decimals_comp _ _ _ _ (Qmean_perm _ _ Hhours)).
    apply float_mean_rounded_spec.
    + intros Hnil. rewrite Hnil in Hhours.
      apply Permutation_nil in Hhours.
      rewrite Hhours in Hlen. cbn [length] in Hlen.
      destruct (filter counts_as_completed (of_device k (requests db)));
        [contradiction | discriminate].
    + intros h Hh. apply in_flat_map in Hh as [r [_ Hh]].
      now apply (repair_hours_bound r).
  - destruct (Z.ltb_spec 0 (Z.of_nat (length (of_device k (requests db)))));
      [| lia].
    apply percentage_spec; lia.
Qed.

Lemma count_problem_tally (k p : string) (rows : list Request) :
  Z.of_nat (length (filter (String.eqb p)
                           (map problem_description (of_device k rows))))
  = count_problem k p rows.
Proof.
  unfold count_problem, of_device. f_equal.
  induction rows as [| r rows IH]; cbn [filter map]; [reflexivity |].
  destruct (String.eqb (device_type r) k); cbn [andb filter map];
    [| exact IH].
  destruct (String.eqb p (problem_description r)); cbn [length];
    now rewrite IH.
Qed.

Lemma count_problem_perm (k p : string) (rs rs' : list Request) :
  Permutation rs rs' -> count_problem k p rs = count_problem k p rs'.
Proof.
  intros H. unfold count_problem. f_equal. now apply filter_length_perm.
Qed.

(** X13 ([calculate_request_statistics_by_device]).  On a store whose dates
    parse, [most_common_problem] of a device type is the problem description
    of one of its requests, and no problem description occurs more often
    among the requests of that type. *)
Theorem most_common_problem_spec (db : Database) (k : string)
    (s : DeviceStats)
    (Hwf : well_formed_timestamps db = true)
    (Hin : In (k, s) (calculate_request_statistics_by_device (Ok db))) :
  (exists r, In r (requests db) /\ device_type r = k
             /\ problem_description r = most_common_problem s)
  /\ forall r', In r' (requests db) -> device_type r' = k ->
       count_problem k (problem_description r') (requests db)
       <= count_problem k (most_common_problem s) (requests db).
Proof.
  destruct (device_entries db Hwf) as [acc [Heq [Hnd [Hkeys Hacc]]]].
  rewrite Heq in Hin.
  apply in_map_iff in Hin as [[k' stats] [[= -> <-] Hin]].
  destruct (Hacc k stats Hin) as [_ [_ [Hp _]]].
  assert (Hperm : Permutation (select_by_device db) (requests db))
    by apply order_by_perm.
  set (rows := select_by_device db) in *.
  set (problems := map problem_description (of_device k rows)) in *.
  assert (Htnd : NoDup (map fst (fold_left bump problems []))).
  { apply tally_NoDup. constructor. }
  assert (Hcount : forall p n, In (p, n) (fold_left bump problems []) ->
                     n = count_problem k p (requests db)).
  { intros p n Hpn.
    apply (In_dict_get String.eqb String.eqb_eq _ _ _ Htnd) in Hpn.
    pose proof (tally_get problems [] p) as Hget.
    unfold getz in Hget. rewrite Hpn in Hget. cbn [dict_get] in Hget.
    subst problems. rewrite count_problem_tally in Hget.
    rewrite <- (count_problem_perm k p _ _ Hperm). lia. }
  assert (Hmem : forall p, In p (map fst (fold_left bump problems []))
                           <-> In p problems).
  { intros p. rewrite tally_keys. cbn [map In]. tauto. }
  assert (Hrow : forall p, In p problems <->
                   exists r, In r (requests db) /\ device_type r = k
                             /\ problem_description r = p).
  { intros p. subst problems. rewrite in_map_iff. unfold of_device. split.
    - intros [r [Hr Hf]]. apply filter_In in Hf as [Hf Hd].
      exists r. apply String.eqb_eq in Hd.
      split; [now apply (Permutation_in _ Hperm) |]. auto.
    - intros [r [Hr [Hd Hpr]]]. exists r. split; [exact Hpr |].
      apply filter_In.
      split; [now apply (Permutation_in _ (Permutation_sym Hperm)) |].
      now apply String.eqb_eq. }
  unfold device_result. cbn [most_common_problem]. rewrite Hp.
  destruct (fold_left bump problems []) as [| first rest] eqn:Et.
  { exfalso.
    assert (Hk : In k (map fst acc)).
    { change k with (fst (k, stats)). now apply in_map. }
    apply Hkeys in Hk as [r0 [Hr0 Hd0]].
    assert (Hp0 : In (problem_description r0) problems).
    { apply Hrow. now exists r0. }
    apply Hmem in Hp0. destruct Hp0. }
  destruct (max_by_count_spec rest first) as [Hbest Hmax].
  set (best := max_by_count first rest) in *.
  split.
  - apply Hrow, Hmem.
    change (fst best) with (fst (fst best, snd best)).
    apply in_map. now destruct best.
  - intros r' Hr' Hd'.
    assert (Hp' : In (problem_description r') (map fst (first :: rest))).
    { apply Hmem, Hrow. now exists r'. }
    apply in_map_iff in Hp' as [[p' n'] [Hfst Hpn]]. cbn [fst] in Hfst.
    subst p'.
    rewrite <- (Hcount _ _ Hpn).
    rewrite <- (Hcount (fst best) (snd best)) by now destruct best.
    exact (Hmax _ Hpn).
Qed.

(** ** Master efficiency *)

Lemma SqlVal_eqb_eq (a b : SqlVal) : SqlVal_eqb a b = true <-> a = b.
Proof.
  destruct a as [| x | x], b as [| y | y]; cbn [SqlVal_eqb];
    try (split; [discriminate | intros [=]]); try tauto.
  - rewrite Z.eqb_eq. split; [now intros -> | now intros [= ->]].
  - rewrite String.eqb_eq. split; [now intros -> | now intros [= ->]].
Qed.

Lemma ms_for_set (k k' : SqlVal) (v : MasterStats)
    (d : list (SqlVal * MasterStats)) :
  ms_for k' (dict_set SqlVal_eqb k v d)
  = if SqlVal_eqb k' k then v else ms_for k' d.
Proof.
  unfold ms_for. rewrite (dict_get_set SqlVal_eqb SqlVal_eqb_eq).
  now destruct (SqlVal_eqb k' k).
Qed.

Lemma dict_upd_set (k : SqlVal) (f : MasterStats -> MasterStats)
    (d : list (SqlVal * MasterStats)) :
  dict_upd SqlVal_eqb k (mk_master_stats 0 0 None) f d
  = dict_set SqlVal_eqb k (f (ms_for k d)) d.
Proof. unfold dict_upd, ms_for. now destruct (dict_get SqlVal_eqb k d). Qed.

Lemma master_keys_set (k : SqlVal) (v : MasterStats)
    (d : list (SqlVal * MasterStats)) :
  NoDup (map fst d) ->
  NoDup (map fst (dict_set SqlVal_eqb k v d))
  /\ forall k', In k' (map fst (dict_set SqlVal_eqb k v d))
                <-> k' = k \/ In k' (map fst d).
Proof.
  intros Hnd. split; [now apply dict_set_NoDup; [apply SqlVal_eqb_eq |] |].
  intros k'. rewrite (dict_set_keys SqlVal_eqb).
  destruct (dict_get SqlVal_eqb k d) as [a |] eqn:E.
  - apply (dict_get_In SqlVal_eqb SqlVal_eqb_eq) in E.
    apply (in_map fst) in E. cbn [fst] in E.
    split; [tauto |]. intros [-> | H]; tauto.
  - rewrite in_app_iff. simpl. intuition.
Qed.

(** One pass of the loop over a row with a master. *)
Lemma master_step_spec (me : list (SqlVal * MasterStats))
    (req : list SqlVal) :
  NoDup (map fst me) ->
  let me' := master_step me req in
  NoDup (map fst me')
  /\ (forall k, In k (map fst me')
                <-> (truthy (col req 8) = true /\ k = col req 8)
                    \/ In k (map fst me))
  /\ forall k,
       ms_for k me'
       = if truthy (col req 8) && SqlVal_eqb k (col req 8)
         then mk_master_stats
                (ms_completed (ms_for k me)
                 + (if labelled_completed req then 1 else 0))
                (ms_total (ms_for k me) + 1)
                (ms_efficiency (ms_for k me))
         else ms_for k me.
Proof.
  intros Hnd. cbv zeta. unfold master_step. fold (labelled_completed req).
  set (master := col req 8).
  destruct (truthy master); cbn [andb];
    [| split; [exact Hnd | split; [intros k; intuition; discriminate
                                  | reflexivity]]].
  set (me1 := match dict_get SqlVal_eqb master me with
              | Some _ => me
              | None => dict_set SqlVal_eqb master (mk_master_stats 0 0 None) me
              end).
  assert (H1 : NoDup (map fst me1)
               /\ (forall k, In k (map fst me1)
                             <-> k = master \/ In k (map fst me))
               /\ forall k, ms_for k me1 = ms_for k me).
  { subst me1. destruct (dict_get SqlVal_eqb master me) as [a |] eqn:E.
    - split; [exact Hnd |]. split; [| reflexivity].
      intros k. split; [tauto |]. intros [-> | H]; [| exact H].
      apply (dict_get_In SqlVal_eqb SqlVal_eqb_eq) in E.
      now apply (in_map fst) in E.
    - destruct (master_keys_set master (mk_master_stats 0 0 None) me Hnd)
        as [Hn Hk].
      split; [exact Hn |]. split; [exact Hk |].
      intros k. rewrite ms_for_set.
      destruct (SqlVal_eqb k master) eqn:Ek; [| reflexivity].
      apply SqlVal_eqb_eq in Ek. subst k. unfold ms_for. now rewrite E. }
  destruct H1 as [Hnd1 [Hk1 Hf1]].
  rewrite !dict_upd_set. cbv beta.
  set (me2 := dict_set SqlVal_eqb master
                (mk_master_stats (ms_completed (ms_for master me1))
                   (ms_total (ms_for master me1) + 1)
                   (ms_efficiency (ms_for master me1))) me1).
  destruct (master_keys_set master
              (mk_master_stats (ms_completed (ms_for master me1))
                 (ms_total (ms_for master me1) + 1)
                 (ms_efficiency (ms_for master me1))) me1 Hnd1)
    as [Hnd2 Hk2].
  fold me2 in Hnd2, Hk2.
  assert (Hf2 : forall k,
            ms_for k me2
            = if SqlVal_eqb k master
              then mk_master_stats (ms_completed (ms_for k me))
                     (ms_total (ms_for k me) + 1) (ms_efficiency (ms_for k me))
              else ms_for k me).
  { intros k. subst me2. rewrite ms_for_set, !Hf1.
    destruct (SqlVal_eqb k master) eqn:Ek; [| reflexivity].
    apply SqlVal_eqb_eq in Ek. now subst k. }
  destruct (labelled_completed req).
  - destruct (master_keys_set master
                (mk_master_stats (ms_completed (ms_for master me2) + 1)
                   (ms_total (ms_for master me2))
                   (ms_efficiency (ms_for master me2))) me2 Hnd2)
      as [Hnd3 Hk3].
    split; [exact Hnd3 |]. split.
    + intros k. rewrite Hk3, Hk2, Hk1. intuition.
    + intros k. rewrite ms_for_set, !Hf2.
      destruct (SqlVal_eqb k master) eqn:Ek; [| reflexivity].
      apply SqlVal_eqb_eq in Ek. subst k.
      rewrite (proj2 (SqlVal_eqb_eq master master) eq_refl).
      cbn [ms_completed ms_total ms_efficiency]. reflexivity.
  - split; [exact Hnd2 |]. split.
    + intros k. rewrite Hk2, Hk1. intuition.
    + intros k. rewrite Hf2.
      destruct (SqlVal_eqb k master); [| reflexivity].
      now rewrite Z.add_0_r.
Qed.

Lemma master_loop (rows : list (list SqlVal)) :
  forall me, NoDup (map fst me) ->
    let me' := fold_left master_step rows me in
    NoDup (map fst me')
    /\ (forall k, In k (map fst me')
                  <-> In k (map fst me)
                      \/ exists req, In req rows /\ truthy (col req 8) = true
                                     /\ k = col req 8)
    /\ forall k,
         ms_total (ms_for k me')
         = ms_total (ms_for k me)
           + Z.of_nat (length (rows_of_master k rows))
         /\ ms_completed (ms_for k me')
            = ms_completed (ms_for k me)
              + Z.of_nat (length (filter labelled_completed
                                         (rows_of_master k rows)))
         /\ ms_efficiency (ms_for k me') = ms_efficiency (ms_for k me).
Proof.
  induction rows as [| req rows IH]; intros me Hnd; cbv zeta.
  - cbn. repeat split; try tauto; try lia.
    intros [H | [req [[] _]]]. exact H.
  - cbn [fold_left].
    destruct (master_step_spec me req Hnd) as [Hnd1 [Hk1 Hf1]].
    destruct (IH (master_step me req) Hnd1) as [Hnd' [Hk' Hf']].
    split; [exact Hnd' |]. split.
    + intros k. rewrite Hk', Hk1. cbn [In]. split.
      * intros [[[Ht ->] | H] | [r [Hr Hx]]]; auto.
        -- right. exists req. auto.
        -- right. exists r. tauto.
      * intros [H | [r [[<- | Hr] [Ht Hx]]]]; auto.
        right. exists r. auto.
    + intros k. destruct (Hf' k) as [Ht [Hc He]].
      rewrite Ht, Hc, He, Hf1. unfold rows_of_master. cbn [filter].
      assert (Hsym : SqlVal_eqb k (col req 8) = SqlVal_eqb (col req 8) k).
      { destruct (SqlVal_eqb k (col req 8)) eqn:E1,
                 (SqlVal_eqb (col req 8) k) eqn:E2; try reflexivity.
        - apply SqlVal_eqb_eq in E1. subst k.
          now rewrite (proj2 (SqlVal_eqb_eq _ _) eq_refl) in E2.
        - apply SqlVal_eqb_eq in E2. subst k.
          now rewrite (proj2 (SqlVal_eqb_eq _ _) eq_refl) in E1. }
      rewrite Hsym.
      destruct (truthy (col req 8) && SqlVal_eqb (col req 8) k);
        cbn [ms_total ms_completed ms_efficiency filter].
      * destruct (labelled_completed req); cbn [length]; repeat split; lia.
      * repeat split.
Qed.

(** The three shapes of a result of [get_performance_metrics]. *)
Lemma get_performance_metrics_cases (db : Database)
    (start_date end_date : option string) :
  let rows := select_requests start_date end_date db in
  (rows = []
   /\ get_performance_metrics (Ok db) start_date end_date
      = [ ("total_requests", VInt 0); ("requests_per_day", VInt 0);
          ("average_processing_time", VInt 0);
          ("master_efficiency", VMasters []); ("total_parts_cost", VInt 0) ])
  \/ (rows <> []
      /\ get_performance_metrics (Ok db) start_date end_date = [])
  \/ (rows <> []
      /\ exists per_day avg,
           get_performance_metrics (Ok db) start_date end_date
           = [ ("total_requests", VInt (Z.of_nat (length rows)));
               ("requests_per_day", per_day);
               ("average_processing_time_hours", avg);
               ("master_efficiency", VMasters (master_efficiency rows));
               ("total_parts_cost",
                VInt (parts_cost_spec (comments db))) ]).
Proof.
  cbv zeta. unfold get_performance_metrics. cbn [bind].
  destruct (select_requests start_date end_date db) as [| row rows] eqn:Hsel.
  - left. split; reflexivity.
  - right.
    destruct (requests_per_day _ _ _) as [per_day |]; cbn [bind try_except];
      [| left; split; [discriminate | reflexivity]].
    destruct (processing_times _) as [times |]; cbn [bind try_except];
      [| left; split; [discriminate | reflexivity]].
    destruct (avg_processing_time_total times) as [avg ->].
    cbn [bind try_except]. right. split; [discriminate |].
    exists per_day, avg. now rewrite total_parts_cost_spec.
Qed.

Lemma rows_of_master_requests (m : string) (rs : list Request) :
  m <> EmptyString ->
  rows_of_master (SText m) (map select_star rs)
  = map select_star (with_master m rs).
Proof.
  intros Hm. unfold rows_of_master, with_master.
  induction rs as [| r rs IH]; cbn [map filter]; [reflexivity |].
  rewrite IH.
  change (col (select_star r) 8) with (sql_opt (master_name r)).
  destruct (master_name r) as [m' |]; cbn [sql_opt truthy SqlVal_eqb andb];
    [| reflexivity].
  destruct (String.eqb_spec m' m) as [-> | Hne].
  - destruct (String.eqb_spec m EmptyString); [contradiction |].
    reflexivity.
  - now rewrite andb_false_r.
Qed.

Lemma labelled_completed_requests (rs : list Request) :
  filter labelled_completed (map select_star rs)
  = map select_star
        (filter (fun r => String.eqb (client_name r) STATUS_COMPLETED) rs).
Proof.
  induction rs as [| r rs IH]; cbn [map filter]; [reflexivity |].
  rewrite IH. unfold labelled_completed at 1.
  change (col (select_star r) 5) with (SText (client_name r)).
  cbn [SqlVal_eqb].
  now destruct (String.eqb (client_name r) STATUS_COMPLETED).
Qed.

(** X14 ([get_performance_metrics]).  Whenever the call returns a
    [master_efficiency] dictionary, [total_requests] is the number of
    requests in the date window, and the dictionary has one entry for each
    non-empty master name of the window and no other; in an entry [total]
    counts the requests of the master in the window and is at least 1,
    [completed] counts those among them whose [client_name] (column 5 of
    [SELECT *]) equals [Завершена], and [efficiency] is the share
    [completed / total * 100] rounded to two decimals, as a float: the float
    of a number of two decimals within half a hundredth, and the rounding of
    the two float operations, of the exact share. *)
Theorem master_efficiency_spec (db : Database)
    (start_date end_date : option string)
    (d : list (SqlVal * MasterStats))
    (Hres : metrics_get "master_efficiency"
              (get_performance_metrics (Ok db) start_date end_date)
            = Some (VMasters d)) :
  let chosen := in_window start_date end_date db in
  metrics_get "total_requests"
    (get_performance_metrics (Ok db) start_date end_date)
  = Some (VInt (Z.of_nat (length chosen)))
  /\ NoDup (map fst d)
  /\ (forall m, m <> EmptyString ->
        (In (SText m) (map fst d)
         <-> exists r, In r chosen /\ master_name r = Some m))
  /\ (forall k st, In (k, st) d ->
        exists m, k = SText m /\ m <> EmptyString
          /\ ms_total st = Z.of_nat (length (with_master m chosen))
          /\ ms_completed st
             = Z.of_nat
                 (length (filter (fun r => String.eqb (client_name r)
                                             STATUS_COMPLETED)
                                 (with_master m chosen)))
          /\ 1 <= ms_total st
          /\ 0 <= ms_completed st <= ms_total st
          /\ exists e,
               ms_efficiency st = Some e
               /\ rounded_to_2_decimals (1 # 1000000000000)
                    (inject_Z (ms_completed st)
                     / inject_Z (ms_total st) * 100) e).
Proof.
  cbv zeta. unfold in_window.
  set (chosen := filter _ (requests db)).
  assert (Hrows : select_requests start_date end_date db
                  = map select_star chosen) by reflexivity.
  destruct (get_performance_metrics_cases db start_date end_date)
    as [[Hnil Heq] | [[Hne Heq] | [Hne [per_day [avg Heq]]]]];
    rewrite Heq in Hres |- *.
  - injection Hres as <-. rewrite Hrows in Hnil.
    destruct chosen; [| discriminate].
    split; [reflexivity |]. split; [constructor |].
    split; [| intros k st []].
    intros m _. split; [intros [] | intros [r [[] _]]].
  - discriminate.
  - injection Hres as <-.
    rewrite Hrows, length_map. split; [reflexivity |].
    unfold master_efficiency.
    destruct (master_loop (map select_star chosen) [] (NoDup_nil _))
      as [Hnd [Hkeys Hstats]].
    set (me := fold_left master_step (map select_star chosen) []) in *.
    assert (Hfst : map fst (map (fun '(master, stats) =>
                                   (master, add_efficiency stats)) me)
                   = map fst me).
    { rewrite map_map. apply map_ext. now intros [k st]. }
    rewrite Hfst. split; [exact Hnd |].
    assert (Hkey : forall k, In k (map fst me) <->
                     exists r, In r chosen
                               /\ truthy (sql_opt (master_name r)) = true
                               /\ k = sql_opt (master_name r)).
    { intros k. rewrite Hkeys. cbn [map In]. split.
      - intros [[] | [req [Hreq [Ht ->]]]].
        apply in_map_iff in Hreq as [r [<- Hr]]. now exists r.
      - intros [r [Hr [Ht ->]]]. right. exists (select_star r).
        split; [now apply in_map | auto]. }
    split.
    + intros m Hm. rewrite Hkey. split.
      * intros [r [Hr [Ht Hk]]]. exists r. split; [exact Hr |].
        destruct (master_name r); [now injection Hk as -> | discriminate].
      * intros [r [Hr Hmr]]. exists r. rewrite Hmr.
        cbn [sql_opt truthy].
        destruct (String.eqb_spec m EmptyString); [contradiction | auto].
    + intros k st Hin.
      apply in_map_iff in Hin as [[k' st0] [[= -> <-] Hin]].
      assert (Hk : In k (map fst me)).
      { change k with (fst (k, st0)). now apply in_map. }
      apply Hkey in Hk as [r0 [Hr0 [Ht0 Hk0]]].
      destruct (master_name r0) as [m |] eqn:Hm0; [| discriminate].
      cbn [sql_opt truthy] in Ht0, Hk0. subst k.
      assert (Hm : m <> EmptyString).
      { intros ->. discriminate. }
      exists m. split; [reflexivity |]. split; [exact Hm |].
      apply (In_dict_get SqlVal_eqb SqlVal_eqb_eq _ _ _ Hnd) in Hin.
      destruct (Hstats (SText m)) as [Htot [Hcom Heff]].
      unfold ms_for in Htot, Hcom, Heff. rewrite Hin in Htot, Hcom, Heff.
      cbn [dict_get ms_total ms_completed ms_efficiency] in Htot, Hcom, Heff.
      rewrite (rows_of_master_requests m chosen Hm) in Htot, Hcom.
      rewrite labelled_completed_requests in Hcom.
      rewrite length_map in Htot, Hcom.
      assert (Hpos : (0 < length (with_master m chosen))%nat).
      { assert (Hin0 : In r0 (with_master m chosen)).
        { apply filter_In. split; [exact Hr0 |]. rewrite Hm0.
          cbn [sql_opt SqlVal_eqb]. apply String.eqb_refl. }
        destruct (with_master m chosen); [destruct Hin0 | simpl; lia]. }
      pose proof (filter_length_le
                    (fun r => String.eqb (client_name r) STATUS_COMPLETED)
                    (with_master m chosen)) as Hle.
      unfold add_efficiency.
      destruct (Z.ltb_spec 0 (ms_total st0)); [| lia].
      cbn [ms_total ms_completed ms_efficiency].
      rewrite Htot, Hcom.
      split; [reflexivity |]. split; [reflexivity |].
      split; [lia |]. split; [lia |].
      eexists. split; [reflexivity |].
      apply percentage_spec; lia.
Qed.

(** ** The summary statistics of the repository *)

Lemma dict_set_fresh (k : string) (v : Z) (d : list (string * Z)) :
  ~ In k (map fst d) -> dict_set String.eqb k v d = (d ++ [(k, v)])%list.
Proof.
  induction d as [| [k' v'] d IH]; cbn [dict_set map In app fst];
    [reflexivity |].
  intros Hn. destruct (String.eqb_spec k k') as [-> | Hne]; [tauto |].
  rewrite IH by tauto. reflexivity.
Qed.

Lemma dict_of_rows_NoDup (rows d : list (string * Z)) :
  NoDup (map fst (d ++ rows)) ->
  fold_left (fun d '(k, v) => dict_set String.eqb k v d) rows d
  = (d ++ rows)%list.
Proof.
  revert d. induction rows as [| [k v] rows IH]; intros d Hnd;
    cbn [fold_left].
  - now rewrite app_nil_r.
  - rewrite map_app in Hnd. cbn [map fst] in Hnd.
    pose proof (NoDup_remove_2 _ _ _ Hnd) as Hk.
    rewrite dict_set_fresh by (intros H; apply Hk, in_app_iff; now left).
    rewrite IH; [now rewrite <- app_assoc |].
    rewrite <- app_assoc, map_app. exact Hnd.
Qed.

Lemma group_count_perm (keys : list string) :
  Permutation (group_count keys) (fold_left bump keys []).
Proof. unfold group_count. apply order_by_perm. Qed.

Lemma group_count_NoDup (keys : list string) :
  NoDup (map fst (group_count keys)).
Proof.
  eapply Permutation_NoDup;
    [apply Permutation_map, Permutation_sym, group_count_perm |].
  apply tally_NoDup. constructor.
Qed.

Lemma getz_perm (k : string) (g g' : list (string * Z)) :
  NoDup (map fst g) -> Permutation g g' -> getz k g = getz k g'.
Proof.
  intros Hnd Hp.
  assert (Hnd' : NoDup (map fst g')).
  { eapply Permutation_NoDup; [apply Permutation_map, Hp | exact Hnd]. }
  unfold getz.
  destruct (dict_get String.eqb k g) as [n |] eqn:E.
  - apply (dict_get_In String.eqb String.eqb_eq) in E.
    apply (Permutation_in _ Hp) in E.
    now rewrite (In_dict_get String.eqb String.eqb_eq _ _ _ Hnd' E).
  - destruct (dict_get String.eqb k g') as [n' |] eqn:E'; [| reflexivity].
    apply (dict_get_In String.eqb String.eqb_eq) in E'.
    apply (Permutation_in _ (Permutation_sym Hp)) in E'.
    now rewrite (In_dict_get String.eqb String.eqb_eq _ _ _ Hnd E') in E.
Qed.

Lemma dict_of_group_count (keys : list string) (k : string) :
  dict_of_rows (group_count keys) = group_count keys
  /\ sumz (group_count keys) = Z.of_nat (length keys)
  /\ getz k (group_count keys)
     = Z.of_nat (length (filter (String.eqb k) keys)).
Proof.
  split; [| split].
  - unfold dict_of_rows. apply (dict_of_rows_NoDup _ []).
    apply group_count_NoDup.
  - rewrite (sumz_perm _ _ (group_count_perm keys)), tally_sum.
    simpl. lia.
  - rewrite (getz_perm k _ _ (group_count_NoDup keys) (group_count_perm keys)).
    rewrite tally_get. unfold getz. simpl. lia.
Qed.

Lemma count_device_map (k : string) (rs : list Request) :
  length (filter (String.eqb k) (map device_type rs))
  = length (of_device k rs).
Proof.
  unfold of_device. induction rs as [| r rs IH]; cbn [map filter];
    [reflexivity |].
  rewrite (String.eqb_sym k (device_type r)).
  destruct (String.eqb (device_type r) k); cbn [length]; now rewrite IH.
Qed.

(** X15 ([Database.get_request_statistics]).  Whatever [julianday] does,
    [total_requests] is the number of stored requests; [status_counts] and
    [device_statistics] have pairwise distinct keys, hold for every status
    and device type the number of its requests, and each sums up to
    [total_requests]; [status_counts] agrees with every tuple of
    [calculate_status_distribution]; and without a completed request
    [average_completion_hours] is the integer 0. *)
Theorem get_request_statistics_counts (julianday : string -> option Q)
    (db : Database) :
  let stats := get_request_statistics julianday db in
  stats_total_requests stats = Z.of_nat (length (requests db))
  /\ sumz (stats_status_counts stats) = stats_total_requests stats
  /\ sumz (stats_device_statistics stats) = stats_total_requests stats
  /\ NoDup (map fst (stats_status_counts stats))
  /\ NoDup (map fst (stats_device_statistics stats))
  /\ (forall st, getz st (stats_status_counts stats)
                 = count_status st (requests db))
  /\ (forall k, getz k (stats_device_statistics stats)
                = Z.of_nat (length (of_device k (requests db))))
  /\ (forall st n p,
        In (st, n, p) (calculate_status_distribution (Ok db)) ->
        dict_get String.eqb st (stats_status_counts stats) = Some n)
  /\ ((forall r, In r (requests db) -> completion_date r = None) ->
      stats_average_completion_hours stats = VInt 0).
Proof.
  cbv zeta. unfold get_request_statistics.
  cbn [stats_total_requests stats_status_counts stats_device_statistics
       stats_average_completion_hours].
  destruct (dict_of_group_count (map status (requests db)) EmptyString)
    as [Hs [Hsum _]].
  destruct (dict_of_group_count (map device_type (requests db)) EmptyString)
    as [Hd [Hdsum _]].
  rewrite Hs, Hd, Hsum, Hdsum, !length_map.
  split; [reflexivity |]. split; [reflexivity |]. split; [reflexivity |].
  split; [apply group_count_NoDup |]. split; [apply group_count_NoDup |].
  split.
  { intros st.
    rewrite (proj2 (proj2 (dict_of_group_count (map status (requests db)) st))).
    apply count_status_map. }
  split.
  { intros k.
    rewrite (proj2 (proj2 (dict_of_group_count
                             (map device_type (requests db)) k))).
    now rewrite count_device_map. }
  split.
  { intros st n p Hin. unfold calculate_status_distribution in Hin.
    cbn [bind try_except] in Hin.
    destruct (Z.of_nat (length (requests db)) =? 0); [destruct Hin |].
    cbn [try_except] in Hin.
    apply in_map_iff in Hin as [[st' n'] [[= -> -> _] Hin]].
    unfold select_status_counts in Hin. apply order_by_In in Hin.
    apply (In_dict_get String.eqb String.eqb_eq); [| exact Hin].
    apply group_count_NoDup. }
  intros Hnone.
  assert (Hnil : flat_map (fun r => match completion_date r with
                                    | Some c =>
                                        [completion_hours julianday
                                           (created_date r) c]
                                    | None => []
                                    end) (requests db) = []).
  { revert Hnone. generalize (requests db). intros rs.
    induction rs as [| r rs IH]; intros Hnone; [reflexivity |].
    cbn [flat_map]. rewrite (Hnone r (or_introl eq_refl)).
    apply IH. intros r' Hr'. apply Hnone. now right. }
  now rewrite Hnil.
Qed.

(** ** Phone numbers *)

Lemma keep_all (class : ascii -> bool) (s : string) :
  all_digits s = true -> (forall c, is_digit c = true -> class c = true) ->
  keep class s = s.
Proof.
  intros Hs Hc. induction s as [| c s IH]; [reflexivity |].
  cbn [all_digits] in Hs. apply andb_prop in Hs as [H1 H2].
  cbn [keep]. now rewrite (Hc c H1), IH.
Qed.

Lemma keep_keep (p q : ascii -> bool) (s : string) :
  (forall c, p c = true -> q c = true) ->
  keep p (keep q s) = keep p s.
Proof.
  intros Hpq. induction s as [| c s IH]; [reflexivity |].
  cbn [keep]. destruct (q c) eqn:Hq; cbn [keep].
  - now rewrite IH.
  - destruct (p c) eqn:Hp; [| exact IH].
    rewrite (Hpq c Hp) in Hq. discriminate.
Qed.

Lemma keep_digits (s : string) : all_digits (keep is_digit s) = true.
Proof.
  induction s as [| c s IH]; [reflexivity |].
  cbn [keep]. destruct (is_digit c) eqn:E; [| exact IH].
  cbn [all_digits]. now rewrite E.
Qed.

Lemma ten_digits_inv (s : string) :
  ten_digits s = true ->
  exists c1 c2 c3 c4 c5 c6 c7 c8 c9 c10,
    s = String c1 (String c2 (String c3 (String c4 (String c5 (String c6
          (String c7 (String c8 (String c9 (String c10 EmptyString)))))))))
    /\ is_digit c1 = true /\ is_digit c2 = true /\ is_digit c3 = true
    /\ is_digit c4 = true /\ is_digit c5 = true /\ is_digit c6 = true
    /\ is_digit c7 = true /\ is_digit c8 = true /\ is_digit c9 = true
    /\ is_digit c10 = true.
Proof.
  unfold ten_digits. intros H. apply andb_prop in H as [Hlen Hd].
  apply Nat.eqb_eq in Hlen.
  do 10 (destruct s as [| ? s]; [discriminate |]).
  destruct s; [| discriminate].
  cbn [all_digits] in Hd.
  repeat (apply andb_prop in Hd as [? Hd]).
  do 10 eexists. split; [reflexivity |]. repeat split; assumption.
Qed.

Lemma keep_cons_true (class : ascii -> bool) (c : ascii) (s : string) :
  class c = true -> keep class (String c s) = String c (keep class s).
Proof. intros H. cbn [keep]. now rewrite H. Qed.

Lemma keep_cons_false (class : ascii -> bool) (c : ascii) (s : string) :
  class c = false -> keep class (String c s) = keep class s.
Proof. intros H. cbn [keep]. now rewrite H. Qed.

Ltac keep_steps :=
  repeat first [ rewrite keep_cons_true by (cbv beta; auto)
               | rewrite keep_cons_false by reflexivity ];
  cbn [keep].

Section Canonical.
Variables c1 c2 c3 c4 c5 c6 c7 c8 c9 c10 : ascii.
Hypothesis H1 : is_digit c1 = true.
Hypothesis H2 : is_digit c2 = true.
Hypothesis H3 : is_digit c3 = true.
Hypothesis H4 : is_digit c4 = true.
Hypothesis H5 : is_digit c5 = true.
Hypothesis H6 : is_digit c6 = true.
Hypothesis H7 : is_digit c7 = true.
Hypothesis H8 : is_digit c8 = true.
Hypothesis H9 : is_digit c9 = true.
Hypothesis H10 : is_digit c10 = true.

Lemma keep_digits_canonical :
  keep is_digit (canonical_phone c1 c2 c3 c4 c5 c6 c7 c8 c9 c10)
  = String "7"
      (String c1 (String c2 (String c3 (String c4 (String c5 (String c6
       (String c7 (String c8 (String c9 (String c10 EmptyString)))))))))).
Proof.
  unfold canonical_phone. cbn [append]. keep_steps. reflexivity.
Qed.

Lemma format_national (phone : string) :
  national_prefix (keep is_digit phone)
  = String "7"
      (String c1 (String c2 (String c3 (String c4 (String c5 (String c6
       (String c7 (String c8 (String c9 (String c10 EmptyString)))))))))) ->
  format_phone_number phone
  = canonical_phone c1 c2 c3 c4 c5 c6 c7 c8 c9 c10.
Proof.
  intros H. unfold format_phone_number. rewrite H. reflexivity.
Qed.

Lemma format_canonical :
  format_phone_number (canonical_phone c1 c2 c3 c4 c5 c6 c7 c8 c9 c10)
  = canonical_phone c1 c2 c3 c4 c5 c6 c7 c8 c9 c10.
Proof.
  apply format_national. now rewrite keep_digits_canonical.
Qed.

Lemma validate_canonical :
  validate_phone_number (canonical_phone c1 c2 c3 c4 c5 c6 c7 c8 c9 c10)
  = true.
Proof.
  assert (Hc : forall c, is_digit c = true ->
                 is_digit c || Ascii.eqb c "+" = true)
    by (intros c ->; reflexivity).
  unfold validate_phone_number, canonical_phone. cbn [append].
  keep_steps. unfold ten_digits. cbn [String.length Nat.eqb all_digits].
  now rewrite H1, H2, H3, H4, H5, H6, H7, H8, H9, H10.
Qed.
End Canonical.

Lemma national_prefix_digits (cleaned : string) :
  all_digits cleaned = true ->
  all_digits (national_prefix cleaned) = true
  /\ String.length (national_prefix cleaned) = String.length cleaned.
Proof.
  intros H. destruct cleaned as [| c s]; [now split |].
  cbn [all_digits] in H. apply andb_prop in H as [Hc Hs].
  destruct (Ascii.eqb_spec c "8") as [-> | H8].
  - cbn [national_prefix all_digits]. now split.
  - destruct (Ascii.eqb_spec c "+") as [-> | Hp]; [discriminate |].
    assert (Heq : national_prefix (String c s) = String c s).
    { destruct c as [b0 b1 b2 b3 b4 b5 b6 b7].
      destruct b0, b1, b2, b3, b4, b5, b6, b7; try reflexivity;
        contradiction. }
    rewrite Heq. cbn [all_digits]. now rewrite Hc, Hs.
Qed.

(** [format_phone_number] either gives the canonical shape or hands its
    argument back. *)
Lemma format_cases (phone : string) :
  format_phone_number phone = phone
  \/ exists c1 c2 c3 c4 c5 c6 c7 c8 c9 c10,
       is_digit c1 = true /\ is_digit c2 = true /\ is_digit c3 = true
       /\ is_digit c4 = true /\ is_digit c5 = true /\ is_digit c6 = true
       /\ is_digit c7 = true /\ is_digit c8 = true /\ is_digit c9 = true
       /\ is_digit c10 = true
       /\ national_prefix (keep is_digit phone)
          = String "7"
              (String c1 (String c2 (String c3 (String c4 (String c5
                (String c6 (String c7 (String c8 (String c9
                  (String c10 EmptyString))))))))))
       /\ format_phone_number phone
          = canonical_phone c1 c2 c3 c4 c5 c6 c7 c8 c9 c10.
Proof.
  destruct (national_prefix_digits _ (keep_digits phone)) as [Hd _].
  unfold format_phone_number.
  destruct ((String.length (national_prefix (keep is_digit phone)) =? 11)%nat
            && match national_prefix (keep is_digit phone) with
               | String "7" _ => true
               | _ => false
               end) eqn:E; [right | now left].
  apply andb_prop in E as [Hlen H7].
  destruct (national_prefix (keep is_digit phone)) as [| c rest];
    [discriminate |].
  assert (Hc : c = "7"%char).
  { destruct c as [b0 b1 b2 b3 b4 b5 b6 b7].
    destruct b0, b1, b2, b3, b4, b5, b6, b7; try discriminate; reflexivity. }
  subst c. cbn [all_digits] in Hd. apply andb_prop in Hd as [_ Hd].
  assert (Hten : ten_digits rest = true).
  { unfold ten_digits. cbn [String.length] in Hlen.
    apply andb_true_iff. split; [exact Hlen | exact Hd]. }
  destruct (ten_digits_inv rest Hten)
    as [c1 [c2 [c3 [c4 [c5 [c6 [c7 [c8 [c9 [c10 [-> Hds]]]]]]]]]]].
  exists c1, c2, c3, c4, c5, c6, c7, c8, c9, c10.
  do 9 (destruct Hds as [? Hds]). repeat split; try assumption; reflexivity.
Qed.

(** X17 ([format_phone_number]).  Formatting a phone number in ASCII a
    second time changes nothing. *)
Theorem format_phone_number_idempotent (phone : string)
    (Hascii : ascii_only phone = true) :
  format_phone_number (format_phone_number phone)
  = format_phone_number phone.
Proof.
  destruct (format_cases phone)
    as [H | [c1 [c2 [c3 [c4 [c5 [c6 [c7 [c8 [c9 [c10 H]]]]]]]]]]];
    [now rewrite !H |].
  do 10 (destruct H as [? H]). destruct H as [_ ->].
  now apply format_canonical.
Qed.

(** X16 ([validate_phone_number], [format_phone_number]).  A phone number
    in ASCII that [validate_phone_number] accepts is formatted as
    [+7 (ddd) ddd-dd-dd], where the ten digits are the digits of the input
    after its leading 7 or 8, in order; the formatted number is accepted
    again. *)
Theorem validated_phone_is_canonicalised (phone : string)
    (Hascii : ascii_only phone = true)
    (Hvalid : validate_phone_number phone = true) :
  exists c1 c2 c3 c4 c5 c6 c7 c8 c9 c10,
    format_phone_number phone
    = canonical_phone c1 c2 c3 c4 c5 c6 c7 c8 c9 c10
    /\ all_digits
         (String c1 (String c2 (String c3 (String c4 (String c5 (String c6
            (String c7 (String c8 (String c9 (String c10 EmptyString))))))))))
       = true
    /\ (keep is_digit phone
        = String "7"
            (String c1 (String c2 (String c3 (String c4 (String c5 (String c6
               (String c7 (String c8 (String c9
                 (String c10 EmptyString))))))))))
        \/ keep is_digit phone
           = String "8"
               (String c1 (String c2 (String c3 (String c4 (String c5
                 (String c6 (String c7 (String c8 (String c9
                   (String c10 EmptyString)))))))))))
    /\ validate_phone_number (format_phone_number phone) = true.
Proof.
  unfold validate_phone_number in Hvalid.
  set (class := fun c => is_digit c || Ascii.eqb c "+") in Hvalid.
  assert (Hsub : forall c, is_digit c = true -> class c = true)
    by (intros c Hc; unfold class; now rewrite Hc).
  assert (Hdigits : keep is_digit phone = keep is_digit (keep class phone))
    by (symmetry; now apply keep_keep).
  assert (Hshape :
    exists lead rest,
      ten_digits rest = true
      /\ (lead = "7"%char \/ lead = "8"%char)
      /\ keep is_digit phone = String lead rest).
  { destruct (keep class phone) as [| c s]; [discriminate |].
    destruct (Ascii.eqb_spec c "+") as [-> | Hp].
    - destruct s as [| c' s]; [discriminate |].
      destruct (Ascii.eqb_spec c' "7") as [-> | H7].
      + exists "7"%char, s. split; [exact Hvalid |]. split; [now left |].
        rewrite Hdigits. rewrite keep_cons_false by reflexivity.
        rewrite keep_cons_true by reflexivity. f_equal.
        apply keep_all; [| auto].
        unfold ten_digits in Hvalid. now apply andb_prop in Hvalid as [_ ?].
      + exfalso. destruct c' as [b0 b1 b2 b3 b4 b5 b6 b7].
        destruct b0, b1, b2, b3, b4, b5, b6, b7; try discriminate;
          contradiction.
    - destruct (Ascii.eqb_spec c "7") as [-> | H7];
        [| destruct (Ascii.eqb_spec c "8") as [-> | H8]].
      + exists "7"%char, s. split; [exact Hvalid |]. split; [now left |].
        rewrite Hdigits. rewrite keep_cons_true by reflexivity. f_equal.
        apply keep_all; [| auto].
        unfold ten_digits in Hvalid. now apply andb_prop in Hvalid as [_ ?].
      + exists "8"%char, s. split; [exact Hvalid |]. split; [now right |].
        rewrite Hdigits. rewrite keep_cons_true by reflexivity. f_equal.
        apply keep_all; [| auto].
        unfold ten_digits in Hvalid. now apply andb_prop in Hvalid as [_ ?].
      + exfalso. destruct c as [b0 b1 b2 b3 b4 b5 b6 b7].
        destruct b0, b1, b2, b3, b4, b5, b6, b7; try discriminate;
          contradiction. }
  destruct Hshape as [lead [rest [Hten [Hlead Hkeep]]]].
  destruct (ten_digits_inv rest Hten)
    as [c1 [c2 [c3 [c4 [c5 [c6 [c7 [c8 [c9 [c10 [-> Hds]]]]]]]]]]].
  exists c1, c2, c3, c4, c5, c6, c7, c8, c9, c10.
  do 9 (destruct Hds as [? Hds]).
  assert (Hfmt : format_phone_number phone
                 = canonical_phone c1 c2 c3 c4 c5 c6 c7 c8 c9 c10).
  { apply format_national. rewrite Hkeep.
    destruct Hlead as [-> | ->]; reflexivity. }
  split; [exact Hfmt |]. split.
  { cbn [all_digits].
    repeat match goal with H : is_digit _ = true |- _ => rewrite H; clear H end.
    reflexivity. }
  split; [destruct Hlead as [-> | ->]; [left | right]; exact Hkeep |].
  rewrite Hfmt. now apply validate_canonical.
Qed.

(** ** The average processing time *)

(** A text in the date format is not a timestamp. *)
Lemma date_is_no_timestamp (s : string) (d : datetime) :
  parse_datetime Fmt_Ymd s = Some d ->
  s <> EmptyString /\ timestamp s = None.
Proof.
  intros H. split.
  - intros ->. discriminate.
  - unfold timestamp, strptime. cbn [parse_datetime] in *.
    destruct (re_date s) as [[[[y m] d'] r] |]; cbn [obind] in *;
      [| discriminate].
    destruct r; [reflexivity | discriminate].
Qed.

Lemma processing_step_raises (r : Request) (dl : string) (acc : list Q) :
  deadline r = Some dl -> dl <> EmptyString ->
  timestamp (created_date r) = None \/ timestamp dl = None ->
  exists e,
    (if truthy (col (select_star r) 9)
     then hours <- elapsed_hours (col (select_star r) 1)
                                 (col (select_star r) 9) ;;
          Ok (acc ++ [hours])%list
     else Ok acc) = Raise e.
Proof.
  intros Hdl Hne Hbad.
  change (col (select_star r) 9) with (sql_opt (deadline r)).
  change (col (select_star r) 1) with (SText (created_date r)).
  rewrite Hdl. cbn [sql_opt truthy].
  destruct (String.eqb_spec dl EmptyString) as [-> | _]; [contradiction |].
  cbn [negb]. unfold elapsed_hours, timestamp in *. cbn [strptime_val].
  destruct (strptime (created_date r) Fmt_Ymd_HMS) as [d1 | e1];
    cbn [bind]; [| now exists e1].
  destruct (strptime dl Fmt_Ymd_HMS) as [d2 | e2]; cbn [bind];
    [| now exists e2].
  destruct Hbad; discriminate.
Qed.

Lemma processing_times_raises (rs : list Request) (r : Request)
    (dl : string) :
  In r rs -> deadline r = Some dl -> dl <> EmptyString ->
  timestamp (created_date r) = None \/ timestamp dl = None ->
  exists e, processing_times (map select_star rs) = Raise e.
Proof.
  intros Hin Hdl Hne Hbad. unfold processing_times.
  apply (for_each_raises _ (select_star r)).
  - intros acc. now apply (processing_step_raises r dl).
  - now apply in_map.
Qed.

Lemma metrics_abort (db : Database) (start_date end_date : option string)
    (r : Request) (dl : string) :
  In r (in_window start_date end_date db) ->
  deadline r = Some dl -> dl <> EmptyString ->
  timestamp (created_date r) = None \/ timestamp dl = None ->
  get_performance_metrics (Ok db) start_date end_date = [].
Proof.
  intros Hin Hdl Hne Hbad.
  destruct (processing_times_raises _ r dl Hin Hdl Hne Hbad) as [e He].
  unfold get_performance_metrics. cbn [bind].
  change (select_requests start_date end_date db)
    with (map select_star (in_window start_date end_date db)).
  destruct (map select_star (in_window start_date end_date db))
    as [| row rows] eqn:Hrows.
  - destruct (in_window start_date end_date db); [destruct Hin | discriminate].
  - destruct (requests_per_day _ _ _) as [per_day | e']; cbn [bind try_except];
      [| reflexivity].
    rewrite He. reflexivity.
Qed.

(** X18 ([get_performance_metrics]).  Column 9 of a [SELECT *] row is the
    deadline: one request in the date window whose deadline is not empty,
    is written in ASCII and is not a timestamp makes the whole call return
    the empty dictionary, whatever else the store holds. *)
Theorem unparsable_deadline_aborts_metrics (db : Database)
    (start_date end_date : option string) (r : Request) (dl : string)
    (Hin : In r (in_window start_date end_date db))
    (Hdl : deadline r = Some dl) (Hne : dl <> EmptyString)
    (Hascii : ascii_only dl = true)
    (Hbad : timestamp dl = None) :
  get_performance_metrics (Ok db) start_date end_date = [].
Proof. apply (metrics_abort db start_date end_date r dl); auto. Qed.

Lemma in_window_extend (t : string) (rid : Z) (dl : string) (db : Database)
    (start_date end_date : option string) :
  in_window start_date end_date (snd (extend_deadline t rid dl db))
  = map (fun r => if id r =? rid then extended_row t dl r else r)
        (in_window start_date end_date db).
Proof.
  unfold in_window.
  assert (Hrows : requests (snd (extend_deadline t rid dl db))
                  = map (fun r => if id r =? rid then extended_row t dl r
                                  else r) (requests db)).
  { unfold extend_deadline, sql_update. cbn [snd requests].
    apply map_ext. intros r. destruct (id r =? rid); reflexivity. }
  rewrite Hrows. clear Hrows.
  induction (requests db) as [| r rs IH]; [reflexivity |].
  cbn [map filter].
  assert (Hc : created_date (if id r =? rid then extended_row t dl r else r)
               = created_date r)
    by (destruct (id r =? rid); reflexivity).
  rewrite Hc. destruct (date_filter start_date end_date (created_date r));
    cbn [map]; now rewrite IH.
Qed.

(** X19 ([Database.extend_deadline], [get_performance_metrics]).  After a
    request has got a deadline in the format [YYYY-MM-DD], the one the
    dialog of the manager asks for, [get_performance_metrics] returns the
    empty dictionary for every date window that holds the request. *)
Theorem extend_deadline_breaks_metrics (t : string) (rid : Z) (dl : string)
    (db : Database) (start_date end_date : option string) (r : Request)
    (d : datetime)
    (Hdate : parse_datetime Fmt_Ymd dl = Some d)
    (Hin : In r (in_window start_date end_date db))
    (Hid : id r = rid) :
  fst (extend_deadline t rid dl db) = true
  /\ get_performance_metrics (Ok (snd (extend_deadline t rid dl db)))
       start_date end_date = [].
Proof.
  destruct (date_is_no_timestamp dl d Hdate) as [Hne Hbad].
  split.
  - unfold extend_deadline, sql_update. cbn [fst].
    apply rowcount_positive. exists r. split; [| exact Hid].
    apply filter_In in Hin. apply Hin.
  - apply (metrics_abort _ start_date end_date (extended_row t dl r) dl);
      [| reflexivity | exact Hne | now right].
    rewrite in_window_extend.
    apply in_map_iff. exists r. split; [| exact Hin].
    apply Z.eqb_eq in Hid. now rewrite Hid.
Qed.

Lemma processing_step_ok (r : Request) (acc times : list Q) :
  (if truthy (col (select_star r) 9)
   then hours <- elapsed_hours (col (select_star r) 1)
                               (col (select_star r) 9) ;;
        Ok (acc ++ [hours])%list
   else Ok acc) = Ok times ->
  times = (acc ++ map binary64 (deadline_hours r))%list
  /\ forall dl, deadline r = Some dl -> dl <> EmptyString ->
       is_some (timestamp (created_date r)) = true
       /\ is_some (timestamp dl) = true.
Proof.
  change (col (select_star r) 9) with (sql_opt (deadline r)).
  change (col (select_star r) 1) with (SText (created_date r)).
  unfold deadline_hours, timestamp.
  destruct (deadline r) as [dl |]; cbn [sql_opt truthy].
  - destruct (String.eqb_spec dl EmptyString) as [-> | Hne]; cbn [negb].
    + intros [= <-]. split; [now rewrite app_nil_r |].
      intros dl' [= <-] H. contradiction.
    + unfold elapsed_hours. cbn [strptime_val].
      destruct (strptime (created_date r) Fmt_Ymd_HMS) as [d1 | e1];
        cbn [bind]; [| discriminate].
      destruct (strptime dl Fmt_Ymd_HMS) as [d2 | e2] eqn:E2; cbn [bind];
        [| discriminate].
      rewrite total_seconds_sub. intros [= <-]. split; [reflexivity |].
      intros dl' [= <-] _. rewrite E2. now split.
  - intros [= <-]. split; [now rewrite app_nil_r |]. discriminate.
Qed.

Lemma processing_loop_ok (rs : list Request) (acc times : list Q) :
  for_each (fun processing_times req =>
              if truthy (col req 9) then
                hours <- elapsed_hours (col req 1) (col req 9) ;;
                Ok (processing_times ++ [hours])%list
              else Ok processing_times)
           (map select_star rs) acc = Ok times ->
  times = (acc ++ map binary64 (flat_map deadline_hours rs))%list
  /\ forall r dl, In r rs -> deadline r = Some dl -> dl <> EmptyString ->
       is_some (timestamp (created_date r)) = true
       /\ is_some (timestamp dl) = true.
Proof.
  revert acc. induction rs as [| r rs IH]; intros acc; cbn [map for_each].
  - intros [= <-]. split; [now rewrite app_nil_r | intros r dl []].
  - intros H. apply bind_Ok_inv in H as [acc' [Hstep Hrest]].
    apply processing_step_ok in Hstep as [-> Hr].
    apply IH in Hrest as [-> Hrs]. split.
    + cbn [flat_map]. now rewrite map_app, app_assoc.
    + intros r' dl [<- | Hin]; [apply Hr | now apply Hrs].
Qed.

Lemma deadline_hours_bound (r : Request) (h : Q) :
  In h (deadline_hours r) -> (Qabs h <= 100000000)%Q.
Proof.
  unfold deadline_hours. destruct (deadline r) as [dl |]; [| intros []].
  destruct (String.eqb dl EmptyString); [intros [] |].
  destruct (strptime (created_date r) Fmt_Ymd_HMS) as [d1 |] eqn:E1;
    [| intros []].
  destruct (strptime dl Fmt_Ymd_HMS) as [d2 |] eqn:E2; [| intros []].
  intros [<- | []].
  apply hours_between_bound; eapply strptime_valid; eassumption.
Qed.

Lemma avg_processing_time_value (hours : list Q) :
  avg_processing_time (map binary64 hours)
  = Ok (match hours with
        | [] => VInt 0
        | _ => VFloat (float_mean_rounded hours)
        end).
Proof.
  destruct hours as [| h hs]; [reflexivity |].
  unfold avg_processing_time, float_mean_rounded.
  cbn [map statistics_mean bind length]. now rewrite length_map.
Qed.

(** X20 ([get_performance_metrics]).  Whenever the call returns an
    [average_processing_time_hours], the requests of the window with a
    non-empty deadline all parse; when there is none of them the value is
    the integer 0, however many requests are completed, and otherwise it is
    the mean of the hours from [created_date] to [deadline] over them,
    rounded to two decimals, as a float: the float of a number of two
    decimals within half a hundredth, and the rounding of the float
    operations, of the exact mean. *)
Theorem average_processing_time_is_mean_to_deadline (db : Database)
    (start_date end_date : option string) (v : PyVal)
    (Hres : metrics_get "average_processing_time_hours"
              (get_performance_metrics (Ok db) start_date end_date)
            = Some v) :
  let chosen := in_window start_date end_date db in
  let hours := flat_map deadline_hours chosen in
  (hours = [] -> v = VInt 0)
  /\ (hours <> [] ->
      exists y, v = VFloat y
                /\ rounded_to_2_decimals (1 # 10000000) (Qmean hours) y)
  /\ (forall r dl, In r chosen -> deadline r = Some dl ->
        dl <> EmptyString ->
        is_some (timestamp (created_date r)) = true
        /\ is_some (timestamp dl) = true)
  /\ ((forall r, In r chosen ->
         deadline r = None \/ deadline r = Some EmptyString) ->
      v = VInt 0).
Proof.
  cbv zeta.
  assert (Hmain :
    v = mean_to_deadline (in_window start_date end_date db)
    /\ forall r dl, In r (in_window start_date end_date db) ->
         deadline r = Some dl -> dl <> EmptyString ->
         is_some (timestamp (created_date r)) = true
         /\ is_some (timestamp dl) = true).
  { unfold get_performance_metrics in Hres. cbn [bind] in Hres.
    change (select_requests start_date end_date db)
      with (map select_star (in_window start_date end_date db)) in Hres.
    destruct (map select_star (in_window start_date end_date db))
      as [| row rows] eqn:Hrows; [discriminate |].
    rewrite <- Hrows in Hres.
    destruct (requests_per_day _ _ _) as [per_day | e];
      cbn [bind try_except] in Hres; [| discriminate].
    destruct (processing_times _) as [times | e] eqn:Htimes;
      cbn [bind try_except] in Hres; [| discriminate].
    unfold processing_times in Htimes.
    apply processing_loop_ok in Htimes as [-> Hparse].
    split; [| exact Hparse].
    cbn [app] in Hres. rewrite avg_processing_time_value in Hres.
    cbn -[float_mean_rounded] in Hres. injection Hres as <-.
    unfold mean_to_deadline.
    now destruct (flat_map deadline_hours
                    (in_window start_date end_date db)). }
  destruct Hmain as [Hv Hparse]. unfold mean_to_deadline in Hv.
  assert (Hzero : flat_map deadline_hours (in_window start_date end_date db)
                  = [] -> v = VInt 0).
  { intros Hnil. now rewrite Hnil in Hv. }
  split; [exact Hzero |]. split; [| split; [exact Hparse |]].
  - intros Hne. exists (float_mean_rounded
                          (flat_map deadline_hours
                             (in_window start_date end_date db))).
    split.
    + rewrite Hv.
      destruct (flat_map deadline_hours (in_window start_date end_date db));
        [contradiction | reflexivity].
    + apply float_mean_rounded_spec; [exact Hne |].
      intros h Hh. apply in_flat_map in Hh as [r [_ Hh]].
      now apply (deadline_hours_bound r).
  - intros Hnone. apply Hzero.
    clear Hv Hparse Hres Hzero. revert Hnone.
    generalize (in_window start_date end_date db). intros rs.
    induction rs as [| r rs IH]; intros Hnone; [reflexivity |].
    cbn [flat_map]. rewrite IH by (intros r' Hr'; apply Hnone; now right).
    unfold deadline_hours.
    destruct (Hnone r (or_introl eq_refl)) as [-> | ->]; reflexivity.
Qed.

(** ** Operations followed by queries *)

Lemma get_all_requests_In (status_filter : option string) (db : Database)
    (r : Request) :
  In r (get_all_requests status_filter db)
  <-> In r (requests db) /\ passes_filter status_filter r = true.
Proof.
  unfold get_all_requests. rewrite order_by_In. unfold passes_filter.
  destruct status_filter as [f |]; cbn [truthy_arg sql_opt truthy arg_str].
  - destruct (String.eqb f EmptyString); cbn [negb orb].
    + tauto.
    + rewrite filter_In. cbn [SqlVal_eqb]. tauto.
  - cbn [negb orb]. tauto.
Qed.

Lemma search_requests_In (term : string) (db : Database) (r : Request) :
  In r (search_requests term db)
  <-> In r (requests db) /\ matches term r = true.
Proof. unfold search_requests. now rewrite order_by_In, filter_In. Qed.

(** X21 ([Database.update_request_status], [Database.get_all_requests]).
    After a status change of an existing request to a non-empty status, the
    request is listed under the new status with [updated_date] at the time
    of the change; its [completion_date] is the time of the change when the
    new status is "Готова к выдаче" or "Завершена" and the one it had
    otherwise; it is listed under no other status. *)
Theorem updated_request_is_listed (t : string) (rid : Z) (st : string)
    (m : option string) (db : Database)
    (Hhit : has_id db rid) (Hst : st <> EmptyString)
    (Hid : - 9223372036854775808 <= rid <= 9223372036854775807) :
  let db' := snd (update_request_status t rid st m db) in
  (exists r r0, In r (get_all_requests (Some st) db') /\ id r = rid
       /\ In r0 (requests db) /\ id r0 = rid
       /\ status r = st
       /\ updated_date r = Some t
       /\ (st = "Готова к выдаче" \/ st = "Завершена" ->
           completion_date r = Some t)
       /\ (st <> "Готова к выдаче" -> st <> "Завершена" ->
           completion_date r = completion_date r0))
  /\ (forall st' r, st' <> EmptyString -> st' <> st ->
        In r (get_all_requests (Some st') db') -> id r <> rid).
Proof.
  cbv zeta. split.
  - destruct Hhit as [r0 [Hin Hr0]].
    exists (updated_row t st m r0), r0.
    split; [| split; [exact Hr0 | split; [exact Hin | split; [exact Hr0 |]]]].
    + apply get_all_requests_In. split.
      * rewrite update_request_status_rows. apply in_map_iff.
        exists r0. split; [| exact Hin].
        apply Z.eqb_eq in Hr0. now rewrite Hr0.
      * unfold passes_filter. cbn [arg_str updated_row status].
        rewrite String.eqb_refl. apply orb_true_r.
    + split; [reflexivity |]. split; [reflexivity |].
      cbn [updated_row completion_date]. split.
      * intros [-> | ->]; reflexivity.
      * intros H1 H2.
        destruct (String.eqb_spec st "Готова к выдаче"); [contradiction |].
        destruct (String.eqb_spec st "Завершена"); [contradiction |].
        reflexivity.
  - intros st' r Hne' Hdiff Hin Hr.
    apply get_all_requests_In in Hin as [Hin Hpass].
    rewrite update_request_status_rows in Hin.
    apply in_map_iff in Hin as [r0 [Hr0 Hin]].
    unfold passes_filter in Hpass.
    cbn [truthy_arg sql_opt truthy arg_str] in Hpass.
    destruct (String.eqb_spec st' EmptyString) as [-> | _];
      [contradiction |].
    cbn [negb orb] in Hpass. apply String.eqb_eq in Hpass.
    destruct (Z.eqb_spec (id r0) rid) as [E | E]; subst r.
    + cbn [updated_row status] in Hpass. now subst st'.
    + contradiction.
Qed.

(** X22 ([Database.add_request], [Database.search_requests],
    [Database.get_all_requests]).  While the counter of the identifiers is
    below the largest rowid, a request that has just been added is found by
    every term that occurs in the text of its new identifier, in the client
    name, the phone or the device model, the term having fewer than 49999
    bytes and, like the field it occurs in, no NUL; the request is listed
    without a filter and under the status [Новая], and the unfiltered list
    has grown by one. *)
Theorem added_request_is_found (t dt dm pd cn cp : string)
    (dl : option string) (db : Database) (term f : string)
    (Hseq : requests_seq db < 9223372036854775807)
    (Hnul : no_nul term = true) (Hlen : within_like_limit term = true)
    (Hf : In f [string_of_Z (fst (add_request t dt dm pd cn cp dl db));
                cn; cp; dm])
    (Hfield : no_nul f = true)
    (Hocc : occurs_in term f) :
  let result := add_request t dt dm pd cn cp dl db in
  exists r, id r = fst result
    /\ status r = STATUS_NEW
    /\ In r (search_requests term (snd result))
    /\ In r (get_all_requests None (snd result))
    /\ In r (get_all_requests (Some STATUS_NEW) (snd result))
    /\ length (get_all_requests None (snd result))
       = S (length (get_all_requests None db)).
Proof.
  cbv zeta. unfold add_request in *. cbn [fst snd] in *.
  set (row := mk_request (requests_seq db + 1) t dt dm pd cn cp STATUS_NEW
                None dl None (Some t)).
  assert (Hin : In row (requests db ++ [row])%list)
    by (apply in_or_app; right; now left).
  exists row. split; [reflexivity |]. split; [reflexivity |]. split.
  { apply search_requests_In. cbn [requests]. split; [exact Hin |].
    unfold matches. apply (sql_like_occurrence term f Hnul Hfield) in Hocc.
    destruct Hf as [<- | [<- | [<- | [<- | []]]]];
      cbn [row id client_name client_phone device_model];
      rewrite Hocc; rewrite ?orb_true_r; reflexivity. }
  split.
  { apply get_all_requests_In. cbn [requests]. now split. }
  split.
  { apply get_all_requests_In. cbn [requests]. split; [exact Hin |].
    reflexivity. }
  unfold get_all_requests. cbn [truthy_arg sql_opt truthy requests].
  rewrite (Permutation_length (order_by_perm newest_first
                                 (requests db ++ [row])%list)).
  rewrite (Permutation_length (order_by_perm newest_first (requests db))).
  rewrite length_app. cbn [length]. lia.
Qed.

(** X23 ([ServiceCenterApp._delete_request], [Database.get_all_requests],
    [Database.search_requests]).  After a deletion, listing and search
    return exactly what they returned before minus the requests with the
    deleted identifier, for every filter and every term; the counter of the
    identifiers stays where it was. *)
Theorem deleted_request_is_gone (rid : Z) (db : Database)
    (status_filter : option string) (term : string) :
  let db' := delete_request rid db in
  (forall r, In r (get_all_requests status_filter db')
             <-> In r (get_all_requests status_filter db) /\ id r <> rid)
  /\ (forall r, In r (search_requests term db')
                <-> In r (search_requests term db) /\ id r <> rid)
  /\ requests_seq db' = requests_seq db.
Proof.
  cbv zeta.
  assert (Hreq : forall r, In r (requests (delete_request rid db))
                           <-> In r (requests db) /\ id r <> rid).
  { intros r. unfold delete_request. cbn [requests]. rewrite filter_In.
    rewrite negb_true_iff, Z.eqb_neq. tauto. }
  split; [| split; [| reflexivity]].
  - intros r. rewrite !get_all_requests_In, Hreq. tauto.
  - intros r. rewrite !search_requests_In, Hreq. tauto.
Qed.

(** ** The further properties at concrete inputs *)

Lemma add_request_never_reuses_id_witness :
  In stove_request (requests (perform stove_actions empty_database))
  /\ requests (perform (stove_actions ++ [Delete_request 1]) empty_database)
     = []
  /\ id stove_request
     < fst (add_request "2024-05-02 09:00:00" "Плита" "Gefest_3200"
              "Не греет" "Петров Петр" "+7 (999) 000-00-00" None
              (perform (stove_actions ++ [Delete_request 1]) empty_database)).
Proof.
  assert (Hin : In stove_request
                  (requests (perform stove_actions empty_database)))
    by (left; reflexivity).
  split; [exact Hin |]. split; [reflexivity |].
  exact (proj1 (add_request_never_reuses_id stove_actions [Delete_request 1]
                  stove_request "2024-05-02 09:00:00" "Плита" "Gefest_3200"
                  "Не греет" "Петров Петр" "+7 (999) 000-00-00" None Hin)).
Defined.

Lemma search_requests_finds_occurrences_witness :
  occurs_in "_32" "Gefest_3200"
  /\ In stove_request
        (search_requests "_32" (perform stove_actions empty_database)).
Proof.
  assert (Hocc : occurs_in "_32" "Gefest_3200")
    by (exists "Gefest", "00"; reflexivity).
  split; [exact Hocc |].
  apply (search_requests_finds_occurrences "_32"
           (perform stove_actions empty_database) stove_request
           "Gefest_3200");
    [reflexivity | reflexivity | left; reflexivity
     | do 3 right; left; reflexivity | reflexivity | exact Hocc].
Defined.

Lemma strptime_strftime_witness :
  strftime (mk_datetime 2024 2 29 7 5 9) = "2024-02-29 07:05:09"
  /\ strptime "2024-02-29 07:05:09" Fmt_Ymd_HMS
     = Ok (mk_datetime 2024 2 29 7 5 9).
Proof.
  split; [reflexivity |].
  apply (strptime_strftime (mk_datetime 2024 2 29 7 5 9));
    [reflexivity | simpl; lia].
Defined.

Lemma reachable_store_is_well_formed_witness :
  forallb (fun t => is_some (timestamp t)) (flat_map reading workshop_actions)
  = true
  /\ well_formed_timestamps (perform workshop_actions empty_database) = true.
Proof.
  assert (Hclock : forallb (fun t => is_some (timestamp t))
                     (flat_map reading workshop_actions) = true)
    by (vm_compute; reflexivity).
  split; [exact Hclock |].
  exact (proj1 (reachable_store_is_well_formed workshop_actions Hclock)).
Defined.

Lemma average_repair_time_nonnegative_witness :
  clock_monotone None (flat_map reading workshop_actions) = true
  /\ (0 <= calculate_average_repair_time
             (Ok (perform workshop_actions empty_database)))%Q.
Proof.
  assert (Hclock : clock_monotone None (flat_map reading workshop_actions)
                   = true)
    by (vm_compute; reflexivity).
  split; [exact Hclock |].
  exact (average_repair_time_nonnegative workshop_actions Hclock).
Defined.

Lemma statistics_by_device_spec_witness :
  well_formed_timestamps three_status_db = true
  /\ NoDup (map fst (calculate_request_statistics_by_device
                       (Ok three_status_db))).
Proof.
  assert (Hwf : well_formed_timestamps three_status_db = true)
    by (vm_compute; reflexivity).
  split; [exact Hwf |].
  exact (proj1 (statistics_by_device_spec three_status_db Hwf)).
Defined.

Lemma most_common_problem_spec_witness :
  In ("Плита", mk_device_stats 3 1 23 "a" (binary64 33.33))
     (calculate_request_statistics_by_device (Ok three_status_db))
  /\ exists r, In r (requests three_status_db) /\ device_type r = "Плита"
               /\ problem_description r = "a".
Proof.
  assert (Hwf : well_formed_timestamps three_status_db = true)
    by (vm_compute; reflexivity).
  assert (Hin : In ("Плита", mk_device_stats 3 1 23 "a" (binary64 33.33))
                   (calculate_request_statistics_by_device
                      (Ok three_status_db)))
    by (vm_compute; left; reflexivity).
  split; [exact Hin |].
  exact (proj1 (most_common_problem_spec three_status_db "Плита"
                  (mk_device_stats 3 1 23 "a" (binary64 33.33)) Hwf Hin)).
Defined.

Lemma master_efficiency_spec_witness :
  metrics_get "master_efficiency"
    (get_performance_metrics (Ok fridge_db) None None)
  = Some (VMasters [(SText "Мастер Иванов",
                     mk_master_stats 0 1 (Some 0%Q))])
  /\ metrics_get "total_requests"
       (get_performance_metrics (Ok fridge_db) None None)
     = Some (VInt (Z.of_nat (length (in_window None None fridge_db)))).
Proof.
  assert (Hres : metrics_get "master_efficiency"
                   (get_performance_metrics (Ok fridge_db) None None)
                 = Some (VMasters [(SText "Мастер Иванов",
                                    mk_master_stats 0 1 (Some 0%Q))]))
    by (vm_compute; reflexivity).
  split; [exact Hres |].
  exact (proj1 (master_efficiency_spec fridge_db None None _ Hres)).
Defined.

Lemma validated_phone_is_canonicalised_witness :
  ascii_only "8 (999) 123-45-67" = true
  /\ validate_phone_number "8 (999) 123-45-67" = true
  /\ validate_phone_number (format_phone_number "8 (999) 123-45-67") = true.
Proof.
  split; [reflexivity |]. split; [reflexivity |].
  destruct (validated_phone_is_canonicalised "8 (999) 123-45-67"
              eq_refl eq_refl)
    as [c1 [c2 [c3 [c4 [c5 [c6 [c7 [c8 [c9 [c10 [_ [_ [_ H]]]]]]]]]]]]].
  exact H.
Defined.

Lemma format_phone_number_idempotent_witness :
  ascii_only "8 (999) 123-45-67" = true
  /\ format_phone_number "8 (999) 123-45-67" = "+7 (999) 123-45-67"
  /\ format_phone_number (format_phone_number "8 (999) 123-45-67")
     = format_phone_number "8 (999) 123-45-67".
Proof.
  split; [reflexivity |]. split; [reflexivity |].
  exact (format_phone_number_idempotent "8 (999) 123-45-67" eq_refl).
Defined.

Lemma unparsable_deadline_aborts_metrics_witness :
  In fridge_with_deadline (in_window None None deadline_db)
  /\ ascii_only "2024-01-10" = true
  /\ timestamp "2024-01-10" = None
  /\ get_performance_metrics (Ok deadline_db) None None = [].
Proof.
  assert (Hin : In fridge_with_deadline (in_window None None deadline_db))
    by (vm_compute; left; reflexivity).
  split; [exact Hin |]. split; [reflexivity |]. split; [reflexivity |].
  apply (unparsable_deadline_aborts_metrics deadline_db None None
           fridge_with_deadline "2024-01-10");
    [exact Hin | reflexivity | discriminate | reflexivity | reflexivity].
Defined.

Lemma extend_deadline_breaks_metrics_witness :
  parse_datetime Fmt_Ymd "2024-01-10" = Some (mk_datetime 2024 1 10 0 0 0)
  /\ get_performance_metrics (Ok fridge_db) None None <> []
  /\ get_performance_metrics
       (Ok (snd (extend_deadline "2024-01-03 09:00:00" 1 "2024-01-10"
                   fridge_db)))
       None None = [].
Proof.
  split; [reflexivity |]. split; [vm_compute; discriminate |].
  apply (extend_deadline_breaks_metrics "2024-01-03 09:00:00" 1
           "2024-01-10" fridge_db None None fridge_request
           (mk_datetime 2024 1 10 0 0 0));
    [reflexivity | vm_compute; left; reflexivity | reflexivity].
Defined.

Lemma average_processing_time_is_mean_to_deadline_witness :
  metrics_get "average_processing_time_hours"
    (get_performance_metrics (Ok planned_db) None None)
  = Some (VFloat 24)
  /\ (exists y, VFloat 24 = VFloat y
                /\ rounded_to_2_decimals (1 # 10000000)
                     (Qmean (flat_map deadline_hours
                               (in_window None None planned_db))) y)
  /\ calculate_average_repair_time (Ok planned_db) = 0%Q.
Proof.
  assert (Hres : metrics_get "average_processing_time_hours"
                   (get_performance_metrics (Ok planned_db) None None)
                 = Some (VFloat 24))
    by (vm_compute; reflexivity).
  split; [exact Hres |]. split; [| vm_compute; reflexivity].
  apply (proj1 (proj2 (average_processing_time_is_mean_to_deadline
                         planned_db None None (VFloat 24) Hres))).
  vm_compute. discriminate.
Defined.

Lemma updated_request_is_listed_witness :
  has_id search_db 1
  /\ exists r, In r (get_all_requests (Some "Завершена")
                       (snd (update_request_status "2024-03-03 09:00:00" 1
                               "Завершена" None search_db)))
               /\ id r = 1
               /\ completion_date r = Some "2024-03-03 09:00:00".
Proof.
  assert (Hhit : has_id search_db 1).
  { unfold has_id. eexists. split; [left; reflexivity | reflexivity]. }
  split; [exact Hhit |].
  destruct (updated_request_is_listed "2024-03-03 09:00:00" 1 "Завершена"
              None search_db Hhit ltac:(discriminate) ltac:(lia))
    as [[r [r0 [Hin [Hid [_ [_ [_ [_ [Hstamp _]]]]]]]]] _].
  exists r. split; [exact Hin |]. split; [exact Hid |].
  apply Hstamp. now right.
Defined.

Lemma added_request_is_found_witness :
  requests_seq search_db < 9223372036854775807
  /\ occurs_in "999" "+7 (999) 000-00-00"
  /\ exists r,
       id r = 3
       /\ In r (search_requests "999"
                  (snd (add_request "2024-03-03 09:00:00" "Плита" "Gefest"
                          "Не греет" "Петров Петр" "+7 (999) 000-00-00" None
                          search_db))).
Proof.
  assert (Hseq : requests_seq search_db < 9223372036854775807)
    by reflexivity.
  assert (Hocc : occurs_in "999" "+7 (999) 000-00-00")
    by (exists "+7 (", ") 000-00-00"; reflexivity).
  split; [exact Hseq |]. split; [exact Hocc |].
  destruct (added_request_is_found "2024-03-03 09:00:00" "Плита" "Gefest"
              "Не греет" "Петров Петр" "+7 (999) 000-00-00" None search_db
              "999" "+7 (999) 000-00-00" Hseq eq_refl eq_refl
              ltac:(do 2 right; left; reflexivity) eq_refl Hocc)
    as [r [Hid [_ [Hin _]]]].
  exists r. split; [exact Hid | exact Hin].
Defined.
